(** * cloudmcp: the serverless JSON-RPC gateway and its client transports

    A shallow embedding of
      - [internal/gateway/gateway.go]  (Gateway.Serve, Gateway.serveCtrl),
      - [internal/gateway/apigw.go]    (NewHttpRequest, requestBody, writer),
      - [pkg/auth/apikey.go]           (NewTransportApiKey, apikeyTransport),
      - package auth, the IAM transport (NewTransportIAM, iamTransport),
    together with the parts of the Go standard library these functions lean
    on: [encoding/base64], [encoding/hex], [crypto/sha256], [io] readers and
    [net/http] headers and requests.

    Go strings are byte sequences: they are [string] here (a list of 8-bit
    characters), and [[]byte] is [list byte]. Calls into collaborators the
    repository does not own (the JSON-RPC decoder, the protocol handler, the
    credential provider, the request signer, the inner round tripper) are
    section variables giving the outcome of the call, and every such call is
    written to a trace, so that "is never invoked" is a statement about the
    trace. *)

From Stdlib Require Import ZArith Lia Bool List.
From Stdlib.Strings Require Import Ascii String Byte.
From stdpp Require Import base option list gmap strings.

Open Scope Z_scope.

(* ===================================================================== *)
(** ** Bytes and strings *)
(* ===================================================================== *)

Abbreviation bytes := (list byte).

Definition byte_to_Z (b : byte) : Z := Z.of_N (Byte.to_N b).

(** [byte(v)] in Go: the low eight bits of [v]. *)
Definition byte_of_Z (z : Z) : byte :=
  match Byte.of_N (Z.to_N (z mod 256)) with
  | Some b => b
  | None => x00
  end.

(** [[]byte(s)] and [string(b)]. *)
Definition bytes_of_string (s : string) : bytes := list_byte_of_string s.
Definition string_of_bytes (b : bytes) : string := string_of_list_byte b.

(** Go's [error] values that this development tells apart. *)
Inductive error : Type :=
| ErrMissingURL                  (* errors.New("missing URL config") *)
| ErrInvalidMethod (m : string)  (* net/http: invalid method %q *)
| ErrCorruptInput                (* base64.CorruptInputError *)
| ErrUnexpectedEOF               (* io.ErrUnexpectedEOF *)
| ErrExternal (msg : string).    (* an error of a collaborator *)

(** A Go result pair [(v, err)] with exactly one side set. *)
Inductive result (A : Type) : Type :=
| Ok (v : A)
| Err (e : error).
Arguments Ok {A} v.
Arguments Err {A} e.

(* ===================================================================== *)
(** ** encoding/base64 *)
(* ===================================================================== *)

Module Base64.

(** [encodeStd]: the standard alphabet of RFC 4648. *)
Definition encodeStd : string :=
  "ABCDEFGHIJKLMNOPQRSTUVWXYZabcdefghijklmnopqrstuvwxyz0123456789+/".

Definition StdPadding : byte := x3d.   (* '=' *)

(** [enc.encode[i]]. *)
Definition encode_at (i : Z) : byte :=
  nth (Z.to_nat i) (bytes_of_string encodeStd) x00.

Fixpoint index_of (c : byte) (l : bytes) (i : Z) : Z :=
  match l with
  | [] => 255
  | x :: l' => if Byte.eqb c x then i else index_of c l' (i + 1)
  end.

(** [enc.decodeMap[c]]: the six bits of [c], or [0xff] outside the alphabet. *)
Definition decodeMap (c : byte) : Z := index_of c (bytes_of_string encodeStd) 0.

Definition in_alphabet (c : byte) : bool := negb (decodeMap c =? 255).

Definition is_pad (c : byte) : bool := Byte.eqb c StdPadding.

(** [Encoding.Encode]: three source bytes give four characters; a rest of one
    or two bytes gives two or three characters and, when the encoding pads,
    the padding that fills the quantum. [padded = false] is [RawStdEncoding]. *)
Fixpoint Encode (padded : bool) (src : bytes) : bytes :=
  match src with
  | [] => []
  | [a] =>
      let val := Z.shiftl (byte_to_Z a) 16 in
      [encode_at (Z.land (Z.shiftr val 18) 63);
       encode_at (Z.land (Z.shiftr val 12) 63)]
      ++ (if padded then [StdPadding; StdPadding] else [])
  | [a; b] =>
      let val := Z.lor (Z.shiftl (byte_to_Z a) 16) (Z.shiftl (byte_to_Z b) 8) in
      [encode_at (Z.land (Z.shiftr val 18) 63);
       encode_at (Z.land (Z.shiftr val 12) 63);
       encode_at (Z.land (Z.shiftr val 6) 63)]
      ++ (if padded then [StdPadding] else [])
  | a :: b :: c :: rest =>
      let val := Z.lor (Z.lor (Z.shiftl (byte_to_Z a) 16)
                              (Z.shiftl (byte_to_Z b) 8)) (byte_to_Z c) in
      encode_at (Z.land (Z.shiftr val 18) 63)
      :: encode_at (Z.land (Z.shiftr val 12) 63)
      :: encode_at (Z.land (Z.shiftr val 6) 63)
      :: encode_at (Z.land val 63)
      :: Encode padded rest
  end.

(** [base64.RawStdEncoding.EncodeToString]. *)
Definition RawStdEncoding_EncodeToString (src : bytes) : string :=
  string_of_bytes (Encode false src).

(** [base64.StdEncoding.EncodeToString]. *)
Definition StdEncoding_EncodeToString (src : bytes) : string :=
  string_of_bytes (Encode true src).

(** The 24 bits of a quantum, [dbuf[0]<<18 | dbuf[1]<<12 | dbuf[2]<<6 | dbuf[3]]. *)
Definition quantum (d0 d1 d2 d3 : Z) : Z :=
  Z.lor (Z.lor (Z.lor (Z.shiftl d0 18) (Z.shiftl d1 12)) (Z.shiftl d2 6)) d3.

(** [StdEncoding.Decode] on input without line breaks (the stream decoder
    strips '\r' and '\n' before it calls Decode): quantum by quantum, as
    [decodeQuantum] does. The standard encoding is padded and not strict:
    a quantum cut short, a character outside the alphabet or padding in the
    wrong place is [CorruptInputError] and gives none of that quantum's
    bytes; a correctly padded quantum gives its one or two bytes and must be
    the last one, anything after it being reported as corrupt as well. The
    result holds the bytes decoded before the error. The offset carried by
    CorruptInputError is not modelled. *)
Fixpoint Decode (src : bytes) : bytes * option error :=
  match src with
  | [] => ([], None)
  | c0 :: c1 :: c2 :: c3 :: rest =>
      if in_alphabet c0 && in_alphabet c1 then
        let d0 := decodeMap c0 in
        let d1 := decodeMap c1 in
        if in_alphabet c2 then
          let d2 := decodeMap c2 in
          if in_alphabet c3 then
            let val := quantum d0 d1 d2 (decodeMap c3) in
            let '(out, e) := Decode rest in
            (byte_of_Z (Z.shiftr val 16) :: byte_of_Z (Z.shiftr val 8)
               :: byte_of_Z val :: out, e)
          else if is_pad c3 then
            let val := quantum d0 d1 d2 0 in
            ([byte_of_Z (Z.shiftr val 16); byte_of_Z (Z.shiftr val 8)],
             match rest with [] => None | _ => Some ErrCorruptInput end)
          else ([], Some ErrCorruptInput)
        else if is_pad c2 then
          if is_pad c3 then
            let val := quantum d0 d1 0 0 in
            ([byte_of_Z (Z.shiftr val 16)],
             match rest with [] => None | _ => Some ErrCorruptInput end)
          else ([], Some ErrCorruptInput)
        else ([], Some ErrCorruptInput)
      else ([], Some ErrCorruptInput)
  | _ => ([], Some ErrCorruptInput)
  end.

End Base64.

(* ===================================================================== *)
(** ** encoding/hex *)
(* ===================================================================== *)

Module Hex.

Definition hextable : string := "0123456789abcdef".

Definition hex_at (i : Z) : byte :=
  nth (Z.to_nat i) (bytes_of_string hextable) x00.

(** [hex.EncodeToString]: two lower-case digits per byte, high nibble first. *)
Definition EncodeToString (src : bytes) : string :=
  string_of_bytes
    (flat_map (fun b => [hex_at (Z.shiftr (byte_to_Z b) 4);
                         hex_at (Z.land (byte_to_Z b) 15)]) src).

End Hex.

(* ===================================================================== *)
(** ** crypto/sha256 (FIPS 180-4) *)
(* ===================================================================== *)

Module SHA256.

(** 32-bit words are [Z] in [0, 2^32); every sum is reduced. *)
Definition w32 (x : Z) : Z := x mod 4294967296.
Definition add32 (x y : Z) : Z := w32 (x + y).
Definition rotr (n x : Z) : Z := Z.lor (Z.shiftr x n) (w32 (Z.shiftl x (32 - n))).
Definition not32 (x : Z) : Z := 4294967295 - x.

Definition Ch (x y z : Z) : Z := Z.lxor (Z.land x y) (Z.land (not32 x) z).
Definition Maj (x y z : Z) : Z :=
  Z.lxor (Z.lxor (Z.land x y) (Z.land x z)) (Z.land y z).
Definition Sigma0 (x : Z) : Z := Z.lxor (Z.lxor (rotr 2 x) (rotr 13 x)) (rotr 22 x).
Definition Sigma1 (x : Z) : Z := Z.lxor (Z.lxor (rotr 6 x) (rotr 11 x)) (rotr 25 x).
Definition sigma0 (x : Z) : Z := Z.lxor (Z.lxor (rotr 7 x) (rotr 18 x)) (Z.shiftr x 3).
Definition sigma1 (x : Z) : Z := Z.lxor (Z.lxor (rotr 17 x) (rotr 19 x)) (Z.shiftr x 10).

(** The constants of FIPS 180-4, by their definition there: [K] holds the
    first 32 bits of the fractional parts of the cube roots of the first 64
    primes (4.2.2), the initial hash value those of the square roots of the
    first 8 primes (5.3.3). *)
Definition is_prime (n : nat) : bool :=
  forallb (fun d => negb (n mod d =? 0)%nat) (seq 2 (n - 2)).

Definition primes (n : nat) : list Z :=
  map Z.of_nat (take n (filter (fun p => is_prime p = true) (seq 2 310))).

(** The integer cube root, found bit by bit from bit [n - 1] down. *)
Fixpoint icbrt (n : nat) (x r : Z) : Z :=
  match n with
  | O => r
  | S n' =>
      let c := Z.lor r (Z.shiftl 1 (Z.of_nat n')) in
      icbrt n' x (if c * c * c <=? x then c else r)
  end.

Definition K : list Z :=
  map (fun p => w32 (icbrt 44 (Z.shiftl p 96) 0)) (primes 64).

Definition init : list Z :=
  map (fun p => w32 (Z.sqrt (Z.shiftl p 64))) (primes 8).

(** Big-endian bytes of a word and back. *)
Definition be_bytes (n : nat) (x : Z) : bytes :=
  map (fun i => byte_of_Z (Z.shiftr x (8 * Z.of_nat i))) (rev (seq 0 n)).

Fixpoint be_word (bs : bytes) (acc : Z) : Z :=
  match bs with
  | [] => acc
  | b :: bs' => be_word bs' (Z.lor (Z.shiftl acc 8) (byte_to_Z b))
  end.

(** The padded message: a 1 bit, zeros up to 56 mod 64, the bit length in
    eight bytes. *)
Definition pad (msg : bytes) : bytes :=
  let len := Z.of_nat (length msg) in
  let zeros := Z.to_nat ((55 - len) mod 64) in
  msg ++ [x80] ++ repeat x00 zeros ++ be_bytes 8 (8 * len).

(** The message schedule, most recent word first: sixteen words of the block
    and then [W_t = sigma1 W_(t-2) + W_(t-7) + sigma0 W_(t-15) + W_(t-16)]. *)
Fixpoint extend (n : nat) (w : list Z) : list Z :=
  match n with
  | O => w
  | S n' =>
      let x := add32 (add32 (sigma1 (nth 1 w 0)) (nth 6 w 0))
                     (add32 (sigma0 (nth 14 w 0)) (nth 15 w 0)) in
      extend n' (x :: w)
  end.

Fixpoint words (n : nat) (bs : bytes) : list Z :=
  match n with
  | O => []
  | S n' => be_word (take 4 bs) 0 :: words n' (drop 4 bs)
  end.

Definition schedule (block : bytes) : list Z :=
  rev (extend 48 (rev (words 16 block))).

(** One round on the working variables [a..h]. *)
Definition round (st : list Z) (kw : Z * Z) : list Z :=
  match st with
  | [a; b; c; d; e; f; g; h] =>
      let t1 := add32 (add32 (add32 (add32 h (Sigma1 e)) (Ch e f g)) (fst kw)) (snd kw) in
      let t2 := add32 (Sigma0 a) (Maj a b c) in
      [add32 t1 t2; a; b; c; add32 d t1; e; f; g]
  | _ => st
  end.

(** The compression of one 64-byte block into the hash value. *)
Definition block (h : list Z) (blk : bytes) : list Z :=
  let st := fold_left round (combine K (schedule blk)) h in
  map (fun p => add32 (fst p) (snd p)) (combine h st).

Fixpoint blocks (n : nat) (h : list Z) (bs : bytes) : list Z :=
  match n with
  | O => h
  | S n' => blocks n' (block h (take 64 bs)) (drop 64 bs)
  end.

(** [sha256.Sum256]: the 32-byte digest of a message. *)
Definition Sum256 (msg : bytes) : bytes :=
  let p := pad msg in
  flat_map (be_bytes 4) (blocks (length p / 64) init p).

(** A running hash, [sha256.New()]: [Write] absorbs bytes, [Sum(nil)] is the
    digest of everything written so far. *)
Record digest : Type := { written : bytes }.
Definition New : digest := {| written := [] |}.
Definition Write (d : digest) (p : bytes) : digest := {| written := written d ++ p |}.
Definition Sum (d : digest) : bytes := Sum256 (written d).

End SHA256.

(* ===================================================================== *)
(** ** Calls into collaborators: a trace of events *)
(* ===================================================================== *)

(** A computation that returns a value and the calls it made to the outside,
    in order. *)
Definition M (E A : Type) : Type := A * list E.

#[global] Instance M_ret {E} : MRet (M E) := fun A (a : A) => (a, []).

#[global] Instance M_bind {E} : MBind (M E) := fun A B (k : A -> M E B) (m : M E A) =>
  let '(a, t1) := m in let '(b, t2) := k a in (b, t1 ++ t2).

Definition emit {E} (e : E) : M E unit := (tt, [e]).

Definition value {E A} (m : M E A) : A := fst m.
Definition trace {E A} (m : M E A) : list E := snd m.

(* ===================================================================== *)
(** ** io: readers *)
(* ===================================================================== *)

Module IO.

(** An [io.Reader] over a finite stream, as the script of what its successive
    [Read] calls return from now on: some bytes, the end of the stream, or an
    error. (A [Read] that returns bytes together with an error is the bytes
    followed by the error; [io.Copy] and [io.ReadAll] treat it so.) Reading
    consumes: a reader that has served a chunk is its [next] from then on,
    and one that has reached its end or an error stays there. *)
Inductive Reader : Type :=
| REOF
| RErr (e : error)
| RData (p : bytes) (next : Reader).

(** [io.ReadAll]: everything read up to the end or the first error; the end
    of the stream is no error. *)
Fixpoint ReadAll (r : Reader) : bytes * option error :=
  match r with
  | REOF => ([], None)
  | RErr e => ([], Some e)
  | RData p next => let '(rest, e) := ReadAll next in (p ++ rest, e)
  end.

(** [strings.NewReader(s)] and a [*bytes.Buffer] read from: the content,
    then the end of the stream. The content arrives in one [Read], which is
    what both do when the caller's buffer has room for it. *)
Definition bytes_Reader (b : bytes) : Reader :=
  match b with
  | [] => REOF
  | _ => RData b REOF
  end.

Definition strings_NewReader (s : string) : Reader := bytes_Reader (bytes_of_string s).

(** [io.NopCloser(r)]: the reader itself; [Close] does nothing. *)
Definition NopCloser (r : Reader) : Reader := r.

Definition is_newline (c : byte) : bool := Byte.eqb c x0a || Byte.eqb c x0d.

(** [base64.NewDecoder(base64.StdEncoding, r)]. The decoder strips line
    breaks from what it reads, keeps the characters that do not fill a
    quantum of four for the next read ([pending], fewer than four), and
    decodes the whole quanta it holds. A decoding error ends the stream
    after the bytes decoded before it; the end of the input inside a
    quantum is [io.ErrUnexpectedEOF]; an error of the underlying reader is
    passed on. The chunks decoded are those the reader underneath serves,
    so a body from [strings_NewReader] is decoded as one chunk.
    [base64.NewDecoder] cuts its input by the room its caller's buffer and
    its own buffer of 1024 characters leave, and decodes each piece on its
    own; for a body whose padding, if any, stands at its very end the bytes
    and the kind of end are the same wherever the cuts fall, which is the
    case of the facts below. A padded quantum before the end of the body is
    corrupt input here, while [base64.NewDecoder] takes it for the end of a
    piece, and goes on, when a cut falls right after it. *)
Fixpoint decoder (pending : bytes) (r : Reader) : Reader :=
  match r with
  | REOF => match pending with [] => REOF | _ => RErr ErrUnexpectedEOF end
  | RErr e => RErr e
  | RData p next =>
      let buf := pending ++ filter (fun c => negb (is_newline c)) p in
      let nr := (length buf / 4 * 4)%nat in
      match Base64.Decode (take nr buf) with
      | (out, Some e) => RData out (RErr e)
      | (out, None) => RData out (decoder (drop nr buf) next)
      end
  end.

Definition base64_NewDecoder (r : Reader) : Reader := decoder [] r.

(** [io.Copy(buf, io.TeeReader(src, hasher))]: every chunk read from [src] is
    written to the hasher by the tee and then to the buffer by the copy, until
    the end of the stream (no error) or a read error, which stops the copy.
    The last component is [src] as the copy leaves it: read up to its end or
    its error. *)
Fixpoint Copy_Tee (src : Reader) (buf : bytes) (hasher : SHA256.digest)
  : bytes * SHA256.digest * option error * Reader :=
  match src with
  | REOF => (buf, hasher, None, REOF)
  | RErr e => (buf, hasher, Some e, RErr e)
  | RData p next => Copy_Tee next (buf ++ p) (SHA256.Write hasher p)
  end.

End IO.

(* ===================================================================== *)
(** ** net/http: header maps, URLs, requests *)
(* ===================================================================== *)

Module Http.

(** Token characters of RFC 7230 ([httpguts.IsTokenRune], and
    [validHeaderFieldByte] of net/textproto). *)
Definition isTokenByte (c : byte) : bool :=
  let z := byte_to_Z c in
  ((48 <=? z) && (z <=? 57)) || ((65 <=? z) && (z <=? 90)) || ((97 <=? z) && (z <=? 122))
  || existsb (Byte.eqb c) (bytes_of_string "!#$%&'*+-.^_`|~").

(** [validMethod]: a non-empty token. *)
Definition validMethod (method : string) : bool :=
  match bytes_of_string method with
  | [] => false
  | bs => forallb isTokenByte bs
  end.

Definition is_lower (c : byte) : bool := (97 <=? byte_to_Z c) && (byte_to_Z c <=? 122).
Definition is_upper (c : byte) : bool := (65 <=? byte_to_Z c) && (byte_to_Z c <=? 90).

(** The canonical spelling: upper case for the first letter and for a letter
    after a hyphen, lower case elsewhere. *)
Fixpoint canonical_bytes (upper : bool) (a : bytes) : bytes :=
  match a with
  | [] => []
  | c :: rest =>
      let c' := if upper && is_lower c then byte_of_Z (byte_to_Z c - 32)
                else if negb upper && is_upper c then byte_of_Z (byte_to_Z c + 32)
                else c in
      c' :: canonical_bytes (Byte.eqb c' x2d) rest
  end.

(** [textproto.CanonicalMIMEHeaderKey]: a key with a byte that is no token
    character (a space included) is returned unchanged. *)
Definition CanonicalMIMEHeaderKey (s : string) : string :=
  let a := bytes_of_string s in
  if forallb isTokenByte a then string_of_bytes (canonical_bytes true a) else s.

(** [http.Header], [map[string][]string]. The transports below are reached
    through [http.Client], which gives a request a header map before it calls
    [RoundTrip], and [http.NewRequestWithContext] makes one: the map of a
    request is never nil here. *)
Abbreviation Header := (gmap string (list string)).

(** [Header.Add]: append to the values of the canonical key. *)
Definition Add (h : Header) (key value : string) : Header :=
  let k := CanonicalMIMEHeaderKey key in
  <[k := default [] (h !! k) ++ [value]]> h.

(** [Header.Set]: the canonical key gets the single value. *)
Definition Set_ (h : Header) (key value : string) : Header :=
  <[CanonicalMIMEHeaderKey key := [value]]> h.

(** [Header.Del]. *)
Definition Del (h : Header) (key : string) : Header :=
  delete (CanonicalMIMEHeaderKey key) h.

(** [Header.Values]. *)
Definition Values (h : Header) (key : string) : list string :=
  default [] (h !! CanonicalMIMEHeaderKey key).

(** [Header.Get]: the first value, or the empty string. *)
Definition Get (h : Header) (key : string) : string :=
  match Values h key with
  | [] => ""
  | v :: _ => v
  end.

(** [url.URL], the fields in use. *)
Record URL : Type := {
  Scheme : string;
  UHost : string;
  Path : string;
  RawQuery : string;
}.

(** [http.Request]. [Body = None] is a nil body. The request's context is
    left out: nothing here reads it but the collaborators. *)
Record Request : Type := {
  Method : string;
  Url : URL;
  Hdr : Header;
  Body : option IO.Reader;
  Host : string;
}.

(** [http.Response], as far as a caller of [RoundTrip] looks at it here. *)
Record Response : Type := {
  RespStatusCode : Z;
  RespHeader : Header;
  RespBody : bytes;
}.

End Http.

(* ===================================================================== *)
(** ** internal/gateway: apigw.go and gateway.go *)
(* ===================================================================== *)

Module Gateway.

(** [events.APIGatewayProxyRequest], the fields in use. The two maps are
    listed in the order in which [range] visits them on the call at hand
    (Go leaves that order open); their keys are distinct. *)
Record APIGatewayProxyRequest : Type := {
  HTTPMethod : string;
  Path : string;
  Headers : list (string * string);
  QueryStringParameters : list (string * string);
  Body : string;
  IsBase64Encoded : bool;
}.

(** [events.APIGatewayProxyResponse]. A map field is [None] when it is nil. *)
Record APIGatewayProxyResponse : Type := {
  StatusCode : Z;
  RespHeaders : option (gmap string string);
  MultiValueHeaders : option Http.Header;
  RespBody : string;
  RespIsBase64Encoded : bool;
}.

(** The entries of a map field, a nil map having none. *)
Definition entries {V} (m : option (gmap string V)) : gmap string V := default ∅ m.

(** [requestBody]: the event's body string as a byte stream, behind a
    base64 decoder when the event says the body is base64. *)
Definition requestBody (r : APIGatewayProxyRequest) : IO.Reader :=
  let reader := IO.strings_NewReader (Body r) in
  if IsBase64Encoded r
  then IO.NopCloser (IO.base64_NewDecoder reader)
  else IO.NopCloser reader.

(** [strings.TrimSuffix(host, ":")], which is what [removeEmptyPort] comes to:
    a host that ends in a colon has its last colon after any bracket. *)
Definition removeEmptyPort (host : string) : string :=
  match rev (bytes_of_string host) with
  | c :: rest => if Byte.eqb c x3a then string_of_bytes (rev rest) else host
  | [] => host
  end.

(** The recorder: [writer] with its three fields. *)
Record writer : Type := {
  code : Z;
  head : Http.Header;
  wbuf : bytes;
}.

(** [NewHttpResponse]: no status yet, an empty header map, an empty buffer. *)
Definition NewHttpResponse : writer := {| code := 0; head := ∅; wbuf := [] |}.

Definition WriteHeader (w : writer) (statusCode : Z) : writer :=
  {| code := statusCode; head := head w; wbuf := wbuf w |}.

Definition Write (w : writer) (b : bytes) : writer :=
  {| code := code w; head := head w; wbuf := wbuf w ++ b |}.

Definition Header (w : writer) : Http.Header := head w.

(** [Value]: status 200 unless a status other than 0 is recorded. *)
Definition Value (w : writer) : APIGatewayProxyResponse :=
  let code := if code w =? 0 then 200 else code w in
  {| StatusCode := code;
     RespHeaders := None;
     MultiValueHeaders := Some (head w);
     RespBody := string_of_bytes (wbuf w);
     RespIsBase64Encoded := false |}.

(** What a handler does to the [http.ResponseWriter] it is given: it sets the
    status, writes body bytes, and changes the map that [Header()] hands out. *)
Inductive call : Type :=
| CallWriteHeader (statusCode : Z)
| CallWrite (b : bytes)
| CallHeaderAdd (key value : string)
| CallHeaderSet (key value : string)
| CallHeaderDel (key : string).

Definition with_head (w : writer) (h : Http.Header) : writer :=
  {| code := code w; head := h; wbuf := wbuf w |}.

Definition apply_call (w : writer) (c : call) : writer :=
  match c with
  | CallWriteHeader statusCode => WriteHeader w statusCode
  | CallWrite b => Write w b
  | CallHeaderAdd k v => with_head w (Http.Add (Header w) k v)
  | CallHeaderSet k v => with_head w (Http.Set_ (Header w) k v)
  | CallHeaderDel k => with_head w (Http.Del (Header w) k)
  end.

Definition apply_calls (w : writer) (cs : list call) : writer := fold_left apply_call cs w.

(** Read off a sequence of calls: the statuses set, the bytes written, and
    the values a header key ends up with (appended by Add, replaced by Set,
    dropped by Del), starting from [acc]. *)
Definition set_statuses (cs : list call) : list Z :=
  omap (fun c => match c with CallWriteHeader s => Some s | _ => None end) cs.

Definition written_bytes (cs : list call) : bytes :=
  concat (omap (fun c => match c with CallWrite b => Some b | _ => None end) cs).

Fixpoint recorded_values (key : string) (cs : list call) (acc : list string) : list string :=
  match cs with
  | [] => acc
  | CallHeaderAdd k v :: cs' =>
      recorded_values key cs'
        (if decide (Http.CanonicalMIMEHeaderKey k = key) then acc ++ [v] else acc)
  | CallHeaderSet k v :: cs' =>
      recorded_values key cs'
        (if decide (Http.CanonicalMIMEHeaderKey k = key) then [v] else acc)
  | CallHeaderDel k :: cs' =>
      recorded_values key cs'
        (if decide (Http.CanonicalMIMEHeaderKey k = key) then [] else acc)
  | _ :: cs' => recorded_values key cs' acc
  end.

(** A header map never holds a key with no values: the three header calls
    keep it so, and it is what makes "no values" and "no key" the same. *)
Definition some_values (vs : list string) : option (list string) :=
  match vs with
  | [] => None
  | _ => Some vs
  end.

(** The status the recorder is said to finalize with: 200 when no status was
    set, the most recently set one otherwise. *)
Definition claimed_status (cs : list call) : Z := default 200 (last (set_statuses cs)).

(** The status it finalizes with: as claimed, but a recorded 0 counts as no
    status. *)
Definition finalized_status (cs : list call) : Z :=
  match last (set_statuses cs) with
  | Some s => if s =? 0 then 200 else s
  | None => 200
  end.

(** The control plane, [Controller]: for a request, the calls its [ServeHTTP]
    makes on the response writer, in order. *)
Class Controller (C : Type) : Type :=
  ServeHTTP : C -> Http.Request -> list call.

(** [Gateway]. *)
Record Gateway (C : Type) : Type := { ctrl : C }.
Arguments ctrl {C} _.

Definition New {C} (c : C) : Gateway C := {| ctrl := c |}.

Section Serve.

(** The decoded JSON-RPC message and [jsonrpc.DecodeMessage]. *)
Variable Msg : Type.
Variable DecodeMessage : bytes -> result Msg.

(** [url.Parse], [URL.Query] (the parsed [RawQuery]) and [Values.Encode]. *)
Variable url_Parse : string -> result Http.URL.
Variable url_ParseQuery : string -> gmap string (list string).
Variable url_Encode : gmap string (list string) -> string.

Context {C : Type} `{Controller C}.

(** The calls [Serve] makes to the outside. *)
Inductive event : Type :=
| EvDecodeMessage (body : bytes)
| EvSlogError (msg : string) (err : error)
| EvSlogDebug (msg : string) (m : Msg)
| EvServeHTTP (input : Http.Request).

(** The requests the handler was invoked with, read off a trace, and the
    bodies handed to the decoder. *)
Definition handler_calls (t : list event) : list Http.Request :=
  omap (fun e => match e with EvServeHTTP input => Some input | _ => None end) t.

Definition decoder_calls (t : list event) : list bytes :=
  omap (fun e => match e with EvDecodeMessage b => Some b | _ => None end) t.

(** [http.NewRequestWithContext] (the context is not nil: it is the one of
    the invocation). An empty method means GET; the method must be a token;
    the target must parse. *)
Definition NewRequestWithContext (method url : string) (body : IO.Reader)
  : result Http.Request :=
  let method := if String.eqb method "" then "GET" else method in
  if negb (Http.validMethod method) then Err (ErrInvalidMethod method)
  else
    match url_Parse url with
    | Err e => Err e
    | Ok u =>
        let u := {| Http.Scheme := Http.Scheme u;
                    Http.UHost := removeEmptyPort (Http.UHost u);
                    Http.Path := Http.Path u;
                    Http.RawQuery := Http.RawQuery u |} in
        Ok {| Http.Method := method;
              Http.Url := u;
              Http.Hdr := ∅;
              Http.Body := Some body;
              Http.Host := Http.UHost u |}
    end.

(** [Values.Add]: append to the values of the key as it is written. *)
Definition Values_Add (q : gmap string (list string)) (key value : string)
  : gmap string (list string) :=
  <[key := default [] (q !! key) ++ [value]]> q.

(** [NewHttpRequest]. *)
Definition NewHttpRequest (r : APIGatewayProxyRequest) : result Http.Request :=
  match NewRequestWithContext (HTTPMethod r) (Path r) (requestBody r) with
  | Err e => Err e
  | Ok req =>
      let hdr := fold_left (fun h kv => Http.Set_ h (fst kv) (snd kv))
                           (Headers r) (Http.Hdr req) in
      let q := fold_left (fun q kv => Values_Add q (fst kv) (snd kv))
                         (QueryStringParameters r)
                         (url_ParseQuery (Http.RawQuery (Http.Url req))) in
      let u := Http.Url req in
      Ok {| Http.Method := Http.Method req;
            Http.Url := {| Http.Scheme := Http.Scheme u;
                           Http.UHost := Http.UHost u;
                           Http.Path := Http.Path u;
                           Http.RawQuery := url_Encode q |};
            Http.Hdr := hdr;
            Http.Body := Http.Body req;
            Http.Host := Http.Host req |}
  end.

(** [Gateway.serveCtrl]. *)
Definition serveCtrl (gw : Gateway C) (req : APIGatewayProxyRequest)
  : M event (result APIGatewayProxyResponse) :=
  match NewHttpRequest req with
  | Err err =>
      emit (EvSlogError "bad http request" err);;
      mret (Err err)
  | Ok input =>
      let reply := NewHttpResponse in
      emit (EvServeHTTP input);;
      let reply := apply_calls reply (ServeHTTP (ctrl gw) input) in
      mret (Ok (Value reply))
  end.

(** [Gateway.Serve]. *)
Definition Serve (gw : Gateway C) (req : APIGatewayProxyRequest)
  : M event (result APIGatewayProxyResponse) :=
  if String.eqb (HTTPMethod req) "GET" then
    mret (Ok {| StatusCode := 405;
                RespHeaders := None;
                MultiValueHeaders := None;
                RespBody := "";
                RespIsBase64Encoded := false |})
  else if (length (bytes_of_string (Body req)) =? 0)%nat then
    serveCtrl gw req
  else
    emit (EvDecodeMessage (bytes_of_string (Body req)));;
    match DecodeMessage (bytes_of_string (Body req)) with
    | Err err =>
        emit (EvSlogError "bad json-rpc message" err);;
        mret (Err err)
    | Ok msg =>
        emit (EvSlogDebug "received json-rpc message" msg);;
        serveCtrl gw req
    end.

End Serve.

End Gateway.

(* ===================================================================== *)
(** ** pkg/auth: the shared-secret and the signed-request transport *)
(* ===================================================================== *)

Module Auth.

(** [aws.Config] (region and credentials provider) and the providers
    [NewTransportIAM] builds: the ambient one a configuration comes with, and
    [aws.NewCredentialsCache(stscreds.NewAssumeRoleProvider(sts.NewFromConfig(c),
    role, ...))], the external id being set only when it is not empty. *)
Inductive aws_Config : Type :=
| mkConfig (region : string) (credentials : CredentialsProvider)
with CredentialsProvider : Type :=
| Ambient (name : string)
| AssumeRoleCache (client : aws_Config) (roleARN : string) (externalID : option string).

Definition Region (c : aws_Config) : string :=
  match c with mkConfig r _ => r end.
Definition Credentials (c : aws_Config) : CredentialsProvider :=
  match c with mkConfig _ p => p end.

(** [aws.Credentials]. *)
Record aws_Credentials : Type := {
  AccessKeyID : string;
  SecretAccessKey : string;
  SessionToken : string;
}.

(** [http.RoundTripper] values in play: the two transports of this package,
    each around an inner one, [http.DefaultTransport], and a transport the
    caller brings. [v4.NewSigner()] carries no state and is left out of
    [iamTransport]. *)
Inductive RoundTripper : Type :=
| DefaultTransport
| CallerTransport (name : string)
| apikeyTransport (digest : string) (socket : RoundTripper)
| iamTransport (config : aws_Config) (socket : RoundTripper).

(** [http.Client]: its transport ([None] is nil) and, standing for the
    fields this package leaves alone, its timeout. *)
Record http_Client : Type := {
  Transport : option RoundTripper;
  Timeout : Z;
}.

(** [mcp.StreamableClientTransport]. *)
Record StreamableClientTransport : Type := {
  Endpoint : string;
  HTTPClient : option http_Client;
}.

Module ConfigApiKey.
Record t : Type := {
  Url : string;
  Access : string;
  Secret : string;
  Client : option http_Client;
}.
End ConfigApiKey.

Module ConfigIAM.
Record t : Type := {
  Url : string;
  Role : string;
  ExternalID : string;
  Config : option aws_Config;
  Client : option http_Client;
}.
End ConfigIAM.

(** The inner transport and the client both constructors end with: the
    caller's transport when there is one, the default otherwise, and the
    caller's client (a fresh one when nil) with the new transport installed.
    A client is taken here by its content, and [install] gives the content
    of the caller's client as the constructor leaves it; that it is the
    caller's own client that is written to is said in [Shared] below, where
    clients sit in a store. *)
Definition inner_socket (client : option http_Client) : RoundTripper :=
  match client with
  | Some c => match Transport c with Some t => t | None => DefaultTransport end
  | None => DefaultTransport
  end.

Definition install (client : option http_Client) (sock : RoundTripper) : http_Client :=
  let c := match client with
           | None => {| Transport := None; Timeout := 0 |}
           | Some c => c
           end in
  {| Transport := Some sock; Timeout := Timeout c |}.

(** [NewTransportApiKey]. *)
Definition NewTransportApiKey (spec : ConfigApiKey.t) : result StreamableClientTransport :=
  if (length (bytes_of_string (ConfigApiKey.Url spec)) =? 0)%nat then Err ErrMissingURL
  else
    let digest := Base64.RawStdEncoding_EncodeToString
                    (bytes_of_string (ConfigApiKey.Access spec +:+ ":" +:+ ConfigApiKey.Secret spec)) in
    let sock := apikeyTransport digest (inner_socket (ConfigApiKey.Client spec)) in
    Ok {| Endpoint := ConfigApiKey.Url spec;
          HTTPClient := Some (install (ConfigApiKey.Client spec) sock) |}.

(** What [SignHTTP] writes into the request it signs: the header map (date,
    security token, authorization), the host and the raw query. *)
Record signed : Type := {
  sHdr : Http.Header;
  sHost : string;
  sRawQuery : string;
}.

Definition with_header (req : Http.Request) (h : Http.Header) : Http.Request :=
  {| Http.Method := Http.Method req; Http.Url := Http.Url req; Http.Hdr := h;
     Http.Body := Http.Body req; Http.Host := Http.Host req |}.

Definition with_body (req : Http.Request) (b : option IO.Reader) : Http.Request :=
  {| Http.Method := Http.Method req; Http.Url := Http.Url req; Http.Hdr := Http.Hdr req;
     Http.Body := b; Http.Host := Http.Host req |}.

Definition with_signed (req : Http.Request) (s : signed) : Http.Request :=
  let u := Http.Url req in
  {| Http.Method := Http.Method req;
     Http.Url := {| Http.Scheme := Http.Scheme u; Http.UHost := Http.UHost u;
                    Http.Path := Http.Path u; Http.RawQuery := sRawQuery s |};
     Http.Hdr := sHdr s;
     Http.Body := Http.Body req;
     Http.Host := sHost s |}.

(** The hash [RoundTrip] starts from: SHA-256 of no bytes, in hex. *)
Definition emptyHash : string :=
  "e3b0c44298fc1c149afbf4c8996fb92427ae41e4649b934ca495991b7852b855".

(** The calls the transports and [NewTransportIAM] make to the outside. *)
Inductive event : Type :=
| EvLoadDefaultConfig (provider : option CredentialsProvider)
| EvRetrieve (provider : CredentialsProvider)
| EvBodyClose
| EvSignHTTP (credential : aws_Credentials) (req : Http.Request)
             (payloadHash service region : string) (signingTime : Z)
| EvSocketRoundTrip (socket : RoundTripper) (req : Http.Request).

(** The calls to an inner transport, and the hashes handed to the signer,
    read off a trace. *)
Definition socket_calls (t : list event) : list (RoundTripper * Http.Request) :=
  omap (fun e => match e with EvSocketRoundTrip s r => Some (s, r) | _ => None end) t.

Definition signed_hashes (t : list event) : list string :=
  omap (fun e => match e with EvSignHTTP _ _ h _ _ _ => Some h | _ => None end) t.

Section Transports.

(** [config.LoadDefaultConfig], with the credentials provider it is asked to
    use, if any. *)
Variable LoadDefaultConfig : option CredentialsProvider -> result aws_Config.

(** [Credentials.Retrieve] on this call. *)
Variable Retrieve : CredentialsProvider -> result aws_Credentials.

(** [Signer.SignHTTP] on this call, and [time.Now()]. *)
Variable SignHTTP :
  aws_Credentials -> Http.Request -> string -> string -> string -> Z -> result signed.
Variable Now : Z.

(** [RoundTrip] of the transports this package does not own. *)
Variable send : RoundTripper -> Http.Request -> result Http.Response.

(** [NewTransportIAM]. *)
Definition NewTransportIAM (spec : ConfigIAM.t) : M event (result StreamableClientTransport) :=
  if (length (bytes_of_string (ConfigIAM.Url spec)) =? 0)%nat then mret (Err ErrMissingURL)
  else
    conf ← match ConfigIAM.Config spec with
            | None => emit (EvLoadDefaultConfig None);; mret (LoadDefaultConfig None)
            | Some c => mret (Ok c)
            end;
    match conf with
    | Err err => mret (Err err)
    | Ok conf =>
        conf ← (if negb (String.eqb (ConfigIAM.Role spec) "") then
                   let provider :=
                     AssumeRoleCache conf (ConfigIAM.Role spec)
                       (if negb (String.eqb (ConfigIAM.ExternalID spec) "")
                        then Some (ConfigIAM.ExternalID spec) else None) in
                   emit (EvLoadDefaultConfig (Some provider));;
                   mret (LoadDefaultConfig (Some provider))
                 else mret (Ok conf));
        match conf with
        | Err err => mret (Err err)
        | Ok conf =>
            let sock := iamTransport conf (inner_socket (ConfigIAM.Client spec)) in
            mret (Ok {| Endpoint := ConfigIAM.Url spec;
                        HTTPClient := Some (install (ConfigIAM.Client spec) sock) |})
        end
    end.

(** The copy in the body step of [iamTransport.RoundTrip]: the body goes
    into a buffer through a tee into the hasher. The result is the error of
    the copy, or the buffer and the hex digest; with it comes the request as
    the copy leaves it, which is the caller's request holding the same
    reader, now read. *)
Definition copy_body (req : Http.Request) (body : IO.Reader)
  : result (bytes * string) * Http.Request :=
  let '(buf, hasher, err, rest) := IO.Copy_Tee body [] SHA256.New in
  let req := {| Http.Method := Http.Method req; Http.Url := Http.Url req;
                Http.Hdr := Http.Hdr req; Http.Body := Some rest;
                Http.Host := Http.Host req |} in
  match err with
  | Some err => (Err err, req)
  | None => (Ok (buf, Hex.EncodeToString (SHA256.Sum hasher)), req)
  end.

(** The body step of [iamTransport.RoundTrip]: with a body, copy it, close it
    and put the buffer in its place; without one, keep the hash of no
    bytes. *)
Definition rebuffer (req : Http.Request) : M event (result (string * Http.Request)) :=
  let hash := emptyHash in
  match Http.Body req with
  | None => mret (Ok (hash, req))
  | Some body =>
      match copy_body req body with
      | (Err err, _) => mret (Err err)
      | (Ok (buf, hash), req) =>
          emit EvBodyClose;;
          mret (Ok (hash, with_body req (Some (IO.NopCloser (IO.bytes_Reader buf)))))
      end
  end.

(** [apikeyTransport.RoundTrip] and [iamTransport.RoundTrip]; a transport of
    somebody else answers as [send] says. *)
Fixpoint RoundTrip (rt : RoundTripper) (req : Http.Request) : M event (result Http.Response) :=
  match rt with
  | DefaultTransport | CallerTransport _ => mret (send rt req)
  | apikeyTransport digest socket =>
      let req := with_header req (Http.Add (Http.Hdr req) "Authorization" ("Basic " +:+ digest)) in
      emit (EvSocketRoundTrip socket req);;
      RoundTrip socket req
  | iamTransport config socket =>
      emit (EvRetrieve (Credentials config));;
      match Retrieve (Credentials config) with
      | Err err => mret (Err err)
      | Ok credential =>
          r ← rebuffer req;
          match r with
          | Err err => mret (Err err)
          | Ok (hash, req) =>
              emit (EvSignHTTP credential req hash "execute-api" (Region config) Now);;
              match SignHTTP credential req hash "execute-api" (Region config) Now with
              | Err err => mret (Err err)
              | Ok s =>
                  let req := with_signed req s in
                  emit (EvSocketRoundTrip socket req);;
                  RoundTrip socket req
              end
          end
      end
  end.

End Transports.

End Auth.

(* ===================================================================== *)
(** ** Stand-ins for the collaborators, for the worked instances below *)
(* ===================================================================== *)

Module Fixture.

(** A decoder that takes a body opening with a brace for a message and
    refuses anything else. *)
Definition DecodeMessage (b : bytes) : result string :=
  match b with
  | x7b :: _ => Ok (string_of_bytes b)
  | _ => Err (ErrExternal "invalid character looking for beginning of value")
  end.

(** A parser that takes the target for a path. *)
Definition url_Parse (s : string) : result Http.URL :=
  Ok {| Http.Scheme := ""; Http.UHost := ""; Http.Path := s; Http.RawQuery := "" |}.

Definition url_ParseQuery (_ : string) : gmap string (list string) := ∅.
Definition url_Encode (_ : gmap string (list string)) : string := "".

(** Handlers given as functions, as [http.HandlerFunc] does. *)
#[global] Instance HandlerFunc : Gateway.Controller (Http.Request -> list Gateway.call) :=
  fun h req => h req.

(** A handler that answers 200 with the body it read. *)
Definition echo (req : Http.Request) : list Gateway.call :=
  [Gateway.CallHeaderSet "content-type" "application/json";
   Gateway.CallWriteHeader 200;
   Gateway.CallWrite (match Http.Body req with
                      | Some rd => fst (IO.ReadAll rd)
                      | None => []
                      end)].

Definition post (body : string) (b64 : bool) : Gateway.APIGatewayProxyRequest :=
  {| Gateway.HTTPMethod := "POST";
     Gateway.Path := "/mcp";
     Gateway.Headers := [("content-type", "application/json")];
     Gateway.QueryStringParameters := [];
     Gateway.Body := body;
     Gateway.IsBase64Encoded := b64 |}.

(** A JSON-RPC request, spelled without quotation marks inside a literal. *)
Definition ping : string :=
  let q := String (ascii_of_nat 34) "" in
  "{" +:+ q +:+ "jsonrpc" +:+ q +:+ ":" +:+ q +:+ "2.0" +:+ q +:+ ","
      +:+ q +:+ "id" +:+ q +:+ ":1,"
      +:+ q +:+ "method" +:+ q +:+ ":" +:+ q +:+ "ping" +:+ q +:+ "}".

(** Credentials, signer and network that always answer. *)
Definition creds : Auth.aws_Credentials :=
  {| Auth.AccessKeyID := "AKIDEXAMPLE"; Auth.SecretAccessKey := "k"; Auth.SessionToken := "" |}.

Definition Retrieve (_ : Auth.CredentialsProvider) : result Auth.aws_Credentials := Ok creds.

Definition SignHTTP (c : Auth.aws_Credentials) (req : Http.Request)
    (hash service region : string) (t : Z) : result Auth.signed :=
  Ok {| Auth.sHdr := Http.Set_ (Http.Set_ (Http.Hdr req) "X-Amz-Date" "20250101T000000Z")
                       "Authorization" ("AWS4-HMAC-SHA256 " +:+ hash);
        Auth.sHost := Http.Host req;
        Auth.sRawQuery := Http.RawQuery (Http.Url req) |}.

Definition send (_ : Auth.RoundTripper) (_ : Http.Request) : result Http.Response :=
  Ok {| Http.RespStatusCode := 200; Http.RespHeader := ∅; Http.RespBody := [] |}.

Definition LoadDefaultConfig (p : option Auth.CredentialsProvider) : result Auth.aws_Config :=
  Ok (Auth.mkConfig "eu-west-1" (default (Auth.Ambient "default") p)).

Definition outbound (body : option IO.Reader) (h : Http.Header) : Http.Request :=
  {| Http.Method := "POST";
     Http.Url := {| Http.Scheme := "https"; Http.UHost := "example.com";
                    Http.Path := "/mcp"; Http.RawQuery := "" |};
     Http.Hdr := h;
     Http.Body := body;
     Http.Host := "example.com" |}.

End Fixture.

(* ===================================================================== *)
(** ** What a built request holds, read off the event *)
(* ===================================================================== *)

Module Observed.

(** The value a fold of [Header.Set] over the event's headers leaves under a
    canonical key: that of the last header whose name canonicalises to it. *)
Fixpoint last_header (key : string) (hs : list (string * string)) (acc : option string)
  : option string :=
  match hs with
  | [] => acc
  | kv :: hs' =>
      last_header key hs'
        (if decide (Http.CanonicalMIMEHeaderKey (fst kv) = key) then Some (snd kv) else acc)
  end.

(** The values a fold of [Values.Add] over the event's query parameters
    leaves under a key, after the ones in [acc]. *)
Fixpoint query_values (key : string) (qs : list (string * string)) (acc : list string)
  : list string :=
  match qs with
  | [] => acc
  | kv :: qs' =>
      query_values key qs' (if decide (fst kv = key) then acc ++ [snd kv] else acc)
  end.

(** The query map [NewHttpRequest] encodes: the parsed query of the target
    with the event's parameters added. *)
Definition query_map (url_ParseQuery : string -> gmap string (list string))
    (u : Http.URL) (qs : list (string * string)) : gmap string (list string) :=
  fold_left (fun q kv => Gateway.Values_Add q (fst kv) (snd kv)) qs
            (url_ParseQuery (Http.RawQuery u)).

(** The digest a constructed shared-secret transport holds, and the
    configuration a constructed signed-request transport holds. *)
Definition digest_of (t : Auth.StreamableClientTransport) : option string :=
  match Auth.HTTPClient t with
  | Some c => match Auth.Transport c with
              | Some (Auth.apikeyTransport digest _) => Some digest
              | _ => None
              end
  | None => None
  end.

Definition round_tripper_of (t : Auth.StreamableClientTransport) : option Auth.RoundTripper :=
  match Auth.HTTPClient t with
  | Some c => Auth.Transport c
  | None => None
  end.

(** A string without a colon. *)
Definition colon_free (s : string) : Prop := x3a ∉ bytes_of_string s.

(** A reader read to its end or to its error: what it serves from then on. *)
Fixpoint drained (r : IO.Reader) : IO.Reader :=
  match r with
  | IO.RData _ next => drained next
  | _ => r
  end.

(** The closes of the request body in a trace. *)
Definition body_closes (t : list Auth.event) : nat :=
  length (omap (fun e => match e with Auth.EvBodyClose => Some tt | _ => None end) t).

(** The configuration a constructed signed-request transport holds, and the
    providers a trace shows configurations were loaded with. *)
Definition config_of (t : Auth.StreamableClientTransport) : option Auth.aws_Config :=
  match round_tripper_of t with
  | Some (Auth.iamTransport config _) => Some config
  | _ => None
  end.

Definition assume_role_loads (t : list Auth.event) : list Auth.CredentialsProvider :=
  omap (fun e => match e with Auth.EvLoadDefaultConfig (Some p) => Some p | _ => None end) t.

End Observed.

(* ===================================================================== *)
(** ** The deployment builder: names read off the server factory *)
(* ===================================================================== *)

Module Builder.

(** A call that returns or panics. *)
Inductive outcome (A : Type) : Type :=
| Returns (a : A)
| Panics (msg : string).
Arguments Returns {A} a.
Arguments Panics {A} msg.

Definition slash : byte := x2f.
Definition dot : byte := x2e.

(** [filepath.Ext] on the reversed path: walking back from the end, the
    first dot met before any separator starts the extension; [acc] holds
    the bytes passed so far. *)
Fixpoint ext_rev (rpath acc : bytes) : bytes :=
  match rpath with
  | [] => []
  | c :: rest =>
      if Byte.eqb c slash then []
      else if Byte.eqb c dot then dot :: acc
      else ext_rev rest (c :: acc)
  end.

(** [filepath.Ext]: the suffix from the last dot of the last element of the
    path, empty when that element has no dot. *)
Definition Ext (path : string) : string :=
  string_of_bytes (ext_rev (rev (bytes_of_string path)) []).

(** [strings.HasSuffix] and [strings.TrimSuffix]. *)
Definition HasSuffix (s suffix : string) : bool :=
  let b := bytes_of_string s in
  let n := length (bytes_of_string suffix) in
  (n <=? length b)%nat && String.eqb (string_of_bytes (drop (length b - n) b)) suffix.

Definition TrimSuffix (s suffix : string) : string :=
  if HasSuffix s suffix
  then let b := bytes_of_string s in
       string_of_bytes (take (length b - length (bytes_of_string suffix)) b)
  else s.

(** [strings.Split(s, "/")]: the pieces between the slashes, one piece (the
    empty one) for the empty string. *)
Fixpoint split_bytes (s : bytes) : list bytes :=
  match s with
  | [] => [[]]
  | c :: rest =>
      if Byte.eqb c slash then [] :: split_bytes rest
      else match split_bytes rest with
           | seg :: segs => (c :: seg) :: segs
           | [] => [[c]]
           end
  end.

Definition Split (s : string) : list string :=
  map string_of_bytes (split_bytes (bytes_of_string s)).

(** [strings.Join(elems, "/")]. *)
Fixpoint Join (elems : list string) : string :=
  match elems with
  | [] => ""
  | [s] => s
  | s :: rest => s +:+ "/" +:+ Join rest
  end.

(** [servername]: the name of the factory function, as the runtime spells
    it ([None] when the runtime knows no function for it), cut down to what
    follows its last dot. Slicing the empty extension from 1 panics. *)
Definition servername (fobj_name : option string) : outcome string :=
  match fobj_name with
  | None => Panics "failed to discover function metadata"
  | Some name =>
      match bytes_of_string (Ext name) with
      | [] => Panics "slice bounds out of range [1:0]"
      | _ :: serv => Returns (string_of_bytes serv)
      end
  end.

Section SourceCode.

(** [os.Getenv], [os.Stat] (whether it returns no error) and
    [filepath.Join]. *)
Variable Getenv : string -> string.
Variable Stat : string -> bool.
Variable filepath_Join : list string -> string.

(** [rootSourceCode]. *)
Definition rootSourceCode (sourceCodeModule : string) : string :=
  let sourceCode := Getenv "GITHUB_WORKSPACE" in
  if String.eqb sourceCode ""
  then filepath_Join [Getenv "GOPATH"; "src"; sourceCodeModule]
  else sourceCode.

(** The loop of [sourcecode]: [probe segs k] tries the indices [k - 1] down
    to 0. *)
Fixpoint probe (path : string) (segs : list string) (k : nat) : outcome (string * string) :=
  match k with
  | O => Panics ("failed to go.mod for function " +:+ path)
  | S i =>
      let subpath := Join (take i segs) in
      let gomod := filepath_Join [subpath; "go.mod"] in
      if Stat (rootSourceCode gomod)
      then Returns (subpath, Join (drop i segs))
      else probe path segs i
  end.

(** [sourcecode]. *)
Definition sourcecode (fobj_name : option string) : outcome (string * string) :=
  match fobj_name with
  | None => Panics "failed to discover function metadata"
  | Some name =>
      let path := TrimSuffix name (Ext name) in
      let segs := Split path in
      probe path segs (length segs)
  end.

End SourceCode.

End Builder.

(* ===================================================================== *)
(** ** Clients behind pointers *)
(* ===================================================================== *)

Module Shared.

(** [NewTransportApiKey] takes the caller's [*http.Client], writes its
    transport into that client and returns a transport holding the same
    pointer, so whoever else holds the pointer sees the change. Here the
    clients sit in a store and a pointer is the place of its client there;
    a pointer in Go always leads to a client, and so do the pointers of the
    facts about this module. *)
Abbreviation store := (list Auth.http_Client).

Record ConfigApiKey : Type := {
  Url : string;
  Access : string;
  Secret : string;
  Client : option nat;
}.

(** The constructor never returns a transport without a client. *)
Record StreamableClientTransport : Type := {
  Endpoint : string;
  HTTPClient : nat;
}.

Definition pointee (h : store) (p : option nat) : option Auth.http_Client :=
  p ≫= fun p => h !! p.

(** [NewTransportApiKey] on a store: the digest and the inner transport as
    before, a new client at the end of the store when the caller brings
    none, and the transport field of the client assigned in place. *)
Definition NewTransportApiKey (spec : ConfigApiKey) (h : store)
  : result StreamableClientTransport * store :=
  if (length (bytes_of_string (Url spec)) =? 0)%nat then (Err ErrMissingURL, h)
  else
    let digest := Base64.RawStdEncoding_EncodeToString
                    (bytes_of_string (Access spec +:+ ":" +:+ Secret spec)) in
    let sock := Auth.apikeyTransport digest (Auth.inner_socket (pointee h (Client spec))) in
    let '(p, h) := match Client spec with
                   | None => (length h, h ++ [{| Auth.Transport := None; Auth.Timeout := 0 |}])
                   | Some p => (p, h)
                   end in
    (Ok {| Endpoint := Url spec; HTTPClient := p |},
     alter (fun c => {| Auth.Transport := Some sock; Auth.Timeout := Auth.Timeout c |}) p h).

(** The digest the client of a transport holds in a store, and the
    configuration and the transport with the clients the pointers lead to
    in a store. *)
Definition digest_at (h : store) (t : StreamableClientTransport) : option string :=
  c ← h !! HTTPClient t;
  match Auth.Transport c with
  | Some (Auth.apikeyTransport digest _) => Some digest
  | _ => None
  end.

Definition spec_in (h : store) (spec : ConfigApiKey) : Auth.ConfigApiKey.t :=
  {| Auth.ConfigApiKey.Url := Url spec;
     Auth.ConfigApiKey.Access := Access spec;
     Auth.ConfigApiKey.Secret := Secret spec;
     Auth.ConfigApiKey.Client := pointee h (Client spec) |}.

Definition transport_in (h : store) (t : StreamableClientTransport)
  : Auth.StreamableClientTransport :=
  {| Auth.Endpoint := Endpoint t; Auth.HTTPClient := h !! HTTPClient t |}.

End Shared.

(* ===================================================================== *)
(** ** More stand-ins, for the worked instances of the later facts *)
(* ===================================================================== *)

Module Sample.

Definition event (method body : string) (b64 : bool) (hdrs qs : list (string * string))
  : Gateway.APIGatewayProxyRequest :=
  {| Gateway.HTTPMethod := method;
     Gateway.Path := "/mcp";
     Gateway.Headers := hdrs;
     Gateway.QueryStringParameters := qs;
     Gateway.Body := body;
     Gateway.IsBase64Encoded := b64 |}.

(** The encoding of "Hello" broken over two lines by a carriage return and a
    line feed. *)
Definition wrapped_hello : string :=
  "SGVs" +:+ String (ascii_of_nat 13) (String (ascii_of_nat 10) "bG8=").

Definition apikey (access secret : string) (client : option Auth.http_Client)
  : Auth.ConfigApiKey.t :=
  {| Auth.ConfigApiKey.Url := "https://example.com/mcp";
     Auth.ConfigApiKey.Access := access;
     Auth.ConfigApiKey.Secret := secret;
     Auth.ConfigApiKey.Client := client |}.

Definition iam (role ext : string) (config : option Auth.aws_Config) : Auth.ConfigIAM.t :=
  {| Auth.ConfigIAM.Url := "https://example.com/mcp";
     Auth.ConfigIAM.Role := role;
     Auth.ConfigIAM.ExternalID := ext;
     Auth.ConfigIAM.Config := config;
     Auth.ConfigIAM.Client := None |}.

(** A shared-secret configuration with its client behind a pointer, and the
    client the first construction leaves in the store. *)
Definition shared (a s : string) (c : option nat) : Shared.ConfigApiKey :=
  {| Shared.Url := "https://example.com/mcp"; Shared.Access := a;
     Shared.Secret := s; Shared.Client := c |}.

Definition first_client : Auth.http_Client :=
  {| Auth.Transport := Some (Auth.apikeyTransport "YWNjZXNzOnNlY3JldA" Auth.DefaultTransport);
     Auth.Timeout := 0 |}.

(** A body that arrives in two reads. *)
Definition chunked_abc : IO.Reader :=
  IO.RData (bytes_of_string "ab") (IO.RData (bytes_of_string "c") IO.REOF).

(** A build on a CI runner: the workspace variable is set and the directory
    is there. *)
Definition Getenv (key : string) : string :=
  if String.eqb key "GITHUB_WORKSPACE" then "/home/runner/work/app" else "".

Definition Stat (path : string) : bool := String.eqb path "/home/runner/work/app".

Definition factory : string :=
  "github.com/fogfish/cloudmcp/examples/helloworld/server.HelloWorld".

End Sample.

(* ===================================================================== *)
(** * Facts *)
(* ===================================================================== *)

(** ** Strings, bytes and readers *)

Lemma bytes_of_string_length (s : string) :
  length (bytes_of_string s) = String.length s.
Proof.
  unfold bytes_of_string, list_byte_of_string.
  induction s as [|c s IH]; simpl; [reflexivity | now rewrite IH].
Qed.

Lemma bytes_of_string_empty (s : string) :
  (length (bytes_of_string s) =? 0)%nat = true <-> s = "".
Proof.
  rewrite bytes_of_string_length, Nat.eqb_eq.
  destruct s; simpl; split; intros Hs; try reflexivity; discriminate.
Qed.

Lemma bytes_of_string_nonempty (s : string) :
  s <> "" -> (length (bytes_of_string s) =? 0)%nat = false.
Proof.
  intros Hs. apply not_true_is_false. intros Hl.
  now apply Hs, bytes_of_string_empty.
Qed.

Lemma ReadAll_bytes_Reader (b : bytes) :
  IO.ReadAll (IO.bytes_Reader b) = (b, None).
Proof.
  destruct b as [|x b]; simpl; [reflexivity|].
  now rewrite app_nil_r.
Qed.

Lemma ReadAll_strings_NewReader (s : string) :
  IO.ReadAll (IO.strings_NewReader s) = (bytes_of_string s, None).
Proof. apply ReadAll_bytes_Reader. Qed.

(** The tee copy hands the same bytes to the buffer and to the hasher, and
    they are the bytes a plain read of the stream gives. *)
Lemma Copy_Tee_ReadAll (src : IO.Reader) (buf : bytes) (h : SHA256.digest) :
  IO.Copy_Tee src buf h
  = (buf ++ fst (IO.ReadAll src),
     {| SHA256.written := SHA256.written h ++ fst (IO.ReadAll src) |},
     snd (IO.ReadAll src),
     Observed.drained src).
Proof.
  revert buf h.
  induction src as [|e|p next IH]; intros buf h; simpl.
  - rewrite !app_nil_r. now destruct h.
  - rewrite !app_nil_r. now destruct h.
  - rewrite IH. destruct (IO.ReadAll next) as [rest e]. simpl.
    now rewrite <- !app_assoc.
Qed.

(** ** Base64: decoding what was encoded *)

Lemma byte_to_Z_bounds (b : byte) : 0 <= byte_to_Z b < 256.
Proof.
  unfold byte_to_Z. pose proof (Byte.to_N_bounded b). lia.
Qed.

Lemma byte_of_Z_mod (z : Z) (b : byte) : z mod 256 = byte_to_Z b -> byte_of_Z z = b.
Proof.
  intros Hz. unfold byte_of_Z. rewrite Hz. unfold byte_to_Z.
  now rewrite N2Z.id, Byte.of_to_N.
Qed.

Lemma lor_disjoint_add (k y n : Z) :
  0 <= n -> 0 <= y < 2 ^ n -> Z.lor (k * 2 ^ n) y = k * 2 ^ n + y.
Proof.
  intros Hn Hy.
  assert (Hland : Z.land (k * 2 ^ n) y = 0).
  { apply Z.bits_inj'. intros m Hm.
    rewrite Z.land_spec, Z.bits_0.
    destruct (Z.lt_ge_cases m n) as [Hlt|Hge].
    - rewrite Z.mul_pow2_bits_low by assumption. reflexivity.
    - assert (Z.testbit y m = false) as ->; [|apply andb_false_r].
      destruct (Z.eq_dec y 0) as [->|Hy0]; [apply Z.bits_0|].
      apply Z.bits_above_log2; [lia|].
      apply Z.log2_lt_pow2; [lia|].
      eapply Z.lt_le_trans; [apply Hy|]. apply Z.pow_le_mono_r; lia. }
  pose proof (Z.add_lor_land (k * 2 ^ n) y) as H. rewrite Hland in H. lia.
Qed.

Lemma quantum_add (d0 d1 d2 d3 : Z) :
  0 <= d0 < 64 -> 0 <= d1 < 64 -> 0 <= d2 < 64 -> 0 <= d3 < 64 ->
  Base64.quantum d0 d1 d2 d3 = d0 * 262144 + d1 * 4096 + d2 * 64 + d3.
Proof.
  intros H0 H1 H2 H3. unfold Base64.quantum.
  rewrite !Z.shiftl_mul_pow2 by lia.
  rewrite (lor_disjoint_add d0 (d1 * 2 ^ 12) 18) by lia.
  replace (d0 * 2 ^ 18 + d1 * 2 ^ 12) with ((d0 * 64 + d1) * 2 ^ 12) by lia.
  rewrite (lor_disjoint_add _ (d2 * 2 ^ 6) 12) by lia.
  replace ((d0 * 64 + d1) * 2 ^ 12 + d2 * 2 ^ 6)
    with ((d0 * 4096 + d1 * 64 + d2) * 2 ^ 6) by lia.
  rewrite (lor_disjoint_add _ d3 6) by lia.
  lia.
Qed.

Lemma pack_add (a b c : Z) :
  0 <= a < 256 -> 0 <= b < 256 -> 0 <= c < 256 ->
  Z.lor (Z.lor (Z.shiftl a 16) (Z.shiftl b 8)) c = a * 65536 + b * 256 + c.
Proof.
  intros Ha Hb Hc.
  rewrite !Z.shiftl_mul_pow2 by lia.
  rewrite (lor_disjoint_add a (b * 2 ^ 8) 16) by lia.
  replace (a * 2 ^ 16 + b * 2 ^ 8) with ((a * 256 + b) * 2 ^ 8) by lia.
  rewrite (lor_disjoint_add _ c 8) by lia. lia.
Qed.

Lemma sextet (v k : Z) : 0 <= k -> Z.land (Z.shiftr v k) 63 = (v / 2 ^ k) mod 64.
Proof.
  intros Hk. rewrite Z.shiftr_div_pow2 by assumption.
  change 63 with (Z.ones 6). rewrite Z.land_ones by lia. reflexivity.
Qed.

Lemma sextet_low (v : Z) : Z.land v 63 = v mod 64.
Proof. change 63 with (Z.ones 6). rewrite Z.land_ones by lia. reflexivity. Qed.

Lemma sextet_range (v k : Z) : 0 <= k -> 0 <= Z.land (Z.shiftr v k) 63 < 64.
Proof. intros Hk. rewrite sextet by assumption. apply Z.mod_pos_bound. lia. Qed.

Lemma sextet_low_range (v : Z) : 0 <= Z.land v 63 < 64.
Proof. rewrite sextet_low. apply Z.mod_pos_bound. lia. Qed.

(** Every character of the alphabet decodes to its index, and is neither
    the padding nor a line break. *)
Lemma alphabet_checked :
  forallb (fun i => (Base64.decodeMap (Base64.encode_at i) =? i)
                    && Base64.in_alphabet (Base64.encode_at i)
                    && negb (Base64.is_pad (Base64.encode_at i))
                    && negb (IO.is_newline (Base64.encode_at i)))
          (map Z.of_nat (seq 0 64)) = true.
Proof. vm_compute. reflexivity. Qed.

Lemma alphabet_at (i : Z) :
  0 <= i < 64 ->
  Base64.decodeMap (Base64.encode_at i) = i
  /\ Base64.in_alphabet (Base64.encode_at i) = true
  /\ Base64.is_pad (Base64.encode_at i) = false
  /\ IO.is_newline (Base64.encode_at i) = false.
Proof.
  intros Hi.
  pose proof (proj1 (forallb_forall _ _) alphabet_checked i) as H.
  assert (Hin : In i (map Z.of_nat (seq 0 64))).
  { apply in_map_iff. exists (Z.to_nat i). split; [lia|]. apply in_seq. lia. }
  specialize (H Hin).
  apply andb_prop in H as [H H4]. apply andb_prop in H as [H H3].
  apply andb_prop in H as [H1 H2].
  apply Z.eqb_eq in H1. apply negb_true_iff in H3, H4. auto.
Qed.

Lemma quantum_bytes (A B C : Z) :
  0 <= A < 256 -> 0 <= B < 256 -> 0 <= C < 256 ->
  let v := Z.lor (Z.lor (Z.shiftl A 16) (Z.shiftl B 8)) C in
  let q := Base64.quantum (Z.land (Z.shiftr v 18) 63) (Z.land (Z.shiftr v 12) 63)
                          (Z.land (Z.shiftr v 6) 63) (Z.land v 63) in
  Z.shiftr q 16 mod 256 = A /\ Z.shiftr q 8 mod 256 = B /\ q mod 256 = C.
Proof.
  intros HA HB HC v q. subst q.
  rewrite quantum_add
    by first [apply sextet_range; lia | apply sextet_low_range].
  rewrite !sextet, sextet_low by lia. subst v. rewrite pack_add by assumption.
  rewrite !Z.shiftr_div_pow2 by lia.
  change (2 ^ 18) with 262144. change (2 ^ 16) with 65536.
  change (2 ^ 12) with 4096. change (2 ^ 8) with 256. change (2 ^ 6) with 64.
  repeat split; Z.div_mod_to_equations; lia.
Qed.

Lemma quantum_bytes2 (A B : Z) :
  0 <= A < 256 -> 0 <= B < 256 ->
  let v := Z.lor (Z.shiftl A 16) (Z.shiftl B 8) in
  let q := Base64.quantum (Z.land (Z.shiftr v 18) 63) (Z.land (Z.shiftr v 12) 63)
                          (Z.land (Z.shiftr v 6) 63) 0 in
  Z.shiftr q 16 mod 256 = A /\ Z.shiftr q 8 mod 256 = B.
Proof.
  intros HA HB v q. subst q.
  rewrite quantum_add by first [apply sextet_range; lia | lia].
  rewrite !sextet by lia. subst v.
  rewrite <- (Z.lor_0_r (Z.lor _ _)), pack_add by lia.
  rewrite !Z.shiftr_div_pow2 by lia.
  change (2 ^ 18) with 262144. change (2 ^ 16) with 65536.
  change (2 ^ 12) with 4096. change (2 ^ 8) with 256. change (2 ^ 6) with 64.
  split; Z.div_mod_to_equations; lia.
Qed.

Lemma quantum_bytes1 (A : Z) :
  0 <= A < 256 ->
  let v := Z.shiftl A 16 in
  let q := Base64.quantum (Z.land (Z.shiftr v 18) 63) (Z.land (Z.shiftr v 12) 63) 0 0 in
  Z.shiftr q 16 mod 256 = A.
Proof.
  intros HA v q. subst q.
  rewrite quantum_add by first [apply sextet_range; lia | lia].
  rewrite !sextet by lia. subst v.
  rewrite Z.shiftl_mul_pow2, !Z.shiftr_div_pow2 by lia.
  change (2 ^ 18) with 262144. change (2 ^ 16) with 65536.
  change (2 ^ 12) with 4096.
  Z.div_mod_to_equations; lia.
Qed.

(** Induction on a list three elements at a time. *)
Lemma list_ind3 {A} (P : list A -> Prop) :
  P [] -> (forall a, P [a]) -> (forall a b, P [a; b]) ->
  (forall a b c l, P l -> P (a :: b :: c :: l)) ->
  forall l, P l.
Proof.
  intros H0 H1 H2 H3 l.
  assert (H : P l /\ (forall a, P (a :: l)) /\ (forall a b, P (a :: b :: l))).
  { induction l as [|x l (IH0 & IH1 & IH2)]; [auto|].
    split; [apply IH1|]. split; [intros a; apply IH2|].
    intros a b. now apply H3. }
  apply H.
Qed.

Lemma pad_facts :
  Base64.in_alphabet Base64.StdPadding = false
  /\ Base64.is_pad Base64.StdPadding = true
  /\ IO.is_newline Base64.StdPadding = false.
Proof. repeat split. Qed.

Lemma Decode_Encode (bs : bytes) :
  Base64.Decode (Base64.Encode true bs) = (bs, None).
Proof.
  induction bs as [|a|a b|a b c l IH] using list_ind3.
  - reflexivity.
  - pose proof (byte_to_Z_bounds a) as Ha.
    cbn [Base64.Encode app].
    set (v := Z.shiftl (byte_to_Z a) 16).
    destruct (alphabet_at (Z.land (Z.shiftr v 18) 63)) as (D0 & I0 & _);
      [apply sextet_range; lia|].
    destruct (alphabet_at (Z.land (Z.shiftr v 12) 63)) as (D1 & I1 & _);
      [apply sextet_range; lia|].
    cbn [Base64.Decode]. rewrite I0, I1, D0, D1.
    destruct pad_facts as (P0 & P1 & _). rewrite P0, P1. cbn [andb].
    f_equal. f_equal. apply byte_of_Z_mod. now apply quantum_bytes1.
  - pose proof (byte_to_Z_bounds a) as Ha. pose proof (byte_to_Z_bounds b) as Hb.
    cbn [Base64.Encode app].
    set (v := Z.lor (Z.shiftl (byte_to_Z a) 16) (Z.shiftl (byte_to_Z b) 8)).
    destruct (alphabet_at (Z.land (Z.shiftr v 18) 63)) as (D0 & I0 & _);
      [apply sextet_range; lia|].
    destruct (alphabet_at (Z.land (Z.shiftr v 12) 63)) as (D1 & I1 & _);
      [apply sextet_range; lia|].
    destruct (alphabet_at (Z.land (Z.shiftr v 6) 63)) as (D2 & I2 & _);
      [apply sextet_range; lia|].
    cbn [Base64.Decode]. rewrite I0, I1, I2, D0, D1, D2.
    destruct pad_facts as (P0 & P1 & _). rewrite P0, P1. cbn [andb].
    destruct (quantum_bytes2 (byte_to_Z a) (byte_to_Z b) Ha Hb) as (Q0 & Q1).
    f_equal. f_equal; [|f_equal]; now apply byte_of_Z_mod.
  - pose proof (byte_to_Z_bounds a) as Ha. pose proof (byte_to_Z_bounds b) as Hb.
    pose proof (byte_to_Z_bounds c) as Hc.
    cbn [Base64.Encode].
    set (v := Z.lor (Z.lor (Z.shiftl (byte_to_Z a) 16) (Z.shiftl (byte_to_Z b) 8))
                    (byte_to_Z c)).
    destruct (alphabet_at (Z.land (Z.shiftr v 18) 63)) as (D0 & I0 & _);
      [apply sextet_range; lia|].
    destruct (alphabet_at (Z.land (Z.shiftr v 12) 63)) as (D1 & I1 & _);
      [apply sextet_range; lia|].
    destruct (alphabet_at (Z.land (Z.shiftr v 6) 63)) as (D2 & I2 & _);
      [apply sextet_range; lia|].
    destruct (alphabet_at (Z.land v 63)) as (D3 & I3 & _);
      [apply sextet_low_range|].
    cbn [Base64.Decode]. rewrite I0, I1, I2, I3, D0, D1, D2, D3, IH. cbn [andb].
    destruct (quantum_bytes (byte_to_Z a) (byte_to_Z b) (byte_to_Z c) Ha Hb Hc)
      as (Q0 & Q1 & Q2).
    f_equal. f_equal; [|f_equal; [|f_equal]]; now apply byte_of_Z_mod.
Qed.

Lemma Encode_shape (bs : bytes) :
  (exists k, length (Base64.Encode true bs) = (4 * k)%nat)
  /\ Forall (fun c => IO.is_newline c = false) (Base64.Encode true bs).
Proof.
  induction bs as [|a|a b|a b c l ([k Hk] & IH)] using list_ind3.
  - split; [exists 0%nat; reflexivity | constructor].
  - split; [exists 1%nat; reflexivity|]. cbn [Base64.Encode app].
    repeat constructor; apply alphabet_at, sextet_range; lia.
  - split; [exists 1%nat; reflexivity|]. cbn [Base64.Encode app].
    repeat constructor; apply alphabet_at, sextet_range; lia.
  - split.
    + exists (S k). cbn [Base64.Encode length]. rewrite Hk. lia.
    + cbn [Base64.Encode].
      repeat (constructor; [apply alphabet_at;
                            first [apply sextet_range; lia | apply sextet_low_range]|]).
      exact IH.
Qed.

Lemma filter_no_newline (l : bytes) :
  Forall (fun c => IO.is_newline c = false) l ->
  filter (fun c => negb (IO.is_newline c)) l = l.
Proof.
  induction 1 as [|c l Hc _ IH]; [reflexivity|].
  rewrite filter_cons_True by (rewrite Hc; exact I). now rewrite IH.
Qed.

Lemma decoder_of_encoded (bs : bytes) :
  IO.ReadAll (IO.base64_NewDecoder
                (IO.strings_NewReader (Base64.StdEncoding_EncodeToString bs)))
  = (bs, None).
Proof.
  unfold IO.base64_NewDecoder, IO.strings_NewReader, Base64.StdEncoding_EncodeToString,
    bytes_of_string, string_of_bytes.
  rewrite list_byte_of_string_of_list_byte.
  pose proof (Decode_Encode bs) as Hdec.
  destruct (Encode_shape bs) as ([k Hk] & Hnl).
  destruct (Base64.Encode true bs) as [|x enc] eqn:Henc.
  - simpl in Hdec. injection Hdec as <-. reflexivity.
  - unfold IO.bytes_Reader. cbn [IO.decoder app].
    rewrite (filter_no_newline _ Hnl).
    replace (length (x :: enc) / 4 * 4)%nat with (length (x :: enc))
      by (rewrite Hk, Nat.mul_comm, Nat.div_mul by lia; lia).
    rewrite firstn_all, drop_all, Hdec. cbn [IO.decoder IO.ReadAll].
    now rewrite app_nil_r.
Qed.

(** ** The gateway *)

Section GatewayFacts.

Variable Msg : Type.
Variable DecodeMessage : bytes -> result Msg.
Variable url_Parse : string -> result Http.URL.
Variable url_ParseQuery : string -> gmap string (list string).
Variable url_Encode : gmap string (list string) -> string.
Context {C : Type} `{Gateway.Controller C}.

Local Abbreviation Serve := (Gateway.Serve Msg DecodeMessage url_Parse url_ParseQuery url_Encode).
Local Abbreviation serveCtrl := (Gateway.serveCtrl Msg url_Parse url_ParseQuery url_Encode).
Local Abbreviation NewHttpRequest := (Gateway.NewHttpRequest url_Parse url_ParseQuery url_Encode).
Local Abbreviation handler_calls := (Gateway.handler_calls Msg).
Local Abbreviation decoder_calls := (Gateway.decoder_calls Msg).

(** What the three branches of Serve and the two of serveCtrl come to. *)
Lemma NewHttpRequest_inv (req : Gateway.APIGatewayProxyRequest) (input : Http.Request) :
  NewHttpRequest req = Ok input ->
  Http.Body input = Some (Gateway.requestBody req)
  /\ Http.validMethod (Http.Method input) = true
  /\ exists u, url_Parse (Gateway.Path req) = Ok u.
Proof.
  unfold Gateway.NewHttpRequest, Gateway.NewRequestWithContext.
  destruct (Http.validMethod _) eqn:Hm; simpl; [|discriminate].
  destruct (url_Parse (Gateway.Path req)) as [u|e]; [|discriminate].
  intros [= <-]. simpl. eauto.
Qed.

Lemma NewHttpRequest_ok (req : Gateway.APIGatewayProxyRequest) (u : Http.URL) :
  Gateway.HTTPMethod req <> "" ->
  Http.validMethod (Gateway.HTTPMethod req) = true ->
  url_Parse (Gateway.Path req) = Ok u ->
  exists input, NewHttpRequest req = Ok input.
Proof.
  intros Hne Hm Hu.
  unfold Gateway.NewHttpRequest, Gateway.NewRequestWithContext.
  apply String.eqb_neq in Hne. rewrite Hne, Hm, Hu. simpl. eauto.
Qed.

Lemma NewHttpRequest_invalid_method (req : Gateway.APIGatewayProxyRequest) :
  Gateway.HTTPMethod req <> "" ->
  Http.validMethod (Gateway.HTTPMethod req) = false ->
  NewHttpRequest req = Err (ErrInvalidMethod (Gateway.HTTPMethod req)).
Proof.
  intros Hne Hm.
  unfold Gateway.NewHttpRequest, Gateway.NewRequestWithContext.
  apply String.eqb_neq in Hne. now rewrite Hne, Hm.
Qed.

Lemma serveCtrl_ok (gw : Gateway.Gateway C) (req : Gateway.APIGatewayProxyRequest)
    (input : Http.Request) :
  NewHttpRequest req = Ok input ->
  serveCtrl gw req
  = (Ok (Gateway.Value (Gateway.apply_calls Gateway.NewHttpResponse
                          (Gateway.ServeHTTP (Gateway.ctrl gw) input))),
     [Gateway.EvServeHTTP Msg input]).
Proof. intros Hin. unfold Gateway.serveCtrl. now rewrite Hin. Qed.

Lemma serveCtrl_err (gw : Gateway.Gateway C) (req : Gateway.APIGatewayProxyRequest)
    (e : error) :
  NewHttpRequest req = Err e ->
  serveCtrl gw req = (Err e, [Gateway.EvSlogError Msg "bad http request" e]).
Proof. intros Hin. unfold Gateway.serveCtrl. now rewrite Hin. Qed.

Lemma Serve_decoded (gw : Gateway.Gateway C) (req : Gateway.APIGatewayProxyRequest)
    (msg : Msg) :
  Gateway.HTTPMethod req <> "GET" ->
  Gateway.Body req <> "" ->
  DecodeMessage (bytes_of_string (Gateway.Body req)) = Ok msg ->
  Serve gw req
  = (value (serveCtrl gw req),
     Gateway.EvDecodeMessage Msg (bytes_of_string (Gateway.Body req))
       :: Gateway.EvSlogDebug Msg "received json-rpc message" msg
       :: trace (serveCtrl gw req)).
Proof.
  intros Hget Hbody Hdec. unfold Gateway.Serve.
  apply String.eqb_neq in Hget. rewrite Hget.
  rewrite (bytes_of_string_nonempty _ Hbody), Hdec.
  destruct (serveCtrl gw req) as [v t] eqn:Hs.
  unfold mbind, M_bind, emit. reflexivity.
Qed.

(** C1. A GET event is answered with status 405, no headers and an empty
    body, whatever its path, headers, query parameters, body and encoding
    flag; the trace of the call is empty, so neither the envelope decoder nor
    the handler is invoked. *)
Theorem get_is_rejected_405 (gw : Gateway.Gateway C) (path : string)
    (hdrs qs : list (string * string)) (body : string) (b64 : bool) :
  let req := {| Gateway.HTTPMethod := "GET"; Gateway.Path := path;
                Gateway.Headers := hdrs; Gateway.QueryStringParameters := qs;
                Gateway.Body := body; Gateway.IsBase64Encoded := b64 |} in
  let resp := {| Gateway.StatusCode := 405;
                 Gateway.RespHeaders := None;
                 Gateway.MultiValueHeaders := None;
                 Gateway.RespBody := "";
                 Gateway.RespIsBase64Encoded := false |} in
  Serve gw req = (Ok resp, [])
  /\ Gateway.entries (Gateway.RespHeaders resp) = ∅
  /\ Gateway.entries (Gateway.MultiValueHeaders resp) = ∅
  /\ decoder_calls (trace (Serve gw req)) = []
  /\ handler_calls (trace (Serve gw req)) = [].
Proof.
  cbv zeta. repeat split.
Qed.

(** C2. With a method other than GET and a non-empty body that the decoder
    refuses, Serve returns the decoder's error and no response; the decoder
    was called once, on the body, the error was logged, and the handler was
    not invoked. *)
Theorem decode_failure_aborts (gw : Gateway.Gateway C)
    (req : Gateway.APIGatewayProxyRequest) (err : error) :
  Gateway.HTTPMethod req <> "GET" ->
  Gateway.Body req <> "" ->
  DecodeMessage (bytes_of_string (Gateway.Body req)) = Err err ->
  Serve gw req
  = (Err err,
     [Gateway.EvDecodeMessage Msg (bytes_of_string (Gateway.Body req));
      Gateway.EvSlogError Msg "bad json-rpc message" err])
  /\ handler_calls (trace (Serve gw req)) = [].
Proof.
  intros Hget Hbody Hdec.
  assert (HS : Serve gw req
               = (Err err,
                  [Gateway.EvDecodeMessage Msg (bytes_of_string (Gateway.Body req));
                   Gateway.EvSlogError Msg "bad json-rpc message" err])).
  { unfold Gateway.Serve.
    apply String.eqb_neq in Hget. rewrite Hget.
    rewrite (bytes_of_string_nonempty _ Hbody), Hdec. reflexivity. }
  split; [exact HS|]. now rewrite HS.
Qed.

(** C3 (as amended). With a method other than GET and a non-empty body that
    decodes, Serve is serveCtrl on the untouched event after two calls that
    only observe: the decoder and the debug log, which is the only place the
    decoded message goes. If the request can be built from the event, the
    handler is invoked exactly once, with the request NewHttpRequest builds;
    its body is requestBody of the event, which reads as the original body
    bytes when the event is not flagged base64; and the response is the
    recorder's value after the handler's calls. If the request cannot be
    built, the handler is not invoked and the construction error is
    returned. *)
Theorem envelope_is_observational (gw : Gateway.Gateway C)
    (req : Gateway.APIGatewayProxyRequest) (msg : Msg) :
  Gateway.HTTPMethod req <> "GET" ->
  Gateway.Body req <> "" ->
  DecodeMessage (bytes_of_string (Gateway.Body req)) = Ok msg ->
  Serve gw req
  = (value (serveCtrl gw req),
     Gateway.EvDecodeMessage Msg (bytes_of_string (Gateway.Body req))
       :: Gateway.EvSlogDebug Msg "received json-rpc message" msg
       :: trace (serveCtrl gw req))
  /\ match NewHttpRequest req with
     | Ok input =>
         handler_calls (trace (Serve gw req)) = [input]
         /\ Http.Body input = Some (Gateway.requestBody req)
         /\ (Gateway.IsBase64Encoded req = false ->
             IO.ReadAll (Gateway.requestBody req)
             = (bytes_of_string (Gateway.Body req), None))
         /\ value (Serve gw req)
            = Ok (Gateway.Value (Gateway.apply_calls Gateway.NewHttpResponse
                                   (Gateway.ServeHTTP (Gateway.ctrl gw) input)))
     | Err e =>
         handler_calls (trace (Serve gw req)) = []
         /\ value (Serve gw req) = Err e
     end.
Proof.
  intros Hget Hbody Hdec.
  pose proof (Serve_decoded gw req msg Hget Hbody Hdec) as HS.
  split; [exact HS|].
  rewrite HS.
  destruct (NewHttpRequest req) as [input|e] eqn:Hin.
  - rewrite (serveCtrl_ok gw req input Hin). simpl.
    destruct (NewHttpRequest_inv req input Hin) as (Hb & _ & _).
    repeat split; try assumption.
    intros Hraw. unfold Gateway.requestBody. rewrite Hraw.
    apply ReadAll_strings_NewReader.
  - rewrite (serveCtrl_err gw req e Hin). simpl. split; reflexivity.
Qed.

(** X1. An event with a method other than GET and an empty body goes to
    serveCtrl without a call to the decoder, and its request body reads as
    no bytes, whether or not the event is flagged base64. When the request
    can be built from the event, the handler is invoked once, with that
    body; when it cannot (the method is no token, the target does not
    parse), Serve returns the error and the handler is not invoked. *)
Theorem empty_body_delegates (gw : Gateway.Gateway C)
    (req : Gateway.APIGatewayProxyRequest) :
  Gateway.HTTPMethod req <> "GET" ->
  Gateway.Body req = "" ->
  Serve gw req = serveCtrl gw req
  /\ decoder_calls (trace (Serve gw req)) = []
  /\ IO.ReadAll (Gateway.requestBody req) = ([], None)
  /\ match NewHttpRequest req with
     | Ok input =>
         handler_calls (trace (Serve gw req)) = [input]
         /\ Http.Body input = Some (Gateway.requestBody req)
     | Err e =>
         handler_calls (trace (Serve gw req)) = []
         /\ value (Serve gw req) = Err e
     end.
Proof.
  intros Hget Hbody.
  assert (HS : Serve gw req = serveCtrl gw req).
  { unfold Gateway.Serve. apply String.eqb_neq in Hget. rewrite Hget, Hbody.
    reflexivity. }
  rewrite HS. split; [reflexivity|].
  assert (Hread : IO.ReadAll (Gateway.requestBody req) = ([], None)).
  { unfold Gateway.requestBody. rewrite Hbody.
    destruct (Gateway.IsBase64Encoded req); reflexivity. }
  destruct (NewHttpRequest req) as [input|e] eqn:Hin.
  - rewrite (serveCtrl_ok gw req input Hin).
    destruct (NewHttpRequest_inv req input Hin) as (Hb & _).
    repeat split; assumption.
  - rewrite (serveCtrl_err gw req e Hin). repeat split; assumption.
Qed.

(** A request built from an event flagged base64 with body "SGVsbG8=" has a
    body that reads as "Hello" when read to the end. *)
Lemma hello_request_body (method path : string) (hdrs qs : list (string * string)) :
  let r := {| Gateway.HTTPMethod := method; Gateway.Path := path;
              Gateway.Headers := hdrs; Gateway.QueryStringParameters := qs;
              Gateway.Body := "SGVsbG8="; Gateway.IsBase64Encoded := true |} in
  match NewHttpRequest r with
  | Ok req => exists rd, Http.Body req = Some rd
                         /\ IO.ReadAll rd = (bytes_of_string "Hello", None)
  | Err _ => True
  end.
Proof.
  intros r. destruct (NewHttpRequest r) as [req|e] eqn:Hin; [|exact I].
  destruct (NewHttpRequest_inv r req Hin) as (Hb & _ & _).
  exists (Gateway.requestBody r). split; [exact Hb|]. reflexivity.
Qed.

End GatewayFacts.

(** C9. For an event flagged base64 with body "SGVsbG8=", whatever its other
    fields, requestBody is a stream that reads as the bytes of "Hello"
    followed by the end of the stream; and every request NewHttpRequest
    builds from such an event carries that stream as its body. *)
Theorem base64_body_reads_hello (method path : string) (hdrs qs : list (string * string)) :
  let r := {| Gateway.HTTPMethod := method; Gateway.Path := path;
              Gateway.Headers := hdrs; Gateway.QueryStringParameters := qs;
              Gateway.Body := "SGVsbG8="; Gateway.IsBase64Encoded := true |} in
  IO.ReadAll (Gateway.requestBody r) = (bytes_of_string "Hello", None)
  /\ forall url_Parse url_ParseQuery url_Encode,
       match Gateway.NewHttpRequest url_Parse url_ParseQuery url_Encode r with
       | Ok req => exists rd, Http.Body req = Some rd
                              /\ IO.ReadAll rd = (bytes_of_string "Hello", None)
       | Err _ => True
       end.
Proof.
  intros r. split; [reflexivity|].
  intros url_Parse url_ParseQuery url_Encode.
  apply hello_request_body.
Qed.

(** X2. For every payload, an event flagged base64 whose body is the standard
    base64 encoding of the payload has a requestBody that reads as the
    payload followed by the end of the stream. *)
Theorem base64_body_round_trip (payload : bytes) (method path : string)
    (hdrs qs : list (string * string)) :
  let r := {| Gateway.HTTPMethod := method; Gateway.Path := path;
              Gateway.Headers := hdrs; Gateway.QueryStringParameters := qs;
              Gateway.Body := Base64.StdEncoding_EncodeToString payload;
              Gateway.IsBase64Encoded := true |} in
  IO.ReadAll (Gateway.requestBody r) = (payload, None).
Proof. cbv zeta. unfold Gateway.requestBody. simpl. apply decoder_of_encoded. Qed.

(** C2 at work: a POST whose body is no JSON, against the stand-in decoder. *)
Lemma decode_failure_aborts_witness :
  let req := Fixture.post "not json" false in
  let run := Gateway.Serve string Fixture.DecodeMessage Fixture.url_Parse
               Fixture.url_ParseQuery Fixture.url_Encode (Gateway.New Fixture.echo) req in
  (Gateway.HTTPMethod req <> "GET"
   /\ Gateway.Body req <> ""
   /\ Fixture.DecodeMessage (bytes_of_string (Gateway.Body req))
      = Err (ErrExternal "invalid character looking for beginning of value"))
  /\ run = (Err (ErrExternal "invalid character looking for beginning of value"),
            [Gateway.EvDecodeMessage string (bytes_of_string "not json");
             Gateway.EvSlogError string "bad json-rpc message"
               (ErrExternal "invalid character looking for beginning of value")])
  /\ Gateway.handler_calls string (trace run) = [].
Proof.
  simpl. split.
  - repeat split; [discriminate | discriminate].
  - apply (decode_failure_aborts string Fixture.DecodeMessage Fixture.url_Parse
             Fixture.url_ParseQuery Fixture.url_Encode (Gateway.New Fixture.echo)
             (Fixture.post "not json" false));
      [discriminate | discriminate | reflexivity].
Defined.

(** A POST without a body, which reaches the handler, and an event without
    a body whose method is no token, which does not. *)
Lemma empty_body_delegates_witness :
  let req := Fixture.post "" false in
  let bad := Sample.event "PO ST" "" false [] [] in
  let run r := Gateway.Serve string Fixture.DecodeMessage Fixture.url_Parse
                 Fixture.url_ParseQuery Fixture.url_Encode (Gateway.New Fixture.echo) r in
  ((Gateway.HTTPMethod req <> "GET" /\ Gateway.Body req = "")
   /\ Gateway.decoder_calls string (trace (run req)) = []
   /\ IO.ReadAll (Gateway.requestBody req) = ([], None)
   /\ exists input, Gateway.handler_calls string (trace (run req)) = [input]
                    /\ Http.Body input = Some (Gateway.requestBody req))
  /\ (Gateway.HTTPMethod bad <> "GET" /\ Gateway.Body bad = "")
  /\ Gateway.decoder_calls string (trace (run bad)) = []
  /\ Gateway.handler_calls string (trace (run bad)) = []
  /\ value (run bad) = Err (ErrInvalidMethod "PO ST").
Proof.
  cbv zeta.
  assert (Hget : Gateway.HTTPMethod (Fixture.post "" false) <> "GET") by discriminate.
  assert (Hbad : Gateway.HTTPMethod (Sample.event "PO ST" "" false [] []) <> "GET")
    by discriminate.
  split; [split; [split; [exact Hget | reflexivity]|]|split; [split; [exact Hbad | reflexivity]|]].
  - destruct (empty_body_delegates string Fixture.DecodeMessage Fixture.url_Parse
                Fixture.url_ParseQuery Fixture.url_Encode (Gateway.New Fixture.echo)
                (Fixture.post "" false) Hget eq_refl) as (_ & Hdec & Hread & Hcall).
    split; [exact Hdec|]. split; [exact Hread|].
    destruct (Gateway.NewHttpRequest Fixture.url_Parse Fixture.url_ParseQuery
                Fixture.url_Encode (Fixture.post "" false)) as [input|e] eqn:Hin;
      [|discriminate Hin].
    exists input. exact Hcall.
  - destruct (empty_body_delegates string Fixture.DecodeMessage Fixture.url_Parse
                Fixture.url_ParseQuery Fixture.url_Encode (Gateway.New Fixture.echo)
                (Sample.event "PO ST" "" false [] []) Hbad eq_refl)
      as (_ & Hdec & _ & Hcall).
    split; [exact Hdec|].
    destruct (Gateway.NewHttpRequest Fixture.url_Parse Fixture.url_ParseQuery
                Fixture.url_Encode (Sample.event "PO ST" "" false [] [])) as [input|e] eqn:Hin;
      [discriminate Hin|].
    injection Hin as <-. exact Hcall.
Defined.

(** C3 at work: a POST with a JSON-RPC body, not flagged base64; the handler
    gets a request whose body reads as the event's body. *)
Lemma envelope_is_observational_witness :
  let req := Fixture.post Fixture.ping false in
  let run := Gateway.Serve string Fixture.DecodeMessage Fixture.url_Parse
               Fixture.url_ParseQuery Fixture.url_Encode (Gateway.New Fixture.echo) req in
  (Gateway.HTTPMethod req <> "GET"
   /\ Gateway.Body req <> ""
   /\ Fixture.DecodeMessage (bytes_of_string (Gateway.Body req)) = Ok Fixture.ping)
  /\ exists input,
       Gateway.NewHttpRequest Fixture.url_Parse Fixture.url_ParseQuery Fixture.url_Encode req
       = Ok input
       /\ Gateway.handler_calls string (trace run) = [input]
       /\ Http.Body input = Some (Gateway.requestBody req)
       /\ IO.ReadAll (Gateway.requestBody req) = (bytes_of_string Fixture.ping, None).
Proof.
  cbv zeta.
  assert (Hget : Gateway.HTTPMethod (Fixture.post Fixture.ping false) <> "GET")
    by discriminate.
  assert (Hbody : Gateway.Body (Fixture.post Fixture.ping false) <> "")
    by discriminate.
  assert (Hdec : Fixture.DecodeMessage
                   (bytes_of_string (Gateway.Body (Fixture.post Fixture.ping false)))
                 = Ok Fixture.ping) by reflexivity.
  split; [repeat split; assumption|].
  pose proof (envelope_is_observational string Fixture.DecodeMessage Fixture.url_Parse
                Fixture.url_ParseQuery Fixture.url_Encode (Gateway.New Fixture.echo)
                (Fixture.post Fixture.ping false) Fixture.ping Hget Hbody Hdec) as [_ Hobs].
  destruct (Gateway.NewHttpRequest Fixture.url_Parse Fixture.url_ParseQuery
              Fixture.url_Encode (Fixture.post Fixture.ping false)) as [input|e] eqn:Hin;
    [|discriminate Hin].
  exists input. destruct Hobs as (Hcalls & Hb & Hread & _).
  split; [reflexivity|]. split; [exact Hcalls|]. split; [exact Hb|].
  exact (Hread eq_refl).
Defined.

(** C3 as first stated fails, twice over. (1) An event flagged base64 whose
    body is a JSON-RPC message: whatever the decoder that accepts it and the
    parser that accepts its path, the handler is invoked with a request whose
    body is the base64 decoding of the JSON text, which reads as no bytes and
    a corrupt-input error, not as the original bytes. (2) An event whose
    method is no token: the handler is not invoked at all and Serve returns
    the construction error. *)
Lemma envelope_claim_fails :
  (let req := Fixture.post Fixture.ping true in
   Gateway.HTTPMethod req <> "GET" /\ Gateway.Body req <> "" /\
   forall Msg (DecodeMessage : bytes -> result Msg) url_Parse url_ParseQuery url_Encode
          C (H : Gateway.Controller C) (gw : Gateway.Gateway C) msg u,
     DecodeMessage (bytes_of_string (Gateway.Body req)) = Ok msg ->
     url_Parse (Gateway.Path req) = Ok u ->
     exists input rd,
       Gateway.handler_calls Msg
         (trace (Gateway.Serve Msg DecodeMessage url_Parse url_ParseQuery url_Encode gw req))
       = [input]
       /\ Http.Body input = Some rd
       /\ IO.ReadAll rd = ([], Some ErrCorruptInput)
       /\ IO.ReadAll rd <> (bytes_of_string (Gateway.Body req), None))
  /\
  (let req := {| Gateway.HTTPMethod := "PO ST"; Gateway.Path := "/mcp";
                 Gateway.Headers := []; Gateway.QueryStringParameters := [];
                 Gateway.Body := Fixture.ping; Gateway.IsBase64Encoded := false |} in
   Gateway.HTTPMethod req <> "GET" /\ Gateway.Body req <> "" /\
   forall Msg (DecodeMessage : bytes -> result Msg) url_Parse url_ParseQuery url_Encode
          C (H : Gateway.Controller C) (gw : Gateway.Gateway C) msg,
     DecodeMessage (bytes_of_string (Gateway.Body req)) = Ok msg ->
     let run := Gateway.Serve Msg DecodeMessage url_Parse url_ParseQuery url_Encode gw req in
     Gateway.handler_calls Msg (trace run) = []
     /\ value run = Err (ErrInvalidMethod "PO ST")).
Proof.
  split; cbv zeta.
  - split; [discriminate|]. split; [discriminate|].
    intros Msg DecodeMessage url_Parse url_ParseQuery url_Encode C H gw msg u Hdec Hu.
    destruct (NewHttpRequest_ok url_Parse url_ParseQuery url_Encode
                (Fixture.post Fixture.ping true) u) as [input Hin];
      [discriminate | reflexivity | exact Hu |].
    destruct (NewHttpRequest_inv url_Parse url_ParseQuery url_Encode _ _ Hin) as (Hb & _).
    exists input, (Gateway.requestBody (Fixture.post Fixture.ping true)).
    rewrite (Serve_decoded Msg DecodeMessage url_Parse url_ParseQuery url_Encode gw _ msg);
      [|discriminate|discriminate|exact Hdec].
    rewrite (serveCtrl_ok Msg url_Parse url_ParseQuery url_Encode gw _ input Hin).
    repeat split; [exact Hb | discriminate].
  - split; [discriminate|]. split; [discriminate|].
    intros Msg DecodeMessage url_Parse url_ParseQuery url_Encode C H gw msg Hdec.
    rewrite (Serve_decoded Msg DecodeMessage url_Parse url_ParseQuery url_Encode gw _ msg);
      [|discriminate|discriminate|exact Hdec].
    rewrite (serveCtrl_err Msg url_Parse url_ParseQuery url_Encode gw _
               (ErrInvalidMethod "PO ST")).
    + split; reflexivity.
    + apply NewHttpRequest_invalid_method; [discriminate | reflexivity].
Qed.

(** ** The recorder *)

Lemma default_last_cons (d x : Z) (l : list Z) :
  default d (last (x :: l)) = default x (last l).
Proof.
  revert d x. induction l as [|y l IH]; intros d x; [reflexivity|].
  change (last (x :: y :: l)) with (last (y :: l)).
  now rewrite (IH d y), (IH x y).
Qed.

Lemma apply_calls_code (w : Gateway.writer) (cs : list Gateway.call) :
  Gateway.code (Gateway.apply_calls w cs)
  = default (Gateway.code w) (last (Gateway.set_statuses cs)).
Proof.
  revert w. induction cs as [|c cs IH]; intros w; [reflexivity|].
  unfold Gateway.apply_calls in *. simpl fold_left. rewrite IH.
  destruct c; simpl; try reflexivity.
  now rewrite default_last_cons.
Qed.

Lemma apply_calls_wbuf (w : Gateway.writer) (cs : list Gateway.call) :
  Gateway.wbuf (Gateway.apply_calls w cs)
  = Gateway.wbuf w ++ Gateway.written_bytes cs.
Proof.
  revert w. induction cs as [|c cs IH]; intros w.
  - simpl. now rewrite app_nil_r.
  - unfold Gateway.apply_calls in *. simpl fold_left. rewrite IH.
    destruct c; simpl; try reflexivity.
    unfold Gateway.written_bytes. simpl. now rewrite app_assoc.
Qed.

Lemma some_values_default (o : option (list string)) :
  o <> Some [] -> Gateway.some_values (default [] o) = o.
Proof. destruct o as [[|v vs]|]; simpl; congruence. Qed.

Lemma apply_calls_head (key : string) (cs : list Gateway.call) (w : Gateway.writer) :
  Gateway.head w !! key <> Some [] ->
  Gateway.head (Gateway.apply_calls w cs) !! key
  = Gateway.some_values (Gateway.recorded_values key cs (default [] (Gateway.head w !! key))).
Proof.
  revert w. induction cs as [|c cs IH]; intros w Hw.
  - simpl. symmetry. now apply some_values_default.
  - unfold Gateway.apply_calls in *. simpl fold_left.
    destruct c as [s|b|k v|k v|k]; simpl Gateway.recorded_values.
    + rewrite IH; [reflexivity | exact Hw].
    + rewrite IH; [reflexivity | exact Hw].
    + rewrite IH; simpl; unfold Http.Add.
      * destruct (decide (Http.CanonicalMIMEHeaderKey k = key)) as [->|Hne].
        -- now rewrite lookup_insert_eq.
        -- now rewrite lookup_insert_ne.
      * destruct (decide (Http.CanonicalMIMEHeaderKey k = key)) as [->|Hne].
        -- rewrite lookup_insert_eq. intros [= Happ].
           now apply app_eq_nil in Happ as [_ ?].
        -- now rewrite lookup_insert_ne.
    + rewrite IH; simpl; unfold Http.Set_.
      * destruct (decide (Http.CanonicalMIMEHeaderKey k = key)) as [->|Hne].
        -- now rewrite lookup_insert_eq.
        -- now rewrite lookup_insert_ne.
      * destruct (decide (Http.CanonicalMIMEHeaderKey k = key)) as [->|Hne].
        -- now rewrite lookup_insert_eq.
        -- now rewrite lookup_insert_ne.
    + rewrite IH; simpl; unfold Http.Del.
      * destruct (decide (Http.CanonicalMIMEHeaderKey k = key)) as [->|Hne].
        -- now rewrite lookup_delete_eq.
        -- now rewrite lookup_delete_ne.
      * destruct (decide (Http.CanonicalMIMEHeaderKey k = key)) as [->|Hne].
        -- now rewrite lookup_delete_eq.
        -- now rewrite lookup_delete_ne.
Qed.

(** C8 (as amended). After any sequence of calls on a fresh recorder, Value
    gives: as status the most recently set one, or 200 when none was set or
    when the most recently set one is 0; no single-valued headers; under each
    key the values the header calls left there, in order (for calls that only
    add, every value added under the key's canonical spelling); as body
    everything written, in order. Writes have no part in the status. *)
Theorem recorder_finalize (cs : list Gateway.call) :
  let resp := Gateway.Value (Gateway.apply_calls Gateway.NewHttpResponse cs) in
  Gateway.StatusCode resp = Gateway.finalized_status cs
  /\ Gateway.RespHeaders resp = None
  /\ (forall key, Gateway.entries (Gateway.MultiValueHeaders resp) !! key
                  = Gateway.some_values (Gateway.recorded_values key cs []))
  /\ Gateway.RespBody resp = string_of_bytes (Gateway.written_bytes cs).
Proof.
  cbv zeta. unfold Gateway.Value. simpl.
  rewrite apply_calls_code, apply_calls_wbuf. simpl.
  repeat split.
  - unfold Gateway.finalized_status.
    destruct (last (Gateway.set_statuses cs)) as [s|]; reflexivity.
  - intros key. rewrite apply_calls_head; [reflexivity|].
    simpl. now rewrite lookup_empty.
Qed.

(** C8 as first stated fails when the status set last is 0: the recorder
    then finalizes with 200, not with the status set. *)
Lemma most_recent_status_claim_fails :
  let cs := [Gateway.CallWriteHeader 404; Gateway.CallWrite []; Gateway.CallWriteHeader 0] in
  Gateway.claimed_status cs = 0
  /\ Gateway.StatusCode (Gateway.Value (Gateway.apply_calls Gateway.NewHttpResponse cs)) = 200
  /\ Gateway.StatusCode (Gateway.Value (Gateway.apply_calls Gateway.NewHttpResponse cs))
     <> Gateway.claimed_status cs.
Proof. cbv zeta. repeat split. discriminate. Qed.

(** The two cases the specification singles out. *)
Example status_defaults_to_200 (b : bytes) :
  Gateway.StatusCode (Gateway.Value (Gateway.apply_calls Gateway.NewHttpResponse
                                       [Gateway.CallWrite b])) = 200.
Proof. reflexivity. Qed.

Example status_201_before_body (b : bytes) :
  Gateway.StatusCode (Gateway.Value (Gateway.apply_calls Gateway.NewHttpResponse
                                       [Gateway.CallWriteHeader 201; Gateway.CallWrite b])) = 201.
Proof. reflexivity. Qed.

(** ** The transports *)

Lemma canonical_Authorization :
  Http.CanonicalMIMEHeaderKey "Authorization" = "Authorization".
Proof. reflexivity. Qed.

Lemma Add_Authorization_lookup (h : Http.Header) (v : string) :
  Http.Add h "Authorization" v !! "Authorization"
  = Some (default [] (h !! "Authorization") ++ [v]).
Proof. unfold Http.Add. rewrite canonical_Authorization. apply lookup_insert_eq. Qed.

Lemma Add_Authorization_other (h : Http.Header) (v key : string) :
  key <> "Authorization" -> Http.Add h "Authorization" v !! key = h !! key.
Proof.
  intros Hne. unfold Http.Add. rewrite canonical_Authorization.
  now apply lookup_insert_ne.
Qed.

(** SHA-256 of no bytes is the constant the signed transport starts from. *)
Lemma emptyHash_is_sha256_of_nothing :
  Auth.emptyHash = Hex.EncodeToString (SHA256.Sum256 []).
Proof. vm_compute. reflexivity. Qed.

(** The embedded SHA-256 on the test vectors of the standard. *)
Example sha256_abc :
  Hex.EncodeToString (SHA256.Sum256 (bytes_of_string "abc"))
  = "ba7816bf8f01cfea414140de5dae2223b00361a396177a9cb410ff61f20015ad".
Proof. vm_compute. reflexivity. Qed.

Example sha256_two_blocks :
  Hex.EncodeToString
    (SHA256.Sum256 (bytes_of_string "abcdbcdecdefdefgefghfghighijhijkijkljklmklmnlmnomnopnopq"))
  = "248d6a61d20638b8e5c026930c3e6039a33ce45964ff2167f6ecedd419db06c1".
Proof. vm_compute. reflexivity. Qed.

Section TransportFacts.

Variable LoadDefaultConfig : option Auth.CredentialsProvider -> result Auth.aws_Config.
Variable Retrieve : Auth.CredentialsProvider -> result Auth.aws_Credentials.
Variable SignHTTP :
  Auth.aws_Credentials -> Http.Request -> string -> string -> string -> Z -> result Auth.signed.
Variable Now : Z.
Variable send : Auth.RoundTripper -> Http.Request -> result Http.Response.

Local Abbreviation RoundTrip := (Auth.RoundTrip Retrieve SignHTTP Now send).

(** The shared-secret transport adds its header and calls the inner transport. *)
Lemma RoundTrip_apikey (digest : string) (socket : Auth.RoundTripper) (req : Http.Request) :
  let fwd := Auth.with_header req
               (Http.Add (Http.Hdr req) "Authorization" ("Basic " +:+ digest)) in
  RoundTrip (Auth.apikeyTransport digest socket) req
  = (value (RoundTrip socket fwd),
     Auth.EvSocketRoundTrip socket fwd :: trace (RoundTrip socket fwd)).
Proof.
  cbv zeta. simpl Auth.RoundTrip.
  destruct (Auth.RoundTrip _ _ _ _ socket _) as [v t]. reflexivity.
Qed.

(** A reader that was read to its end has nothing more to give, and one that
    was read to an error gives that error again. *)
Lemma ReadAll_drained (r : IO.Reader) :
  IO.ReadAll (Observed.drained r) = ([], snd (IO.ReadAll r)).
Proof.
  induction r as [|e|p next IH]; simpl; try reflexivity.
  rewrite IH. now destruct (IO.ReadAll next).
Qed.

(** The copy of a body: what it returns, and the request it leaves. *)
Lemma copy_body_read (req : Http.Request) (body : IO.Reader) (data : bytes) :
  IO.ReadAll body = (data, None) ->
  fst (Auth.copy_body req body) = Ok (data, Hex.EncodeToString (SHA256.Sum256 data))
  /\ Http.Body (snd (Auth.copy_body req body)) = Some (Observed.drained body).
Proof.
  intros Hread. unfold Auth.copy_body. rewrite Copy_Tee_ReadAll, Hread.
  split; reflexivity.
Qed.

Lemma copy_body_error (req : Http.Request) (body : IO.Reader) (err : error) :
  snd (IO.ReadAll body) = Some err ->
  fst (Auth.copy_body req body) = Err err.
Proof.
  intros Hread. unfold Auth.copy_body. rewrite Copy_Tee_ReadAll, Hread.
  reflexivity.
Qed.

(** The three outcomes of the body step of the signed transport. *)
Lemma rebuffer_no_body (req : Http.Request) :
  Http.Body req = None -> Auth.rebuffer req = (Ok (Auth.emptyHash, req), []).
Proof. intros Hb. unfold Auth.rebuffer. now rewrite Hb. Qed.

Lemma rebuffer_body (req : Http.Request) (body : IO.Reader) (data : bytes) :
  Http.Body req = Some body ->
  IO.ReadAll body = (data, None) ->
  Auth.rebuffer req
  = (Ok (Hex.EncodeToString (SHA256.Sum256 data),
         Auth.with_body req (Some (IO.bytes_Reader data))),
     [Auth.EvBodyClose]).
Proof.
  intros Hb Hread. unfold Auth.rebuffer, Auth.copy_body.
  rewrite Hb, Copy_Tee_ReadAll, Hread. reflexivity.
Qed.

Lemma rebuffer_read_error (req : Http.Request) (body : IO.Reader) (err : error) :
  Http.Body req = Some body ->
  snd (IO.ReadAll body) = Some err ->
  Auth.rebuffer req = (Err err, []).
Proof.
  intros Hb Hread. unfold Auth.rebuffer, Auth.copy_body.
  rewrite Hb, Copy_Tee_ReadAll, Hread. reflexivity.
Qed.

(** The signed transport, step by step. *)
Lemma RoundTrip_iam_no_credentials (config : Auth.aws_Config) (socket : Auth.RoundTripper)
    (req : Http.Request) (err : error) :
  Retrieve (Auth.Credentials config) = Err err ->
  RoundTrip (Auth.iamTransport config socket) req
  = (Err err, [Auth.EvRetrieve (Auth.Credentials config)]).
Proof. intros Hc. simpl Auth.RoundTrip. rewrite Hc. reflexivity. Qed.

Lemma RoundTrip_iam_rebuffer_error (config : Auth.aws_Config) (socket : Auth.RoundTripper)
    (req : Http.Request) (credential : Auth.aws_Credentials) (err : error)
    (t : list Auth.event) :
  Retrieve (Auth.Credentials config) = Ok credential ->
  Auth.rebuffer req = (Err err, t) ->
  RoundTrip (Auth.iamTransport config socket) req
  = (Err err, Auth.EvRetrieve (Auth.Credentials config) :: t).
Proof.
  intros Hc Hr. simpl Auth.RoundTrip. rewrite Hc, Hr.
  unfold mbind, M_bind, emit, mret, M_ret. now rewrite app_nil_r.
Qed.

Lemma RoundTrip_iam_sign_error (config : Auth.aws_Config) (socket : Auth.RoundTripper)
    (req req' : Http.Request) (credential : Auth.aws_Credentials) (hash : string)
    (err : error) (t : list Auth.event) :
  Retrieve (Auth.Credentials config) = Ok credential ->
  Auth.rebuffer req = (Ok (hash, req'), t) ->
  SignHTTP credential req' hash "execute-api" (Auth.Region config) Now = Err err ->
  RoundTrip (Auth.iamTransport config socket) req
  = (Err err,
     Auth.EvRetrieve (Auth.Credentials config)
       :: t ++ [Auth.EvSignHTTP credential req' hash "execute-api" (Auth.Region config) Now]).
Proof.
  intros Hc Hr Hs. simpl Auth.RoundTrip. rewrite Hc, Hr.
  unfold mbind, M_bind, emit, mret, M_ret. now rewrite Hs.
Qed.

Lemma RoundTrip_iam_signed (config : Auth.aws_Config) (socket : Auth.RoundTripper)
    (req req' : Http.Request) (credential : Auth.aws_Credentials) (hash : string)
    (s : Auth.signed) (t : list Auth.event) :
  Retrieve (Auth.Credentials config) = Ok credential ->
  Auth.rebuffer req = (Ok (hash, req'), t) ->
  SignHTTP credential req' hash "execute-api" (Auth.Region config) Now = Ok s ->
  let fwd := Auth.with_signed req' s in
  RoundTrip (Auth.iamTransport config socket) req
  = (value (RoundTrip socket fwd),
     Auth.EvRetrieve (Auth.Credentials config)
       :: t ++ Auth.EvSignHTTP credential req' hash "execute-api" (Auth.Region config) Now
            :: Auth.EvSocketRoundTrip socket fwd
            :: trace (RoundTrip socket fwd)).
Proof.
  intros Hc Hr Hs. cbv zeta. simpl Auth.RoundTrip. rewrite Hc, Hr.
  unfold mbind, M_bind, emit, mret, M_ret. rewrite Hs.
  destruct (Auth.RoundTrip _ _ _ _ socket _) as [v t']. reflexivity.
Qed.

(** C6. Built from a configuration with a URL, the shared-secret transport
    holds the digest base64(access ":" secret), unpadded, computed once by the
    constructor; RoundTrip on any request calls the inner transport with the
    request whose Authorization values end with "Basic " followed by that
    digest, every other header key and the method, URL, body and host being
    those of the request; the value depends on the configuration alone, so it
    is the same on every call; for access "access" and secret "secret" it is
    "Basic YWNjZXNzOnNlY3JldA". *)
Theorem apikey_basic_header (spec : Auth.ConfigApiKey.t) (req : Http.Request) :
  Auth.ConfigApiKey.Url spec <> "" ->
  let digest := Base64.RawStdEncoding_EncodeToString
                  (bytes_of_string (Auth.ConfigApiKey.Access spec +:+ ":"
                                    +:+ Auth.ConfigApiKey.Secret spec)) in
  let inner := Auth.inner_socket (Auth.ConfigApiKey.Client spec) in
  let fwd := Auth.with_header req
               (Http.Add (Http.Hdr req) "Authorization" ("Basic " +:+ digest)) in
  Auth.NewTransportApiKey spec
  = Ok {| Auth.Endpoint := Auth.ConfigApiKey.Url spec;
          Auth.HTTPClient :=
            Some {| Auth.Transport := Some (Auth.apikeyTransport digest inner);
                    Auth.Timeout := match Auth.ConfigApiKey.Client spec with
                                    | Some c => Auth.Timeout c
                                    | None => 0
                                    end |} |}
  /\ RoundTrip (Auth.apikeyTransport digest inner) req
     = (value (RoundTrip inner fwd),
        Auth.EvSocketRoundTrip inner fwd :: trace (RoundTrip inner fwd))
  /\ Http.Hdr fwd !! "Authorization"
     = Some (default [] (Http.Hdr req !! "Authorization") ++ ["Basic " +:+ digest])
  /\ "Basic " +:+ digest ∈ Http.Values (Http.Hdr fwd) "Authorization"
  /\ (forall key, key <> "Authorization" -> Http.Hdr fwd !! key = Http.Hdr req !! key)
  /\ Http.Method fwd = Http.Method req
  /\ Http.Url fwd = Http.Url req
  /\ Http.Body fwd = Http.Body req
  /\ Http.Host fwd = Http.Host req
  /\ (Auth.ConfigApiKey.Access spec = "access" ->
      Auth.ConfigApiKey.Secret spec = "secret" ->
      "Basic " +:+ digest = "Basic YWNjZXNzOnNlY3JldA").
Proof.
  intros Hurl. cbv zeta.
  split.
  { unfold Auth.NewTransportApiKey.
    rewrite (bytes_of_string_nonempty _ Hurl). unfold Auth.install.
    destruct (Auth.ConfigApiKey.Client spec); reflexivity. }
  split; [apply RoundTrip_apikey|].
  split; [apply Add_Authorization_lookup|].
  split.
  { unfold Http.Values. rewrite canonical_Authorization.
    simpl Http.Hdr. rewrite Add_Authorization_lookup. simpl.
    apply elem_of_app. right. apply list_elem_of_singleton. reflexivity. }
  split; [intros key Hkey; now apply Add_Authorization_other|].
  repeat (split; [reflexivity|]).
  intros -> ->. reflexivity.
Qed.

(** C10. When the request already has values under Authorization, the
    request the inner transport is called with has them all, in order,
    followed by the transport's "Basic " value: the header is added to, not
    replaced. *)
Theorem apikey_appends_authorization (digest : string) (socket : Auth.RoundTripper)
    (req : Http.Request) (vs : list string) :
  Http.Hdr req !! "Authorization" = Some vs ->
  exists fwd,
    RoundTrip (Auth.apikeyTransport digest socket) req
    = (value (RoundTrip socket fwd),
       Auth.EvSocketRoundTrip socket fwd :: trace (RoundTrip socket fwd))
    /\ Http.Hdr fwd !! "Authorization" = Some (vs ++ ["Basic " +:+ digest])
    /\ (forall v, v ∈ vs -> v ∈ Http.Values (Http.Hdr fwd) "Authorization")
    /\ "Basic " +:+ digest ∈ Http.Values (Http.Hdr fwd) "Authorization".
Proof.
  intros Hvs.
  exists (Auth.with_header req
            (Http.Add (Http.Hdr req) "Authorization" ("Basic " +:+ digest))).
  split; [apply RoundTrip_apikey|].
  assert (Hl : Http.Add (Http.Hdr req) "Authorization" ("Basic " +:+ digest)
               !! "Authorization" = Some (vs ++ ["Basic " +:+ digest])).
  { rewrite Add_Authorization_lookup, Hvs. reflexivity. }
  split; [exact Hl|].
  unfold Http.Values. rewrite canonical_Authorization. simpl Http.Hdr. rewrite Hl. simpl.
  split.
  - intros v Hv. apply elem_of_app. now left.
  - apply elem_of_app. right. apply list_elem_of_singleton. reflexivity.
Qed.

(** C4. The hash the signed transport starts from is SHA-256 of no bytes.
    Once credentials are retrieved: for a request without a body that hash
    is the one handed to the signer; for a request whose body reads to the
    end as [data], the copy leaves the request with its body read (read
    again, it gives no bytes), the hash handed to the signer is SHA-256 of
    [data], and, the signer succeeding, the inner transport is called with a
    request whose body reads as [data] again: the buffer put in the place of
    the body that was read. *)
Theorem iam_hash_and_restore (config : Auth.aws_Config) (socket : Auth.RoundTripper)
    (req : Http.Request) (credential : Auth.aws_Credentials) :
  Retrieve (Auth.Credentials config) = Ok credential ->
  let run := RoundTrip (Auth.iamTransport config socket) req in
  Auth.emptyHash = Hex.EncodeToString (SHA256.Sum256 [])
  /\ (Http.Body req = None ->
      exists rest,
        trace run
        = Auth.EvRetrieve (Auth.Credentials config)
            :: Auth.EvSignHTTP credential req Auth.emptyHash "execute-api"
                 (Auth.Region config) Now
            :: rest)
  /\ (forall body data,
        Http.Body req = Some body ->
        IO.ReadAll body = (data, None) ->
        let hash := Hex.EncodeToString (SHA256.Sum256 data) in
        let req' := Auth.with_body req (Some (IO.bytes_Reader data)) in
        (exists left,
           Http.Body (snd (Auth.copy_body req body)) = Some left
           /\ IO.ReadAll left = ([], None))
        /\ (exists rest,
           trace run
           = Auth.EvRetrieve (Auth.Credentials config)
               :: Auth.EvBodyClose
               :: Auth.EvSignHTTP credential req' hash "execute-api"
                    (Auth.Region config) Now
               :: rest)
        /\ forall s,
             SignHTTP credential req' hash "execute-api" (Auth.Region config) Now = Ok s ->
             exists fwd rd,
               run = (value (RoundTrip socket fwd),
                      [Auth.EvRetrieve (Auth.Credentials config);
                       Auth.EvBodyClose;
                       Auth.EvSignHTTP credential req' hash "execute-api"
                         (Auth.Region config) Now;
                       Auth.EvSocketRoundTrip socket fwd]
                      ++ trace (RoundTrip socket fwd))
               /\ Http.Body fwd = Some rd
               /\ rd = IO.NopCloser (IO.bytes_Reader data)
               /\ IO.ReadAll rd = (data, None)).
Proof.
  intros Hc. cbv zeta.
  split; [apply emptyHash_is_sha256_of_nothing|]. split.
  - intros Hb. pose proof (rebuffer_no_body req Hb) as Hr.
    destruct (SignHTTP credential req Auth.emptyHash "execute-api"
                (Auth.Region config) Now) as [s|err] eqn:Hs.
    + rewrite (RoundTrip_iam_signed config socket req req credential _ s [] Hc Hr Hs).
      simpl. eauto.
    + rewrite (RoundTrip_iam_sign_error config socket req req credential _ err [] Hc Hr Hs).
      simpl. eauto.
  - intros body data Hb Hread.
    pose proof (rebuffer_body req body data Hb Hread) as Hr.
    split; [|split].
    + exists (Observed.drained body).
      split; [exact (proj2 (copy_body_read req body data Hread))|].
      rewrite ReadAll_drained, Hread. reflexivity.
    + destruct (SignHTTP credential (Auth.with_body req (Some (IO.bytes_Reader data)))
                  (Hex.EncodeToString (SHA256.Sum256 data)) "execute-api"
                  (Auth.Region config) Now) as [s|err] eqn:Hs.
      * rewrite (RoundTrip_iam_signed config socket req _ credential _ s _ Hc Hr Hs).
        simpl. eauto.
      * rewrite (RoundTrip_iam_sign_error config socket req _ credential _ err _ Hc Hr Hs).
        simpl. eauto.
    + intros s Hs.
      exists (Auth.with_signed (Auth.with_body req (Some (IO.bytes_Reader data))) s),
             (IO.bytes_Reader data).
      rewrite (RoundTrip_iam_signed config socket req _ credential _ s _ Hc Hr Hs).
      split; [reflexivity|]. split; [reflexivity|]. split; [reflexivity|].
      apply ReadAll_bytes_Reader.
Qed.

(** C5. In the signed transport, a failure to retrieve credentials, a read
    error while the body is copied, and a failure of the signer each end the
    call with that error, and the trace of the call holds no call to the
    inner transport. *)
Theorem iam_failure_reaches_no_socket (config : Auth.aws_Config)
    (socket : Auth.RoundTripper) (req : Http.Request) :
  let run := RoundTrip (Auth.iamTransport config socket) req in
  (forall err,
     Retrieve (Auth.Credentials config) = Err err ->
     value run = Err err /\ Auth.socket_calls (trace run) = [])
  /\ (forall credential body err,
        Retrieve (Auth.Credentials config) = Ok credential ->
        Http.Body req = Some body ->
        snd (IO.ReadAll body) = Some err ->
        value run = Err err /\ Auth.socket_calls (trace run) = [])
  /\ (forall credential hash req' t err,
        Retrieve (Auth.Credentials config) = Ok credential ->
        Auth.rebuffer req = (Ok (hash, req'), t) ->
        SignHTTP credential req' hash "execute-api" (Auth.Region config) Now = Err err ->
        value run = Err err /\ Auth.socket_calls (trace run) = []).
Proof.
  cbv zeta. split; [|split].
  - intros err Hc. rewrite (RoundTrip_iam_no_credentials config socket req err Hc).
    split; reflexivity.
  - intros credential body err Hc Hb Hread.
    rewrite (RoundTrip_iam_rebuffer_error config socket req credential err []
               Hc (rebuffer_read_error req body err Hb Hread)).
    split; reflexivity.
  - intros credential hash req' t err Hc Hr Hs.
    rewrite (RoundTrip_iam_sign_error config socket req req' credential hash err t Hc Hr Hs).
    split; [reflexivity|].
    unfold Auth.rebuffer, Auth.copy_body in Hr.
    destruct (Http.Body req) as [body|].
    + destruct (IO.Copy_Tee body [] SHA256.New) as [[[buf hasher] [e|]] rest];
        inversion Hr; subst; reflexivity.
    + inversion Hr; subst; reflexivity.
Qed.

(** C7 (as amended). Both constructors fail with the missing-URL error, and
    return no transport, when the URL is empty; the signed one makes no call
    to the outside then. With a URL, the shared-secret constructor succeeds
    whatever the access and secret keys are, and the signed one returns a
    transport for the URL or else an error that loading a configuration
    returned. *)
Theorem construction_fails_on_empty_url :
  (forall spec : Auth.ConfigApiKey.t,
     if decide (Auth.ConfigApiKey.Url spec = "")
     then Auth.NewTransportApiKey spec = Err ErrMissingURL
     else exists client,
            Auth.NewTransportApiKey spec
            = Ok {| Auth.Endpoint := Auth.ConfigApiKey.Url spec;
                    Auth.HTTPClient := Some client |})
  /\ (forall spec : Auth.ConfigIAM.t,
        if decide (Auth.ConfigIAM.Url spec = "")
        then Auth.NewTransportIAM LoadDefaultConfig spec = (Err ErrMissingURL, [])
        else match value (Auth.NewTransportIAM LoadDefaultConfig spec) with
             | Ok t => Auth.Endpoint t = Auth.ConfigIAM.Url spec
             | Err e => exists p, LoadDefaultConfig p = Err e
             end).
Proof.
  split.
  - intros spec. unfold Auth.NewTransportApiKey.
    destruct (decide (Auth.ConfigApiKey.Url spec = "")) as [He|Hne].
    + rewrite He. reflexivity.
    + rewrite (bytes_of_string_nonempty _ Hne). eauto.
  - intros spec. unfold Auth.NewTransportIAM.
    destruct (decide (Auth.ConfigIAM.Url spec = "")) as [He|Hne].
    + rewrite He. reflexivity.
    + rewrite (bytes_of_string_nonempty _ Hne).
      destruct (Auth.ConfigIAM.Config spec) as [c|]; simpl.
      * destruct (negb (String.eqb (Auth.ConfigIAM.Role spec) "")); simpl.
        -- destruct (LoadDefaultConfig (Some _)) as [c'|e] eqn:Hl; simpl; eauto.
        -- reflexivity.
      * destruct (LoadDefaultConfig None) as [c|e] eqn:Hl; simpl; [|eauto].
        destruct (negb (String.eqb (Auth.ConfigIAM.Role spec) "")); simpl.
        -- destruct (LoadDefaultConfig (Some _)) as [c'|e] eqn:Hl'; simpl; eauto.
        -- reflexivity.
Qed.

End TransportFacts.

(** C6 at work: access "access", secret "secret", no client of the caller's,
    a request without an Authorization header. *)
Lemma apikey_basic_header_witness :
  let spec := {| Auth.ConfigApiKey.Url := "https://example.com/mcp";
                 Auth.ConfigApiKey.Access := "access";
                 Auth.ConfigApiKey.Secret := "secret";
                 Auth.ConfigApiKey.Client := None |} in
  let req := Fixture.outbound None ∅ in
  let fwd := Auth.with_header req
               (Http.Add (Http.Hdr req) "Authorization" "Basic YWNjZXNzOnNlY3JldA") in
  Auth.ConfigApiKey.Url spec <> ""
  /\ Auth.NewTransportApiKey spec
     = Ok {| Auth.Endpoint := "https://example.com/mcp";
             Auth.HTTPClient :=
               Some {| Auth.Transport :=
                         Some (Auth.apikeyTransport "YWNjZXNzOnNlY3JldA" Auth.DefaultTransport);
                       Auth.Timeout := 0 |} |}
  /\ Auth.socket_calls
       (trace (Auth.RoundTrip Fixture.Retrieve Fixture.SignHTTP 0 Fixture.send
                 (Auth.apikeyTransport "YWNjZXNzOnNlY3JldA" Auth.DefaultTransport) req))
     = [(Auth.DefaultTransport, fwd)]
  /\ Http.Hdr fwd !! "Authorization" = Some ["Basic YWNjZXNzOnNlY3JldA"].
Proof.
  cbv zeta.
  assert (Hurl : Auth.ConfigApiKey.Url
                   {| Auth.ConfigApiKey.Url := "https://example.com/mcp";
                      Auth.ConfigApiKey.Access := "access";
                      Auth.ConfigApiKey.Secret := "secret";
                      Auth.ConfigApiKey.Client := None |} <> "") by discriminate.
  split; [exact Hurl|].
  destruct (apikey_basic_header Fixture.Retrieve Fixture.SignHTTP 0 Fixture.send
              _ (Fixture.outbound None ∅) Hurl) as (Hnew & Hrun & Hhdr & _).
  split; [exact Hnew|]. split.
  - exact (f_equal (fun m => Auth.socket_calls (trace m)) Hrun).
  - exact Hhdr.
Defined.

(** C10 at work: a request that comes with a bearer token. *)
Lemma apikey_appends_authorization_witness :
  let req := Fixture.outbound None {[ "Authorization" := ["Bearer t0ken"] ]} in
  Http.Hdr req !! "Authorization" = Some ["Bearer t0ken"]
  /\ exists fwd,
       Auth.socket_calls
         (trace (Auth.RoundTrip Fixture.Retrieve Fixture.SignHTTP 0 Fixture.send
                   (Auth.apikeyTransport "YWNjZXNzOnNlY3JldA" Auth.DefaultTransport) req))
       = [(Auth.DefaultTransport, fwd)]
       /\ Http.Hdr fwd !! "Authorization"
          = Some ["Bearer t0ken"; "Basic YWNjZXNzOnNlY3JldA"].
Proof.
  cbv zeta.
  assert (Hvs : Http.Hdr (Fixture.outbound None {[ "Authorization" := ["Bearer t0ken"] ]})
                !! "Authorization" = Some ["Bearer t0ken"])
    by apply lookup_singleton_eq.
  split; [exact Hvs|].
  destruct (apikey_appends_authorization Fixture.Retrieve Fixture.SignHTTP 0 Fixture.send
              "YWNjZXNzOnNlY3JldA" Auth.DefaultTransport _ _ Hvs)
    as (fwd & Hrun & Hhdr & _).
  exists fwd. split.
  - exact (f_equal (fun m => Auth.socket_calls (trace m)) Hrun).
  - exact Hhdr.
Defined.

(** C4 at work: a request whose body gives "ab" and then "c" through the
    signed transport. The reader the caller passed is at its end after the
    copy; the inner transport gets a buffer over "abc". *)
Lemma iam_hash_and_restore_witness :
  let config := Auth.mkConfig "eu-west-1" (Auth.Ambient "default") in
  let req := Fixture.outbound (Some Sample.chunked_abc) ∅ in
  let run := Auth.RoundTrip Fixture.Retrieve Fixture.SignHTTP 1700000000 Fixture.send
               (Auth.iamTransport config Auth.DefaultTransport) req in
  (Fixture.Retrieve (Auth.Credentials config) = Ok Fixture.creds
   /\ IO.ReadAll Sample.chunked_abc = (bytes_of_string "abc", None))
  /\ Http.Body (snd (Auth.copy_body req Sample.chunked_abc)) = Some IO.REOF
  /\ Auth.signed_hashes (trace run)
     = ["ba7816bf8f01cfea414140de5dae2223b00361a396177a9cb410ff61f20015ad"]
  /\ (exists fwd rd,
        Auth.socket_calls (trace run) = [(Auth.DefaultTransport, fwd)]
        /\ Http.Body fwd = Some rd
        /\ rd <> Sample.chunked_abc
        /\ IO.ReadAll rd = (bytes_of_string "abc", None))
  /\ exists rest,
       trace (Auth.RoundTrip Fixture.Retrieve Fixture.SignHTTP 1700000000 Fixture.send
                (Auth.iamTransport config Auth.DefaultTransport) (Fixture.outbound None ∅))
       = Auth.EvRetrieve (Auth.Ambient "default")
           :: Auth.EvSignHTTP Fixture.creds (Fixture.outbound None ∅)
                "e3b0c44298fc1c149afbf4c8996fb92427ae41e4649b934ca495991b7852b855"
                "execute-api" "eu-west-1" 1700000000
           :: rest.
Proof.
  cbv zeta. split; [split; reflexivity|].
  assert (Hnone : exists rest,
            trace (Auth.RoundTrip Fixture.Retrieve Fixture.SignHTTP 1700000000 Fixture.send
                     (Auth.iamTransport (Auth.mkConfig "eu-west-1" (Auth.Ambient "default"))
                        Auth.DefaultTransport) (Fixture.outbound None ∅))
            = Auth.EvRetrieve (Auth.Ambient "default")
                :: Auth.EvSignHTTP Fixture.creds (Fixture.outbound None ∅)
                     "e3b0c44298fc1c149afbf4c8996fb92427ae41e4649b934ca495991b7852b855"
                     "execute-api" "eu-west-1" 1700000000
                :: rest).
  { exact (proj1 (proj2 (iam_hash_and_restore Fixture.Retrieve Fixture.SignHTTP 1700000000
                           Fixture.send
                           (Auth.mkConfig "eu-west-1" (Auth.Ambient "default"))
                           Auth.DefaultTransport (Fixture.outbound None ∅)
                           Fixture.creds eq_refl)) eq_refl). }
  destruct (iam_hash_and_restore Fixture.Retrieve Fixture.SignHTTP 1700000000 Fixture.send
              (Auth.mkConfig "eu-west-1" (Auth.Ambient "default")) Auth.DefaultTransport
              (Fixture.outbound (Some Sample.chunked_abc) ∅)
              Fixture.creds eq_refl) as (_ & _ & Hbody).
  destruct (Hbody Sample.chunked_abc (bytes_of_string "abc") eq_refl eq_refl)
    as (_ & _ & Hsigned).
  destruct (Hsigned _ eq_refl) as (fwd & rd & Hrun & Hb & Hrd & Hread).
  split; [reflexivity|]. split; [|split; [|exact Hnone]].
  - exact (f_equal (fun m => Auth.signed_hashes (trace m)) Hrun).
  - exists fwd, rd. split; [|split; [exact Hb|split; [|exact Hread]]].
    + exact (f_equal (fun m => Auth.socket_calls (trace m)) Hrun).
    + rewrite Hrd. discriminate.
Defined.

(** C5 at work: credentials that cannot be retrieved; a body that breaks off
    while it is read; a signer that fails. *)
Lemma iam_failure_reaches_no_socket_witness :
  let config := Auth.mkConfig "eu-west-1" (Auth.Ambient "default") in
  let no_creds := fun _ : Auth.CredentialsProvider =>
                    @Err Auth.aws_Credentials (ErrExternal "no credentials") in
  let no_sign := fun (_ : Auth.aws_Credentials) (_ : Http.Request) (_ _ _ : string) (_ : Z) =>
                   @Err Auth.signed (ErrExternal "cannot sign") in
  let broken := IO.RData (bytes_of_string "ab") (IO.RErr ErrUnexpectedEOF) in
  let run1 := Auth.RoundTrip no_creds Fixture.SignHTTP 0 Fixture.send
                (Auth.iamTransport config Auth.DefaultTransport)
                (Fixture.outbound None ∅) in
  let run2 := Auth.RoundTrip Fixture.Retrieve Fixture.SignHTTP 0 Fixture.send
                (Auth.iamTransport config Auth.DefaultTransport)
                (Fixture.outbound (Some broken) ∅) in
  let run3 := Auth.RoundTrip Fixture.Retrieve no_sign 0 Fixture.send
                (Auth.iamTransport config Auth.DefaultTransport)
                (Fixture.outbound None ∅) in
  (value run1 = Err (ErrExternal "no credentials") /\ Auth.socket_calls (trace run1) = [])
  /\ (value run2 = Err ErrUnexpectedEOF /\ Auth.socket_calls (trace run2) = [])
  /\ (value run3 = Err (ErrExternal "cannot sign") /\ Auth.socket_calls (trace run3) = []).
Proof.
  cbv zeta. split; [|split].
  - apply (iam_failure_reaches_no_socket
             (fun _ => Err (ErrExternal "no credentials")) Fixture.SignHTTP 0 Fixture.send
             (Auth.mkConfig "eu-west-1" (Auth.Ambient "default")) Auth.DefaultTransport
             (Fixture.outbound None ∅)).
    reflexivity.
  - apply (proj1 (proj2 (iam_failure_reaches_no_socket
                           Fixture.Retrieve Fixture.SignHTTP 0 Fixture.send
                           (Auth.mkConfig "eu-west-1" (Auth.Ambient "default"))
                           Auth.DefaultTransport
                           (Fixture.outbound
                              (Some (IO.RData (bytes_of_string "ab") (IO.RErr ErrUnexpectedEOF)))
                              ∅)))
             Fixture.creds
             (IO.RData (bytes_of_string "ab") (IO.RErr ErrUnexpectedEOF)));
      reflexivity.
  - apply (proj2 (proj2 (iam_failure_reaches_no_socket
                           Fixture.Retrieve
                           (fun _ _ _ _ _ _ => Err (ErrExternal "cannot sign")) 0 Fixture.send
                           (Auth.mkConfig "eu-west-1" (Auth.Ambient "default"))
                           Auth.DefaultTransport (Fixture.outbound None ∅)))
             Fixture.creds Auth.emptyHash (Fixture.outbound None ∅) []);
      reflexivity.
Defined.

(** C7 as first stated fails for the shared-secret transport: with a URL and
    with empty access and secret keys the constructor returns a transport,
    whose digest is the encoding of the lone colon, and no error. *)
Lemma empty_keys_are_accepted :
  Auth.NewTransportApiKey
    {| Auth.ConfigApiKey.Url := "https://example.com/mcp";
       Auth.ConfigApiKey.Access := "";
       Auth.ConfigApiKey.Secret := "";
       Auth.ConfigApiKey.Client := None |}
  = Ok {| Auth.Endpoint := "https://example.com/mcp";
          Auth.HTTPClient :=
            Some {| Auth.Transport := Some (Auth.apikeyTransport "Og" Auth.DefaultTransport);
                    Auth.Timeout := 0 |} |}.
Proof. reflexivity. Qed.

(** The signed constructor at work: with a role and no external id it loads
    the default configuration and then one whose credentials come from
    assuming the role, once, and wraps the default transport. *)
Example iam_construction_with_role :
  Auth.NewTransportIAM Fixture.LoadDefaultConfig
    {| Auth.ConfigIAM.Url := "https://example.com/mcp";
       Auth.ConfigIAM.Role := "arn:aws:iam::000000000000:role/mcp";
       Auth.ConfigIAM.ExternalID := "";
       Auth.ConfigIAM.Config := None;
       Auth.ConfigIAM.Client := None |}
  = (let base := Auth.mkConfig "eu-west-1" (Auth.Ambient "default") in
     let provider := Auth.AssumeRoleCache base "arn:aws:iam::000000000000:role/mcp" None in
     (Ok {| Auth.Endpoint := "https://example.com/mcp";
            Auth.HTTPClient :=
              Some {| Auth.Transport :=
                        Some (Auth.iamTransport (Auth.mkConfig "eu-west-1" provider)
                                Auth.DefaultTransport);
                      Auth.Timeout := 0 |} |},
      [Auth.EvLoadDefaultConfig None; Auth.EvLoadDefaultConfig (Some provider)])).
Proof. reflexivity. Qed.

(** ** More on strings and bytes *)

Lemma bytes_string_bytes (b : bytes) : bytes_of_string (string_of_bytes b) = b.
Proof. apply list_byte_of_string_of_list_byte. Qed.

Lemma string_bytes_string (s : string) : string_of_bytes (bytes_of_string s) = s.
Proof. apply string_of_list_byte_of_string. Qed.

Lemma bytes_of_string_app (a b : string) :
  bytes_of_string (a +:+ b) = bytes_of_string a ++ bytes_of_string b.
Proof.
  unfold bytes_of_string, list_byte_of_string.
  induction a as [|c a IH]; simpl; [reflexivity | now rewrite IH].
Qed.

Lemma bytes_of_string_inj (a b : string) :
  bytes_of_string a = bytes_of_string b -> a = b.
Proof.
  intros Heq. rewrite <- (string_bytes_string a), <- (string_bytes_string b).
  now rewrite Heq.
Qed.

Lemma string_of_bytes_app (a b : bytes) :
  string_of_bytes (a ++ b) = string_of_bytes a +:+ string_of_bytes b.
Proof.
  apply bytes_of_string_inj. now rewrite bytes_of_string_app, !bytes_string_bytes.
Qed.

Lemma byte_eqb_false (a b : byte) : a <> b -> Byte.eqb a b = false.
Proof.
  intros Hne. destruct (Byte.eqb a b) eqn:He; [|reflexivity].
  now apply Byte.byte_dec_bl in He.
Qed.

Lemma byte_eqb_refl (a : byte) : Byte.eqb a a = true.
Proof. now apply Byte.byte_dec_lb. Qed.

Lemma string_app_assoc (a b c : string) : (a +:+ b) +:+ c = a +:+ b +:+ c.
Proof.
  apply bytes_of_string_inj. rewrite !bytes_of_string_app. now rewrite app_assoc.
Qed.

Lemma string_app_nil_r (a : string) : a +:+ "" = a.
Proof.
  apply bytes_of_string_inj. rewrite bytes_of_string_app. apply app_nil_r.
Qed.

(** ** More on the base64 body *)

Lemma decoder_single_chunk (b : bytes) :
  b <> [] ->
  let buf := filter (fun c => negb (IO.is_newline c)) b in
  let nr := (length buf / 4 * 4)%nat in
  IO.ReadAll (IO.base64_NewDecoder (IO.bytes_Reader b))
  = match Base64.Decode (take nr buf) with
    | (out, Some e) => (out, Some e)
    | (out, None) =>
        match drop nr buf with
        | [] => (out, None)
        | _ => (out, Some ErrUnexpectedEOF)
        end
    end.
Proof.
  intros Hb. cbv zeta. destruct b as [|x b]; [congruence|].
  unfold IO.base64_NewDecoder, IO.bytes_Reader. cbn [IO.decoder app].
  destruct (Base64.Decode _) as [out [e|]]; cbn [IO.ReadAll].
  - now rewrite app_nil_r.
  - destruct (drop _ _); cbn [IO.decoder IO.ReadAll]; now rewrite app_nil_r.
Qed.

(** X8. Line breaks in a base64 body are skipped: when the body, its carriage
    returns and line feeds left out, is the padded encoding of a payload,
    the request body reads as that payload. *)
Theorem base64_body_ignores_line_breaks (payload : bytes)
    (req : Gateway.APIGatewayProxyRequest) :
  Gateway.IsBase64Encoded req = true ->
  filter (fun c => negb (IO.is_newline c)) (bytes_of_string (Gateway.Body req))
  = Base64.Encode true payload ->
  IO.ReadAll (Gateway.requestBody req) = (payload, None).
Proof.
  intros Hb64 Hbody. unfold Gateway.requestBody, IO.NopCloser, IO.strings_NewReader.
  rewrite Hb64.
  pose proof (Decode_Encode payload) as Hdec.
  destruct (Encode_shape payload) as ([k Hk] & _).
  destruct (bytes_of_string (Gateway.Body req)) as [|x b] eqn:Hbytes.
  - simpl in Hbody. rewrite <- Hbody in Hdec. simpl in Hdec. now injection Hdec as <-.
  - rewrite decoder_single_chunk by discriminate. cbv zeta. rewrite Hbody.
    replace (length (Base64.Encode true payload) / 4 * 4)%nat
      with (length (Base64.Encode true payload))
      by (rewrite Hk, Nat.mul_comm, Nat.div_mul by lia; lia).
    now rewrite firstn_all, drop_all, Hdec.
Qed.

(** X9. A base64 body cut short is reported: when the number of its characters
    that are no line breaks is not a multiple of four, reading the request
    body to the end gives an error, never a clean end. *)
Theorem base64_body_truncated_is_error (req : Gateway.APIGatewayProxyRequest) :
  Gateway.IsBase64Encoded req = true ->
  (length (filter (fun c => negb (IO.is_newline c)) (bytes_of_string (Gateway.Body req)))
   mod 4 <> 0)%nat ->
  exists e, snd (IO.ReadAll (Gateway.requestBody req)) = Some e.
Proof.
  intros Hb64 Hlen. unfold Gateway.requestBody, IO.NopCloser, IO.strings_NewReader.
  rewrite Hb64.
  destruct (bytes_of_string (Gateway.Body req)) as [|x b] eqn:Hbytes;
    [simpl in Hlen; congruence|].
  rewrite decoder_single_chunk by discriminate. cbv zeta.
  set (buf := filter (fun c => negb (IO.is_newline c)) (x :: b)) in *.
  destruct (Base64.Decode _) as [out [e|]]; [eauto|].
  destruct (drop (length buf / 4 * 4) buf) eqn:Hd; [|eauto].
  exfalso. apply (f_equal length) in Hd. rewrite length_drop in Hd.
  change (length (@nil byte)) with 0%nat in Hd.
  pose proof (Nat.div_mod_eq (length buf) 4). lia.
Qed.

(** ** More on the gateway *)

Lemma canonical_step_idem (u : bool) (c : byte) :
  let step := fun c => if u && Http.is_lower c then byte_of_Z (byte_to_Z c - 32)
                       else if negb u && Http.is_upper c then byte_of_Z (byte_to_Z c + 32)
                       else c in
  step (step c) = step c
  /\ (Http.isTokenByte c = true -> Http.isTokenByte (step c) = true).
Proof.
  destruct u; destruct c; vm_compute; split; (reflexivity || (intros H; exact H)).
Qed.

Lemma canonical_bytes_idem (u : bool) (a : bytes) :
  Http.canonical_bytes u (Http.canonical_bytes u a) = Http.canonical_bytes u a.
Proof.
  revert u. induction a as [|c a IH]; intros u; [reflexivity|].
  cbn [Http.canonical_bytes].
  destruct (canonical_step_idem u c) as [Hs _]. cbv zeta beta in Hs.
  rewrite Hs. f_equal. apply IH.
Qed.

Lemma canonical_bytes_token (u : bool) (a : bytes) :
  forallb Http.isTokenByte a = true ->
  forallb Http.isTokenByte (Http.canonical_bytes u a) = true.
Proof.
  revert u. induction a as [|c a IH]; intros u; [reflexivity|].
  cbn [Http.canonical_bytes forallb]. intros Ha.
  apply andb_prop in Ha as [Hc Ha].
  destruct (canonical_step_idem u c) as [_ Ht]. cbv zeta beta in Ht.
  rewrite (Ht Hc). cbn [andb]. now apply IH.
Qed.

Lemma CanonicalMIMEHeaderKey_idem (s : string) :
  Http.CanonicalMIMEHeaderKey (Http.CanonicalMIMEHeaderKey s) = Http.CanonicalMIMEHeaderKey s.
Proof.
  destruct (forallb Http.isTokenByte (bytes_of_string s)) eqn:Ht.
  - assert (Hc : Http.CanonicalMIMEHeaderKey s
                 = string_of_bytes (Http.canonical_bytes true (bytes_of_string s))).
    { unfold Http.CanonicalMIMEHeaderKey. now rewrite Ht. }
    rewrite Hc. unfold Http.CanonicalMIMEHeaderKey. rewrite bytes_string_bytes.
    rewrite (canonical_bytes_token true _ Ht). now rewrite canonical_bytes_idem.
  - assert (Hc : Http.CanonicalMIMEHeaderKey s = s).
    { unfold Http.CanonicalMIMEHeaderKey. now rewrite Ht. }
    now rewrite !Hc.
Qed.

Section MoreGatewayFacts.

Variable Msg : Type.
Variable DecodeMessage : bytes -> result Msg.
Variable url_Parse : string -> result Http.URL.
Variable url_ParseQuery : string -> gmap string (list string).
Variable url_Encode : gmap string (list string) -> string.
Context {C : Type} `{Gateway.Controller C}.

Local Abbreviation Serve := (Gateway.Serve Msg DecodeMessage url_Parse url_ParseQuery url_Encode).
Local Abbreviation serveCtrl := (Gateway.serveCtrl Msg url_Parse url_ParseQuery url_Encode).
Local Abbreviation NewHttpRequest := (Gateway.NewHttpRequest url_Parse url_ParseQuery url_Encode).
Local Abbreviation handler_calls := (Gateway.handler_calls Msg).
Local Abbreviation decoder_calls := (Gateway.decoder_calls Msg).

(** What [NewHttpRequest] returns when it returns a request. *)
Lemma NewHttpRequest_shape (req : Gateway.APIGatewayProxyRequest) (input : Http.Request) :
  NewHttpRequest req = Ok input ->
  exists u,
    url_Parse (Gateway.Path req) = Ok u
    /\ Http.Method input
       = (if String.eqb (Gateway.HTTPMethod req) "" then "GET" else Gateway.HTTPMethod req)
    /\ Http.Hdr input
       = fold_left (fun h kv => Http.Set_ h (fst kv) (snd kv)) (Gateway.Headers req) ∅
    /\ Http.RawQuery (Http.Url input)
       = url_Encode (Observed.query_map url_ParseQuery u (Gateway.QueryStringParameters req))
    /\ Http.Path (Http.Url input) = Http.Path u
    /\ Http.Host input = Gateway.removeEmptyPort (Http.UHost u).
Proof.
  unfold Gateway.NewHttpRequest, Gateway.NewRequestWithContext.
  destruct (Http.validMethod _); simpl; [|discriminate].
  destruct (url_Parse (Gateway.Path req)) as [u|e]; [|discriminate].
  intros [= <-]. exists u. simpl. repeat split.
Qed.

Lemma fold_Set_lookup (key : string) (hs : list (string * string)) (h : Http.Header)
    (acc : option string) :
  h !! key = (fun v => [v]) <$> acc ->
  fold_left (fun h kv => Http.Set_ h (fst kv) (snd kv)) hs h !! key
  = (fun v => [v]) <$> Observed.last_header key hs acc.
Proof.
  revert h acc. induction hs as [|[k v] hs IH]; intros h acc Hh; [exact Hh|].
  simpl. apply IH. unfold Http.Set_.
  destruct (decide (Http.CanonicalMIMEHeaderKey k = key)) as [->|Hne].
  - now rewrite lookup_insert_eq.
  - now rewrite lookup_insert_ne.
Qed.

Lemma last_header_canonical (key : string) (hs : list (string * string))
    (acc : option string) (v : string) :
  Observed.last_header key hs acc = Some v ->
  acc = Some v \/ exists k, (k, v) ∈ hs /\ Http.CanonicalMIMEHeaderKey k = key.
Proof.
  revert acc. induction hs as [|[k w] hs IH]; intros acc Hl; [now left|].
  simpl in Hl. apply IH in Hl as [Hl|(k' & Hin & Hk)].
  - destruct (decide (Http.CanonicalMIMEHeaderKey k = key)) as [Hk|Hne].
    + injection Hl as ->. right. exists k. split; [apply list_elem_of_here | exact Hk].
    + now left.
  - right. exists k'. split; [now apply list_elem_of_further | exact Hk].
Qed.

(** X4. The headers of the request built from an event: under each key the map
    holds exactly one value, that of the last event header whose name
    canonicalises to the key, and nothing under a key no header name
    canonicalises to; so [Header.Get] with any spelling of a name returns
    the value of the last event header with that canonical name. *)
Theorem request_headers_last_write_wins (req : Gateway.APIGatewayProxyRequest)
    (input : Http.Request) :
  NewHttpRequest req = Ok input ->
  (forall key,
     Http.Hdr input !! key
     = (fun v => [v]) <$> Observed.last_header key (Gateway.Headers req) None)
  /\ (forall name,
        Http.Get (Http.Hdr input) name
        = default "" (Observed.last_header (Http.CanonicalMIMEHeaderKey name)
                        (Gateway.Headers req) None)).
Proof.
  intros Hin. destruct (NewHttpRequest_shape req input Hin) as (u & _ & _ & Hh & _).
  assert (Hl : forall key,
             Http.Hdr input !! key
             = (fun v => [v]) <$> Observed.last_header key (Gateway.Headers req) None).
  { intros key. rewrite Hh. apply fold_Set_lookup. now rewrite lookup_empty. }
  split; [exact Hl|].
  intros name. unfold Http.Get, Http.Values. rewrite Hl.
  destruct (Observed.last_header _ _ None); reflexivity.
Qed.

(** X5. Every key of the built request's header map is in canonical form:
    canonicalising it again gives the key itself. *)
Theorem request_header_keys_canonical (req : Gateway.APIGatewayProxyRequest)
    (input : Http.Request) (key : string) (vs : list string) :
  NewHttpRequest req = Ok input ->
  Http.Hdr input !! key = Some vs ->
  Http.CanonicalMIMEHeaderKey key = key
  /\ exists k v, (k, v) ∈ Gateway.Headers req
                 /\ Http.CanonicalMIMEHeaderKey k = key /\ vs = [v].
Proof.
  intros Hin Hk. destruct (NewHttpRequest_shape req input Hin) as (u & _ & _ & Hh & _).
  rewrite Hh, (fold_Set_lookup key _ ∅ None) in Hk by now rewrite lookup_empty.
  destruct (Observed.last_header key (Gateway.Headers req) None) as [v|] eqn:Hl;
    [|discriminate].
  injection Hk as <-.
  apply last_header_canonical in Hl as [Hl|(k & Hin' & Hc)]; [discriminate|].
  split; [|eauto].
  rewrite <- Hc. apply CanonicalMIMEHeaderKey_idem.
Qed.

Lemma fold_Values_Add_lookup (key : string) (qs : list (string * string))
    (q : gmap string (list string)) :
  default [] (fold_left (fun q kv => Gateway.Values_Add q (fst kv) (snd kv)) qs q !! key)
  = Observed.query_values key qs (default [] (q !! key)).
Proof.
  revert q. induction qs as [|[k v] qs IH]; intros q; [reflexivity|].
  simpl. rewrite IH. f_equal. unfold Gateway.Values_Add.
  destruct (decide (k = key)) as [->|Hne].
  - now rewrite lookup_insert_eq.
  - now rewrite lookup_insert_ne.
Qed.

(** X6. The query of the built request is the encoding of a map that holds,
    under each key, the values the target's own query had there followed by
    the event's query parameters of that name, in the order of the range. *)
Theorem request_query_appends (req : Gateway.APIGatewayProxyRequest)
    (input : Http.Request) :
  NewHttpRequest req = Ok input ->
  exists u q,
    url_Parse (Gateway.Path req) = Ok u
    /\ Http.RawQuery (Http.Url input) = url_Encode q
    /\ forall key,
         default [] (q !! key)
         = Observed.query_values key (Gateway.QueryStringParameters req)
             (default [] (url_ParseQuery (Http.RawQuery u) !! key)).
Proof.
  intros Hin. destruct (NewHttpRequest_shape req input Hin) as (u & Hu & _ & _ & Hq & _).
  exists u, (Observed.query_map url_ParseQuery u (Gateway.QueryStringParameters req)).
  split; [exact Hu|]. split; [exact Hq|].
  intros key. apply fold_Values_Add_lookup.
Qed.

(** X3. An event with an empty method is not taken for a GET by [Serve], but the
    request built from it is a GET: when its target parses and its body is
    empty or decodes, the handler is invoked, once, with a GET request. *)
Theorem empty_method_reaches_handler_as_GET (gw : Gateway.Gateway C)
    (req : Gateway.APIGatewayProxyRequest) (u : Http.URL) :
  Gateway.HTTPMethod req = "" ->
  url_Parse (Gateway.Path req) = Ok u ->
  Gateway.Body req = ""
  \/ (exists msg, DecodeMessage (bytes_of_string (Gateway.Body req)) = Ok msg) ->
  exists input,
    handler_calls (trace (Serve gw req)) = [input]
    /\ Http.Method input = "GET"
    /\ value (Serve gw req)
       = Ok (Gateway.Value (Gateway.apply_calls Gateway.NewHttpResponse
                              (Gateway.ServeHTTP (Gateway.ctrl gw) input))).
Proof.
  intros Hm Hu Hbody.
  assert (Hin : exists input, NewHttpRequest req = Ok input /\ Http.Method input = "GET").
  { unfold Gateway.NewHttpRequest, Gateway.NewRequestWithContext.
    rewrite Hm, Hu. simpl. eauto. }
  destruct Hin as (input & Hin & Hget). exists input.
  assert (Hne : Gateway.HTTPMethod req <> "GET") by (rewrite Hm; discriminate).
  destruct (decide (Gateway.Body req = "")) as [He|Hnb].
  - assert (HS : Serve gw req = serveCtrl gw req).
    { unfold Gateway.Serve. rewrite Hm, He. reflexivity. }
    rewrite HS, (serveCtrl_ok Msg url_Parse url_ParseQuery url_Encode gw req input Hin).
    repeat split; assumption.
  - destruct Hbody as [He|[msg Hdec]]; [contradiction|].
    rewrite (Serve_decoded Msg DecodeMessage url_Parse url_ParseQuery url_Encode
               gw req msg Hne Hnb Hdec).
    rewrite (serveCtrl_ok Msg url_Parse url_ParseQuery url_Encode gw req input Hin).
    repeat split; assumption.
Qed.

Lemma Value_status_nonzero (w : Gateway.writer) :
  Gateway.StatusCode (Gateway.Value w) <> 0.
Proof.
  unfold Gateway.Value. simpl.
  destruct (Gateway.code w =? 0) eqn:Hc; [discriminate|].
  now apply Z.eqb_neq.
Qed.

(** X7. The outcomes of [Serve], for every event. The decoder is called at most
    once, and only for a method other than GET and a non-empty body. An error
    is returned without the handler having been invoked. A response is
    either the 405 answer to a GET, again without the handler, or the
    recorder's value after exactly one invocation of the handler with the
    request built from the event; its status is never 0. *)
Theorem serve_outcomes (gw : Gateway.Gateway C) (req : Gateway.APIGatewayProxyRequest) :
  (decoder_calls (trace (Serve gw req)) = []
   \/ (decoder_calls (trace (Serve gw req)) = [bytes_of_string (Gateway.Body req)]
       /\ Gateway.HTTPMethod req <> "GET" /\ Gateway.Body req <> ""))
  /\ match value (Serve gw req) with
     | Err e => handler_calls (trace (Serve gw req)) = []
     | Ok resp =>
         Gateway.StatusCode resp <> 0
         /\ ((Gateway.HTTPMethod req = "GET"
              /\ Gateway.StatusCode resp = 405
              /\ handler_calls (trace (Serve gw req)) = [])
             \/ (Gateway.HTTPMethod req <> "GET"
                 /\ exists input,
                      NewHttpRequest req = Ok input
                      /\ handler_calls (trace (Serve gw req)) = [input]
                      /\ resp = Gateway.Value
                                  (Gateway.apply_calls Gateway.NewHttpResponse
                                     (Gateway.ServeHTTP (Gateway.ctrl gw) input))))
     end.
Proof.
  assert (Hctrl : forall pre,
            handler_calls pre = [] ->
            match value (serveCtrl gw req) with
            | Err e => handler_calls (pre ++ trace (serveCtrl gw req)) = []
            | Ok resp =>
                Gateway.StatusCode resp <> 0
                /\ exists input,
                     NewHttpRequest req = Ok input
                     /\ handler_calls (pre ++ trace (serveCtrl gw req)) = [input]
                     /\ resp = Gateway.Value
                                 (Gateway.apply_calls Gateway.NewHttpResponse
                                    (Gateway.ServeHTTP (Gateway.ctrl gw) input))
            end).
  { intros pre Hpre.
    destruct (NewHttpRequest req) as [input|e] eqn:Hin.
    - rewrite (serveCtrl_ok Msg url_Parse url_ParseQuery url_Encode gw req input Hin).
      simpl. split; [apply Value_status_nonzero|].
      exists input. unfold Gateway.handler_calls in *.
      rewrite omap_app, Hpre. repeat split.
    - rewrite (serveCtrl_err Msg url_Parse url_ParseQuery url_Encode gw req e Hin).
      simpl. unfold Gateway.handler_calls in *. now rewrite omap_app, Hpre. }
  assert (Hdecs : decoder_calls (trace (serveCtrl gw req)) = []).
  { destruct (NewHttpRequest req) as [input|e] eqn:Hin.
    - now rewrite (serveCtrl_ok Msg url_Parse url_ParseQuery url_Encode gw req input Hin).
    - now rewrite (serveCtrl_err Msg url_Parse url_ParseQuery url_Encode gw req e Hin). }
  destruct (decide (Gateway.HTTPMethod req = "GET")) as [Hget|Hget].
  - assert (HS : Serve gw req
                 = (Ok {| Gateway.StatusCode := 405; Gateway.RespHeaders := None;
                          Gateway.MultiValueHeaders := None; Gateway.RespBody := "";
                          Gateway.RespIsBase64Encoded := false |}, [])).
    { unfold Gateway.Serve. rewrite Hget. reflexivity. }
    rewrite HS. simpl. split; [now left|]. split; [discriminate|]. left. auto.
  - destruct (decide (Gateway.Body req = "")) as [Hb|Hb].
    + assert (HS : Serve gw req = serveCtrl gw req).
      { unfold Gateway.Serve. apply String.eqb_neq in Hget. rewrite Hget, Hb. reflexivity. }
      rewrite HS. split; [now left|].
      specialize (Hctrl [] eq_refl). simpl in Hctrl.
      destruct (value (serveCtrl gw req)) as [resp|e]; [|exact Hctrl].
      destruct Hctrl as [Hs Hi]. split; [exact Hs|]. right. auto.
    + destruct (DecodeMessage (bytes_of_string (Gateway.Body req))) as [msg|e] eqn:Hdec.
      * rewrite (Serve_decoded Msg DecodeMessage url_Parse url_ParseQuery url_Encode
                   gw req msg Hget Hb Hdec).
        split.
        { right. split; [|auto]. unfold trace, Gateway.decoder_calls in *. simpl.
          f_equal. exact Hdecs. }
        specialize (Hctrl [Gateway.EvDecodeMessage Msg (bytes_of_string (Gateway.Body req));
                           Gateway.EvSlogDebug Msg "received json-rpc message" msg] eq_refl).
        simpl in Hctrl. simpl.
        destruct (value (serveCtrl gw req)) as [resp|e]; [|exact Hctrl].
        destruct Hctrl as [Hs Hi]. split; [exact Hs|]. right. auto.
      * assert (HS : Serve gw req
                     = (Err e,
                        [Gateway.EvDecodeMessage Msg (bytes_of_string (Gateway.Body req));
                         Gateway.EvSlogError Msg "bad json-rpc message" e])).
        { unfold Gateway.Serve. apply String.eqb_neq in Hget.
          rewrite Hget, (bytes_of_string_nonempty _ Hb), Hdec. reflexivity. }
        rewrite HS. simpl. split; [right; auto | reflexivity].
Qed.

End MoreGatewayFacts.

(** ** More on the shared-secret transport *)

(** The unpadded encoding against the padded one, and its length. *)
Lemma Encode_raw_padded (src : bytes) :
  exists k r,
    length src = (3 * k + r)%nat /\ (r < 3)%nat
    /\ Base64.Encode true src
       = Base64.Encode false src ++ repeat Base64.StdPadding ((3 - r) mod 3)
    /\ length (Base64.Encode false src)
       = (4 * k + match r with O => 0 | 1 => 2 | _ => 3 end)%nat
    /\ Forall (fun c => Base64.in_alphabet c = true) (Base64.Encode false src).
Proof.
  induction src as [|a|a b|a b c l (k & r & Hl & Hr & Hp & Hn & Ha)] using list_ind3.
  - exists 0%nat, 0%nat. repeat split; try lia. constructor.
  - exists 0%nat, 1%nat. repeat split; try lia.
    cbn [Base64.Encode app]. repeat constructor; apply alphabet_at, sextet_range; lia.
  - exists 0%nat, 2%nat. repeat split; try lia.
    cbn [Base64.Encode app]. repeat constructor; apply alphabet_at, sextet_range; lia.
  - exists (S k), r. split; [cbn [length]; lia|]. split; [exact Hr|].
    split; [cbn [Base64.Encode]; rewrite Hp; reflexivity|].
    split; [cbn [Base64.Encode length]; rewrite Hn; lia|].
    cbn [Base64.Encode].
    repeat (constructor; [apply alphabet_at;
                          first [apply sextet_range; lia | apply sextet_low_range]|]).
    exact Ha.
Qed.

Lemma Encode_raw_inj (s1 s2 : bytes) :
  Base64.Encode false s1 = Base64.Encode false s2 -> s1 = s2.
Proof.
  intros Heq.
  destruct (Encode_raw_padded s1) as (k1 & r1 & _ & Hr1 & Hp1 & Hn1 & _).
  destruct (Encode_raw_padded s2) as (k2 & r2 & _ & Hr2 & Hp2 & Hn2 & _).
  rewrite Heq in Hn1. rewrite Hn1 in Hn2.
  assert (Hr : r1 = r2).
  { destruct r1 as [|[|[|r1]]], r2 as [|[|[|r2]]]; lia. }
  subst r2. rewrite Heq in Hp1. rewrite <- Hp2 in Hp1.
  pose proof (Decode_Encode s1) as H1. pose proof (Decode_Encode s2) as H2.
  rewrite Hp1, H2 in H1. now injection H1.
Qed.

Lemma NewTransportApiKey_ok (spec : Auth.ConfigApiKey.t) :
  Auth.ConfigApiKey.Url spec <> "" ->
  Auth.NewTransportApiKey spec
  = Ok {| Auth.Endpoint := Auth.ConfigApiKey.Url spec;
          Auth.HTTPClient :=
            Some (Auth.install (Auth.ConfigApiKey.Client spec)
                    (Auth.apikeyTransport
                       (Base64.RawStdEncoding_EncodeToString
                          (bytes_of_string (Auth.ConfigApiKey.Access spec +:+ ":"
                                            +:+ Auth.ConfigApiKey.Secret spec)))
                       (Auth.inner_socket (Auth.ConfigApiKey.Client spec)))) |}.
Proof.
  intros Hurl. unfold Auth.NewTransportApiKey.
  now rewrite (bytes_of_string_nonempty _ Hurl).
Qed.

(** X10. The digest of a constructed shared-secret transport is made of characters
    of the base64 alphabet only, so it never holds the padding character; it
    is the standard padded encoding of access ":" secret with the padding
    left off (none, one or two characters, filling the length of the
    credentials to a multiple of three), and with the padding put back it
    decodes to access ":" secret. *)
Theorem apikey_digest_unpadded (spec : Auth.ConfigApiKey.t) :
  Auth.ConfigApiKey.Url spec <> "" ->
  let cred := bytes_of_string (Auth.ConfigApiKey.Access spec +:+ ":"
                               +:+ Auth.ConfigApiKey.Secret spec) in
  exists t digest n,
    Auth.NewTransportApiKey spec = Ok t
    /\ Observed.digest_of t = Some digest
    /\ Forall (fun c => Base64.in_alphabet c = true) (bytes_of_string digest)
    /\ (Base64.StdPadding ∉ bytes_of_string digest)
    /\ (n <= 2)%nat /\ ((length cred + n) mod 3 = 0)%nat
    /\ Base64.Encode true cred = bytes_of_string digest ++ repeat Base64.StdPadding n
    /\ Base64.Decode (bytes_of_string digest ++ repeat Base64.StdPadding n) = (cred, None).
Proof.
  intros Hurl cred.
  destruct (Encode_raw_padded cred) as (k & r & Hl & Hr & Hp & _ & Ha).
  eexists _, _, ((3 - r) mod 3)%nat.
  split; [apply (NewTransportApiKey_ok spec Hurl)|].
  split; [reflexivity|].
  unfold Base64.RawStdEncoding_EncodeToString. rewrite bytes_string_bytes. fold cred.
  split; [exact Ha|]. split.
  { intros Hin. rewrite Forall_forall in Ha. apply Ha in Hin. discriminate Hin. }
  split; [destruct r as [|[|[|r]]]; simpl; lia|].
  split.
  { rewrite Hl. destruct r as [|[|[|r]]]; try lia.
    - replace (3 * k + 0 + (3 - 0) mod 3)%nat with (k * 3)%nat by (simpl; lia).
      apply Nat.Div0.mod_mul.
    - replace (3 * k + 1 + (3 - 1) mod 3)%nat with ((k + 1) * 3)%nat by (simpl; lia).
      apply Nat.Div0.mod_mul.
    - replace (3 * k + 2 + (3 - 2) mod 3)%nat with ((k + 1) * 3)%nat by (simpl; lia).
      apply Nat.Div0.mod_mul. }
  split; [exact Hp|]. rewrite <- Hp. apply Decode_Encode.
Qed.

(** The digest tells the credentials apart, and colon-free access keys tell
    access key and secret apart. *)
Lemma digest_eq_iff (c1 c2 : string) :
  Base64.RawStdEncoding_EncodeToString (bytes_of_string c1)
  = Base64.RawStdEncoding_EncodeToString (bytes_of_string c2)
  <-> c1 = c2.
Proof.
  split; [|now intros ->].
  intros Heq. unfold Base64.RawStdEncoding_EncodeToString in Heq.
  apply (f_equal bytes_of_string) in Heq. rewrite !bytes_string_bytes in Heq.
  now apply bytes_of_string_inj, Encode_raw_inj.
Qed.

Lemma colon_free_split (a1 s1 a2 s2 : string) :
  Observed.colon_free a1 -> Observed.colon_free a2 ->
  a1 +:+ ":" +:+ s1 = a2 +:+ ":" +:+ s2 ->
  a1 = a2 /\ s1 = s2.
Proof.
  intros Hc1 Hc2 Hd.
  apply (f_equal bytes_of_string) in Hd. rewrite !bytes_of_string_app in Hd.
  change (bytes_of_string ":") with [x3a] in Hd. simpl in Hd.
  apply not_elem_of_app_cons_inv_l in Hd as (Ha & _ & Hs); [|exact Hc2|exact Hc1].
  split; now apply bytes_of_string_inj.
Qed.

(** The constructor on a store, step by step. *)
Lemma Shared_NewTransportApiKey_ok (spec : Shared.ConfigApiKey) (h : Shared.store) :
  (forall p, Shared.Client spec = Some p -> is_Some (h !! p)) ->
  forall t h',
  Shared.NewTransportApiKey spec h = (Ok t, h') ->
  let digest := Base64.RawStdEncoding_EncodeToString
                  (bytes_of_string (Shared.Access spec +:+ ":" +:+ Shared.Secret spec)) in
  Shared.Endpoint t = Shared.Url spec
  /\ Shared.digest_at h' t = Some digest
  /\ (Shared.HTTPClient t < length h')%nat
  /\ (length h <= length h')%nat
  /\ (forall q, q <> Shared.HTTPClient t -> (q < length h)%nat -> h' !! q = h !! q)
  /\ match Shared.Client spec with
     | Some p => Shared.HTTPClient t = p /\ length h' = length h
     | None => Shared.HTTPClient t = length h
     end.
Proof.
  intros Hwf t h' Hnew. cbv zeta. unfold Shared.NewTransportApiKey in Hnew.
  destruct (_ =? _)%nat; [discriminate Hnew|].
  destruct (Shared.Client spec) as [p|] eqn:Hp.
  - injection Hnew as <- <-.
    destruct (Hwf p eq_refl) as [c Hc].
    unfold Shared.digest_at, Shared.pointee.
    cbn [Shared.HTTPClient Shared.Endpoint mbind option_bind].
    rewrite list_lookup_alter_eq, Hc, length_alter.
    split; [reflexivity|]. split; [reflexivity|].
    split; [now apply lookup_lt_Some in Hc|]. split; [lia|].
    split; [|split; reflexivity].
    intros q Hq _. apply list_lookup_alter_ne. congruence.
  - injection Hnew as <- <-.
    unfold Shared.digest_at, Shared.pointee.
    cbn [Shared.HTTPClient Shared.Endpoint mbind option_bind].
    rewrite list_lookup_alter_eq, lookup_app_r, Nat.sub_diag, length_alter, length_app
      by lia.
    cbn [length].
    split; [reflexivity|]. split; [reflexivity|]. split; [lia|]. split; [lia|].
    split; [|reflexivity].
    intros q Hq Hlt. rewrite list_lookup_alter_ne by congruence.
    now apply lookup_app_l.
Qed.

(** The constructor on a store does to the client behind the pointer what
    the constructor on a client does to the client. *)
Lemma NewTransportApiKey_in_store (spec : Shared.ConfigApiKey) (h : Shared.store) :
  (forall p, Shared.Client spec = Some p -> is_Some (h !! p)) ->
  match Shared.NewTransportApiKey spec h with
  | (Ok t, h') => Auth.NewTransportApiKey (Shared.spec_in h spec) = Ok (Shared.transport_in h' t)
  | (Err e, h') => Auth.NewTransportApiKey (Shared.spec_in h spec) = Err e /\ h' = h
  end.
Proof.
  intros Hwf. unfold Shared.NewTransportApiKey, Auth.NewTransportApiKey. simpl.
  destruct (_ =? _)%nat; [split; reflexivity|].
  destruct (Shared.Client spec) as [p|] eqn:Hp; simpl.
  - destruct (Hwf p eq_refl) as [c Hc].
    unfold Shared.transport_in, Shared.pointee.
    cbn [Shared.HTTPClient Shared.Endpoint mbind option_bind].
    rewrite list_lookup_alter_eq, Hc. reflexivity.
  - unfold Shared.transport_in, Shared.pointee.
    cbn [Shared.HTTPClient Shared.Endpoint mbind option_bind].
    rewrite list_lookup_alter_eq, lookup_app_r, Nat.sub_diag by lia. reflexivity.
Qed.

(** X11. Two shared-secret transports constructed one after the other. The
    digest each construction installs tells the credentials: the two digests
    are equal exactly when access ":" secret is the same string for both,
    and when neither access key holds a colon that is when access key and
    secret are the same. What the first transport holds afterwards depends
    on the clients: constructed over the client of the first, the second
    shares that client, and the first holds the digest of the second from
    then on, whatever the credentials; constructed over another client, or
    over none, the second has a client of its own and the first keeps its
    digest. *)
Theorem apikey_digest_injective (spec1 spec2 : Shared.ConfigApiKey)
    (h0 h1 h2 : Shared.store) (t1 t2 : Shared.StreamableClientTransport) :
  (forall p, Shared.Client spec1 = Some p -> is_Some (h0 !! p)) ->
  (forall p, Shared.Client spec2 = Some p -> is_Some (h1 !! p)) ->
  Shared.NewTransportApiKey spec1 h0 = (Ok t1, h1) ->
  Shared.NewTransportApiKey spec2 h1 = (Ok t2, h2) ->
  exists d1 d2,
    Shared.digest_at h1 t1 = Some d1
    /\ Shared.digest_at h2 t2 = Some d2
    /\ (d1 = d2
        <-> Shared.Access spec1 +:+ ":" +:+ Shared.Secret spec1
            = Shared.Access spec2 +:+ ":" +:+ Shared.Secret spec2)
    /\ (Observed.colon_free (Shared.Access spec1) ->
        Observed.colon_free (Shared.Access spec2) ->
        d1 = d2 ->
        Shared.Access spec1 = Shared.Access spec2
        /\ Shared.Secret spec1 = Shared.Secret spec2)
    /\ if decide (Shared.Client spec2 = Some (Shared.HTTPClient t1))
       then Shared.HTTPClient t2 = Shared.HTTPClient t1
            /\ Shared.digest_at h2 t1 = Some d2
       else Shared.HTTPClient t2 <> Shared.HTTPClient t1
            /\ Shared.digest_at h2 t1 = Some d1.
Proof.
  intros Hwf1 Hwf2 H1 H2.
  destruct (Shared_NewTransportApiKey_ok spec1 h0 Hwf1 t1 h1 H1)
    as (_ & Hd1 & Hlt1 & _ & _ & _).
  destruct (Shared_NewTransportApiKey_ok spec2 h1 Hwf2 t2 h2 H2)
    as (_ & Hd2 & _ & _ & Hsame & Hp2).
  eexists _, _. split; [exact Hd1|]. split; [exact Hd2|].
  split; [apply digest_eq_iff|].
  split.
  { intros Hc1 Hc2 Hd. apply (proj1 (digest_eq_iff _ _)) in Hd. exact (colon_free_split _ _ _ _ Hc1 Hc2 Hd). }
  destruct (decide (Shared.Client spec2 = Some (Shared.HTTPClient t1))) as [Hsh|Hsh].
  - rewrite Hsh in Hp2. destruct Hp2 as [Hp2 _]. split; [exact Hp2|].
    unfold Shared.digest_at in *. rewrite <- Hp2. exact Hd2.
  - assert (Hne : Shared.HTTPClient t2 <> Shared.HTTPClient t1).
    { destruct (Shared.Client spec2) as [p|].
      - destruct Hp2 as [-> _]. congruence.
      - rewrite Hp2. lia. }
    split; [exact Hne|].
    unfold Shared.digest_at in *.
    rewrite (Hsame (Shared.HTTPClient t1));
      [exact Hd1 | intros He; apply Hne; now rewrite He | exact Hlt1].
Qed.

(** X12. A colon in the access key makes the credentials ambiguous: the access key
    [a:b] with secret [c] and the access key [a] with secret [b:c] give the
    same digest, hence the same Authorization value. *)
Theorem apikey_colon_ambiguity (url a b c : string) (client : option Auth.http_Client) :
  Auth.NewTransportApiKey
    {| Auth.ConfigApiKey.Url := url; Auth.ConfigApiKey.Access := a +:+ ":" +:+ b;
       Auth.ConfigApiKey.Secret := c; Auth.ConfigApiKey.Client := client |}
  = Auth.NewTransportApiKey
      {| Auth.ConfigApiKey.Url := url; Auth.ConfigApiKey.Access := a;
         Auth.ConfigApiKey.Secret := b +:+ ":" +:+ c; Auth.ConfigApiKey.Client := client |}.
Proof.
  unfold Auth.NewTransportApiKey. simpl.
  assert (Heq : (a +:+ ":" +:+ b) +:+ ":" +:+ c = a +:+ ":" +:+ b +:+ ":" +:+ c).
  { apply bytes_of_string_inj. rewrite !bytes_of_string_app. now rewrite <- !app_assoc. }
  now rewrite Heq.
Qed.

Section MoreTransportFacts.

Variable LoadDefaultConfig : option Auth.CredentialsProvider -> result Auth.aws_Config.
Variable Retrieve : Auth.CredentialsProvider -> result Auth.aws_Credentials.
Variable SignHTTP :
  Auth.aws_Credentials -> Http.Request -> string -> string -> string -> Z -> result Auth.signed.
Variable Now : Z.
Variable send : Auth.RoundTripper -> Http.Request -> result Http.Response.

Local Abbreviation RoundTrip := (Auth.RoundTrip Retrieve SignHTTP Now send).

(** X13. A client that already carries a shared-secret transport, handed to the
    constructor again, gets a transport around that transport: a round trip
    then adds the new digest and, after it, the old one, and the innermost
    transport is the one the first constructor found. *)
Theorem apikey_transports_stack (spec1 spec2 : Auth.ConfigApiKey.t)
    (t1 : Auth.StreamableClientTransport) (req : Http.Request) :
  Auth.NewTransportApiKey spec1 = Ok t1 ->
  Auth.ConfigApiKey.Client spec2 = Auth.HTTPClient t1 ->
  Auth.ConfigApiKey.Url spec2 <> "" ->
  exists t2 d1 d2 fwd1 fwd2,
    let inner := Auth.inner_socket (Auth.ConfigApiKey.Client spec1) in
    Auth.NewTransportApiKey spec2 = Ok t2
    /\ Observed.digest_of t1 = Some d1
    /\ Observed.round_tripper_of t2
       = Some (Auth.apikeyTransport d2 (Auth.apikeyTransport d1 inner))
    /\ RoundTrip (Auth.apikeyTransport d2 (Auth.apikeyTransport d1 inner)) req
       = (value (RoundTrip inner fwd2),
          Auth.EvSocketRoundTrip (Auth.apikeyTransport d1 inner) fwd1
            :: Auth.EvSocketRoundTrip inner fwd2 :: trace (RoundTrip inner fwd2))
    /\ Http.Hdr fwd2 !! "Authorization"
       = Some (default [] (Http.Hdr req !! "Authorization")
               ++ ["Basic " +:+ d2; "Basic " +:+ d1]).
Proof.
  intros H1 Hc Hu2.
  assert (Hu1 : Auth.ConfigApiKey.Url spec1 <> "").
  { intros He. unfold Auth.NewTransportApiKey in H1. rewrite He in H1. discriminate. }
  rewrite (NewTransportApiKey_ok spec1 Hu1) in H1. injection H1 as <-.
  simpl in Hc.
  set (d1 := Base64.RawStdEncoding_EncodeToString
               (bytes_of_string (Auth.ConfigApiKey.Access spec1 +:+ ":"
                                 +:+ Auth.ConfigApiKey.Secret spec1))) in *.
  set (d2 := Base64.RawStdEncoding_EncodeToString
               (bytes_of_string (Auth.ConfigApiKey.Access spec2 +:+ ":"
                                 +:+ Auth.ConfigApiKey.Secret spec2))).
  set (inner := Auth.inner_socket (Auth.ConfigApiKey.Client spec1)) in *.
  set (fwd1 := Auth.with_header req
                 (Http.Add (Http.Hdr req) "Authorization" ("Basic " +:+ d2))).
  set (fwd2 := Auth.with_header fwd1
                 (Http.Add (Http.Hdr fwd1) "Authorization" ("Basic " +:+ d1))).
  eexists _, d1, d2, fwd1, fwd2. cbv zeta.
  split; [apply (NewTransportApiKey_ok spec2 Hu2)|].
  split; [reflexivity|]. split.
  { unfold Observed.round_tripper_of. simpl. rewrite Hc. reflexivity. }
  split.
  { rewrite (RoundTrip_apikey Retrieve SignHTTP Now send d2 _ req). fold fwd1.
    rewrite (RoundTrip_apikey Retrieve SignHTTP Now send d1 inner fwd1). fold fwd2.
    reflexivity. }
  subst fwd2. simpl Http.Hdr. rewrite Add_Authorization_lookup.
  subst fwd1. simpl Http.Hdr. rewrite Add_Authorization_lookup. simpl.
  now rewrite <- app_assoc.
Qed.

(** The signed-request constructor, with a URL. Without a role and with a
    configuration of the caller's it calls nothing outside, cannot fail, and
    uses that configuration as it is, whatever the external id. With a role
    it loads, on top of the base configuration (the caller's, or the default
    one, loaded first), exactly one configuration whose credentials come
    from assuming the role, with the external id only if that is not empty;
    the transport holds what that load returned. When loading the default
    configuration fails, the role is never assumed. *)
Lemma iam_construction (spec : Auth.ConfigIAM.t) :
  Auth.ConfigIAM.Url spec <> "" ->
  let run := Auth.NewTransportIAM LoadDefaultConfig spec in
  let ext := if String.eqb (Auth.ConfigIAM.ExternalID spec) ""
             then None else Some (Auth.ConfigIAM.ExternalID spec) in
  let finish := fun conf =>
    Ok {| Auth.Endpoint := Auth.ConfigIAM.Url spec;
          Auth.HTTPClient :=
            Some (Auth.install (Auth.ConfigIAM.Client spec)
                    (Auth.iamTransport conf (Auth.inner_socket (Auth.ConfigIAM.Client spec)))) |} in
  let assume := fun base pre =>
    let provider := Auth.AssumeRoleCache base (Auth.ConfigIAM.Role spec) ext in
    run = (match LoadDefaultConfig (Some provider) with
           | Ok conf => finish conf
           | Err e => Err e
           end,
           pre ++ [Auth.EvLoadDefaultConfig (Some provider)]) in
  match Auth.ConfigIAM.Config spec with
  | Some c =>
      if String.eqb (Auth.ConfigIAM.Role spec) "" then run = (finish c, [])
      else assume c []
  | None =>
      match LoadDefaultConfig None with
      | Err e => run = (Err e, [Auth.EvLoadDefaultConfig None])
      | Ok c =>
          if String.eqb (Auth.ConfigIAM.Role spec) ""
          then run = (finish c, [Auth.EvLoadDefaultConfig None])
          else assume c [Auth.EvLoadDefaultConfig None]
      end
  end.
Proof.
  intros Hurl. cbv zeta. unfold Auth.NewTransportIAM.
  rewrite (bytes_of_string_nonempty _ Hurl).
  destruct (Auth.ConfigIAM.Config spec) as [c|]; simpl.
  - destruct (String.eqb (Auth.ConfigIAM.Role spec) ""); simpl; [reflexivity|].
    destruct (String.eqb (Auth.ConfigIAM.ExternalID spec) ""); simpl;
      destruct (LoadDefaultConfig _); reflexivity.
  - destruct (LoadDefaultConfig None) as [c|e]; simpl; [|reflexivity].
    destruct (String.eqb (Auth.ConfigIAM.Role spec) ""); simpl; [reflexivity|].
    destruct (String.eqb (Auth.ConfigIAM.ExternalID spec) ""); simpl;
      destruct (LoadDefaultConfig _); reflexivity.
Qed.

(** X16. The signed transport closes the request body only after it has read it
    to the end: when the credentials cannot be retrieved, or the body breaks
    off while it is read, or there is no body, the call ends without a close
    of the body; when the body was read, it is closed once before the signer
    is called, whether or not the signer then succeeds. *)
Theorem iam_body_close (config : Auth.aws_Config) (socket : Auth.RoundTripper)
    (req : Http.Request) :
  let run := RoundTrip (Auth.iamTransport config socket) req in
  (forall err, Retrieve (Auth.Credentials config) = Err err ->
               Observed.body_closes (trace run) = 0%nat)
  /\ (forall credential body err,
        Retrieve (Auth.Credentials config) = Ok credential ->
        Http.Body req = Some body ->
        snd (IO.ReadAll body) = Some err ->
        value run = Err err /\ Observed.body_closes (trace run) = 0%nat)
  /\ (forall credential body data,
        Retrieve (Auth.Credentials config) = Ok credential ->
        Http.Body req = Some body ->
        IO.ReadAll body = (data, None) ->
        exists signer_call rest,
          trace run = Auth.EvRetrieve (Auth.Credentials config)
                        :: Auth.EvBodyClose :: signer_call :: rest
          /\ Auth.signed_hashes [signer_call]
             = [Hex.EncodeToString (SHA256.Sum256 data)]).
Proof.
  cbv zeta. split; [|split].
  - intros err Hc. now rewrite (RoundTrip_iam_no_credentials _ _ _ _ config socket req err Hc).
  - intros credential body err Hc Hb Hread.
    rewrite (RoundTrip_iam_rebuffer_error Retrieve SignHTTP Now send config socket req
               credential err [] Hc
               (rebuffer_read_error req body err Hb Hread)).
    split; reflexivity.
  - intros credential body data Hc Hb Hread.
    pose proof (rebuffer_body req body data Hb Hread) as Hr.
    destruct (SignHTTP credential (Auth.with_body req (Some (IO.bytes_Reader data)))
                (Hex.EncodeToString (SHA256.Sum256 data)) "execute-api"
                (Auth.Region config) Now) as [s|err] eqn:Hs.
    + rewrite (RoundTrip_iam_signed Retrieve SignHTTP Now send config socket req _
                 credential _ s _ Hc Hr Hs). simpl. eauto.
    + rewrite (RoundTrip_iam_sign_error Retrieve SignHTTP Now send config socket req _
                 credential _ err _ Hc Hr Hs). simpl. eauto.
Qed.

(** X14. Without a role the external id plays no part: the constructor does and
    returns the same whatever the external id is. *)
Theorem iam_external_id_needs_role (spec : Auth.ConfigIAM.t) (ext : string) :
  Auth.ConfigIAM.Role spec = "" ->
  Auth.NewTransportIAM LoadDefaultConfig spec
  = Auth.NewTransportIAM LoadDefaultConfig
      {| Auth.ConfigIAM.Url := Auth.ConfigIAM.Url spec;
         Auth.ConfigIAM.Role := Auth.ConfigIAM.Role spec;
         Auth.ConfigIAM.ExternalID := ext;
         Auth.ConfigIAM.Config := Auth.ConfigIAM.Config spec;
         Auth.ConfigIAM.Client := Auth.ConfigIAM.Client spec |}.
Proof.
  intros Hrole. unfold Auth.NewTransportIAM. simpl. rewrite Hrole. simpl.
  destruct (length (bytes_of_string (Auth.ConfigIAM.Url spec)) =? 0)%nat; [reflexivity|].
  destruct (Auth.ConfigIAM.Config spec) as [c|]; simpl; [reflexivity|].
  destruct (LoadDefaultConfig None); reflexivity.
Qed.

(** X15. A signed-request transport that was constructed holds: without a role,
    the base configuration (the caller's, or the default one), no role
    having been assumed; with a role, the configuration returned by the one
    load that assumes the role on top of the base configuration, with the
    external id only when that is not empty. With a configuration of the
    caller's and no role, the constructor calls nothing outside. *)
Theorem iam_role_assumed_once (spec : Auth.ConfigIAM.t)
    (t : Auth.StreamableClientTransport) :
  value (Auth.NewTransportIAM LoadDefaultConfig spec) = Ok t ->
  let run := Auth.NewTransportIAM LoadDefaultConfig spec in
  let ext := if String.eqb (Auth.ConfigIAM.ExternalID spec) ""
             then None else Some (Auth.ConfigIAM.ExternalID spec) in
  exists base,
    match Auth.ConfigIAM.Config spec with
    | Some c => base = c
                /\ (Auth.ConfigIAM.Role spec = "" -> trace run = [])
    | None => LoadDefaultConfig None = Ok base
    end
    /\ if String.eqb (Auth.ConfigIAM.Role spec) ""
       then Observed.assume_role_loads (trace run) = []
            /\ Observed.config_of t = Some base
       else exists conf,
              let p := Auth.AssumeRoleCache base (Auth.ConfigIAM.Role spec) ext in
              Observed.assume_role_loads (trace run) = [p]
              /\ LoadDefaultConfig (Some p) = Ok conf
              /\ Observed.config_of t = Some conf.
Proof.
  intros Hok. cbv zeta.
  assert (Hurl : Auth.ConfigIAM.Url spec <> "").
  { intros He. unfold Auth.NewTransportIAM in Hok. rewrite He in Hok. discriminate. }
  pose proof (iam_construction spec Hurl) as Hc. cbv zeta in Hc.
  destruct (Auth.ConfigIAM.Config spec) as [c|].
  - exists c. destruct (String.eqb (Auth.ConfigIAM.Role spec) "") eqn:Hr.
    + rewrite Hc in *. simpl in Hok. injection Hok as <-.
      repeat split.
    + rewrite Hc in *. simpl in Hok.
      split; [split; [reflexivity|]|].
      { intros He. apply String.eqb_neq in Hr. contradiction. }
      destruct (LoadDefaultConfig (Some _)) as [conf|e] eqn:Hl; [|discriminate].
      injection Hok as <-. exists conf. repeat split.
  - destruct (LoadDefaultConfig None) as [c|e] eqn:Hl0.
    + exists c. split; [reflexivity|].
      destruct (String.eqb (Auth.ConfigIAM.Role spec) "") eqn:Hr.
      * rewrite Hc in *. simpl in Hok. injection Hok as <-. repeat split.
      * rewrite Hc in *. simpl in Hok.
        destruct (LoadDefaultConfig (Some _)) as [conf|e] eqn:Hl; [|discriminate].
        injection Hok as <-. exists conf. repeat split.
    + rewrite Hc in Hok. discriminate.
Qed.

End MoreTransportFacts.

(** ** The builder's names *)

(** The extension scan: after a stretch without dot or slash, a dot gives
    the stretch as extension; and an extension found is such a stretch. *)
Lemma ext_rev_found (s rest acc : bytes) :
  Builder.dot ∉ s -> Builder.slash ∉ s ->
  Builder.ext_rev (rev s ++ Builder.dot :: rest) acc = Builder.dot :: s ++ acc.
Proof.
  revert acc. induction s as [|c s IH] using rev_ind; intros acc Hd Hs.
  - reflexivity.
  - rewrite rev_app_distr. simpl.
    rewrite not_elem_of_app in Hd, Hs. destruct Hd as [Hd Hc], Hs as [Hs Hc'].
    rewrite byte_eqb_false by (intros ->; apply Hc', list_elem_of_here).
    rewrite byte_eqb_false by (intros ->; apply Hc, list_elem_of_here).
    rewrite IH by assumption. now rewrite <- app_assoc.
Qed.

Lemma ext_rev_inv (r acc e : bytes) :
  Builder.ext_rev r acc = e -> e <> [] ->
  exists s rest,
    r = rev s ++ Builder.dot :: rest /\ e = Builder.dot :: s ++ acc
    /\ (Builder.dot ∉ s) /\ (Builder.slash ∉ s).
Proof.
  revert acc. induction r as [|c r IH]; intros acc He Hne; [simpl in He; congruence|].
  simpl in He.
  destruct (Byte.eqb c Builder.slash) eqn:Hs; [congruence|].
  destruct (Byte.eqb c Builder.dot) eqn:Hd.
  - apply Byte.byte_dec_bl in Hd. subst c.
    exists [], r. repeat split; [now symmetry | apply not_elem_of_nil..].
  - destruct (IH (c :: acc) He Hne) as (s & rest & -> & -> & Hds & Hss).
    exists (s ++ [c]), rest. rewrite rev_app_distr. simpl.
    split; [reflexivity|]. split; [now rewrite <- app_assoc|].
    apply Byte.eqb_false in Hd, Hs.
    split; rewrite not_elem_of_app; (split; [assumption|]);
      rewrite list_elem_of_singleton; congruence.
Qed.

(** X17. [servername] returns [s] exactly for a name that ends in a dot followed
    by [s], where [s] holds neither a dot nor a slash: it is what follows
    the last dot of the last path element. Every other name that the runtime
    gives, one with no dot in its last path element, makes it panic, as does
    a function the runtime does not know. *)
Theorem servername_last_dot (name s : string) :
  Builder.servername (Some name) = Builder.Returns s
  <-> exists prefix,
        name = prefix +:+ "." +:+ s
        /\ (Builder.dot ∉ bytes_of_string s) /\ (Builder.slash ∉ bytes_of_string s).
Proof.
  unfold Builder.servername, Builder.Ext. rewrite bytes_string_bytes. split.
  - destruct (Builder.ext_rev (rev (bytes_of_string name)) []) as [|d serv] eqn:He;
      [discriminate|].
    intros [= <-].
    apply ext_rev_inv in He as (e & rest & Hr & He & Hd & Hs); [|discriminate].
    injection He as -> ->. rewrite app_nil_r in *.
    exists (string_of_bytes (rev rest)). rewrite bytes_string_bytes.
    split; [|split; assumption].
    apply bytes_of_string_inj. rewrite !bytes_of_string_app, !bytes_string_bytes.
    apply (f_equal (@rev byte)) in Hr.
    rewrite rev_involutive, rev_app_distr, rev_involutive in Hr. simpl in Hr.
    rewrite Hr, <- app_assoc. reflexivity.
  - intros (prefix & -> & Hd & Hs).
    rewrite !bytes_of_string_app, !rev_app_distr, <- app_assoc.
    change (rev (bytes_of_string ".")) with [Builder.dot]. simpl app at 2.
    rewrite ext_rev_found by assumption.
    now rewrite app_nil_r, string_bytes_string.
Qed.

Lemma TrimSuffix_app (p x : string) : Builder.TrimSuffix (p +:+ x) x = p.
Proof.
  unfold Builder.TrimSuffix, Builder.HasSuffix.
  rewrite bytes_of_string_app, length_app.
  replace (length (bytes_of_string p) + length (bytes_of_string x)
           - length (bytes_of_string x))%nat
    with (length (bytes_of_string p)) by lia.
  rewrite drop_app_length, take_app_length, !string_bytes_string, String.eqb_refl.
  replace (length (bytes_of_string x)
           <=? length (bytes_of_string p) + length (bytes_of_string x))%nat
    with true by (symmetry; apply Nat.leb_le; lia).
  reflexivity.
Qed.

Lemma Ext_is_suffix (name : string) : exists p, name = p +:+ Builder.Ext name.
Proof.
  unfold Builder.Ext.
  destruct (Builder.ext_rev (rev (bytes_of_string name)) []) as [|d e] eqn:He.
  - exists name. simpl. now rewrite string_app_nil_r.
  - apply ext_rev_inv in He as (s & rest & Hr & He & _); [|discriminate].
    rewrite He, app_nil_r.
    exists (string_of_bytes (rev rest)). apply bytes_of_string_inj.
    rewrite bytes_of_string_app, !bytes_string_bytes.
    apply (f_equal (@rev byte)) in Hr.
    rewrite rev_involutive, rev_app_distr, rev_involutive in Hr. simpl in Hr.
    now rewrite Hr, <- app_assoc.
Qed.

Lemma TrimSuffix_Ext (name : string) :
  name = Builder.TrimSuffix name (Builder.Ext name) +:+ Builder.Ext name.
Proof.
  destruct (Ext_is_suffix name) as [p Hp].
  rewrite Hp at 2. rewrite TrimSuffix_app. exact Hp.
Qed.

Lemma split_bytes_nonempty (s : bytes) : Builder.split_bytes s <> [].
Proof.
  destruct s as [|c s]; simpl; [discriminate|].
  destruct (Byte.eqb c Builder.slash); [discriminate|].
  destruct (Builder.split_bytes s); discriminate.
Qed.

Lemma Split_length (s : string) : (0 < length (Builder.Split s))%nat.
Proof.
  unfold Builder.Split. rewrite length_map.
  pose proof (split_bytes_nonempty (bytes_of_string s)).
  destruct (Builder.split_bytes (bytes_of_string s)); [congruence | simpl; lia].
Qed.

Lemma Join_cons (x : string) (l : list string) :
  l <> [] -> Builder.Join (x :: l) = x +:+ "/" +:+ Builder.Join l.
Proof. destruct l; [congruence | reflexivity]. Qed.

Lemma Join_split_bytes (s : bytes) :
  bytes_of_string (Builder.Join (map string_of_bytes (Builder.split_bytes s))) = s.
Proof.
  induction s as [|c s IH]; [reflexivity|].
  pose proof (split_bytes_nonempty s) as Hne.
  simpl. destruct (Byte.eqb c Builder.slash) eqn:Hc.
  - apply Byte.byte_dec_bl in Hc. subst c.
    cbn [map]. rewrite Join_cons by (destruct (Builder.split_bytes s); [congruence|discriminate]).
    rewrite !bytes_of_string_app, IH. reflexivity.
  - destruct (Builder.split_bytes s) as [|seg segs]; [congruence|].
    cbn [map] in *. destruct segs as [|seg' segs].
    + cbn [Builder.Join map] in *. rewrite bytes_string_bytes in IH.
      rewrite bytes_string_bytes. now rewrite IH.
    + rewrite Join_cons in IH by discriminate. rewrite Join_cons by discriminate.
      rewrite !bytes_of_string_app, !bytes_string_bytes in IH.
      rewrite !bytes_of_string_app, !bytes_string_bytes.
      rewrite <- app_comm_cons. f_equal. exact IH.
Qed.

(** Joining what was split gives the string back. *)
Lemma Join_Split (s : string) : Builder.Join (Builder.Split s) = s.
Proof. apply bytes_of_string_inj. apply Join_split_bytes. Qed.

(** A list of segments cut in two inside joins back with a slash. *)
Lemma Join_take_drop (segs : list string) (i : nat) :
  (0 < i < length segs)%nat ->
  Builder.Join (take i segs) +:+ "/" +:+ Builder.Join (drop i segs) = Builder.Join segs.
Proof.
  revert i. induction segs as [|x l IH]; intros i Hi; [simpl in Hi; lia|].
  destruct i as [|i]; [lia|]. simpl in Hi.
  assert (Hl : l <> []) by (destruct l; [simpl in Hi; lia | discriminate]).
  rewrite (Join_cons x l Hl). cbn [take drop].
  destruct i as [|i].
  - now rewrite take_0, drop_0.
  - rewrite Join_cons.
    + rewrite string_app_assoc, string_app_assoc. now rewrite IH by lia.
    + destruct l; [congruence | discriminate].
Qed.

Section SourceCodeFacts.

Variable Getenv : string -> string.
Variable Stat : string -> bool.
Variable filepath_Join : list string -> string.

Local Abbreviation rootSourceCode := (Builder.rootSourceCode Getenv filepath_Join).
Local Abbreviation probe := (Builder.probe Getenv Stat filepath_Join).
Local Abbreviation sourcecode := (Builder.sourcecode Getenv Stat filepath_Join).

(** Whether the probe at index [i] finds its file. *)
Local Abbreviation found segs i :=
  (Stat (rootSourceCode (filepath_Join [Builder.Join (take i segs); "go.mod"]))).

Lemma probe_spec (path : string) (segs : list string) (k : nat) :
  match probe path segs k with
  | Builder.Returns (m, l) =>
      exists i, (i < k)%nat
                /\ m = Builder.Join (take i segs) /\ l = Builder.Join (drop i segs)
                /\ found segs i = true
                /\ forall j, (i < j < k)%nat -> found segs j = false
  | Builder.Panics msg =>
      msg = "failed to go.mod for function " +:+ path
      /\ forall j, (j < k)%nat -> found segs j = false
  end.
Proof.
  induction k as [|k IH]; simpl.
  - split; [reflexivity | intros j Hj; lia].
  - destruct (found segs k) eqn:Hk.
    + exists k. repeat split; [lia | exact Hk | intros j Hj; lia].
    + destruct (probe path segs k) as [[m l]|msg].
      * destruct IH as (i & Hi & Hm & Hl & Hf & Hnone).
        exists i. repeat split; [lia | assumption..|].
        intros j Hj. destruct (decide (j = k)) as [->|Hne]; [exact Hk|].
        apply Hnone. lia.
      * destruct IH as [Hmsg Hnone]. split; [exact Hmsg|].
        intros j Hj. destruct (decide (j = k)) as [->|Hne]; [exact Hk|].
        apply Hnone. lia.
Qed.

(** X18. [sourcecode] on the name of a function. The name is its path followed by
    its extension. When [sourcecode] returns, the module is the join of the
    longest proper prefix of the path's segments whose probe finds a file,
    and the lambda the join of the remaining segments, at least one: the
    two put the path together again around a slash (or the module is empty
    and the lambda the whole path), and the path itself is never the module.
    It panics exactly when no proper prefix is found. *)
Theorem sourcecode_longest_prefix (name : string) :
  let path := Builder.TrimSuffix name (Builder.Ext name) in
  let segs := Builder.Split path in
  name = path +:+ Builder.Ext name
  /\ match sourcecode (Some name) with
     | Builder.Returns (m, l) =>
         exists i, (i < length segs)%nat
                   /\ m = Builder.Join (take i segs) /\ l = Builder.Join (drop i segs)
                   /\ drop i segs <> []
                   /\ found segs i = true
                   /\ (forall j, (i < j < length segs)%nat -> found segs j = false)
                   /\ (if decide (i = 0%nat) then m = "" /\ l = path
                       else m +:+ "/" +:+ l = path)
     | Builder.Panics msg =>
         forall j, (j < length segs)%nat -> found segs j = false
     end.
Proof.
  cbv zeta. split; [apply TrimSuffix_Ext|].
  unfold Builder.sourcecode.
  set (path := Builder.TrimSuffix name (Builder.Ext name)).
  pose proof (probe_spec path (Builder.Split path) (length (Builder.Split path))) as Hp.
  destruct (probe path (Builder.Split path) (length (Builder.Split path)))
    as [[m l]|msg].
  - destruct Hp as (i & Hi & Hm & Hl & Hf & Hnone).
    exists i. repeat split; try assumption.
    + intros Hd. apply (f_equal length) in Hd. rewrite length_drop in Hd.
      simpl in Hd. lia.
    + destruct (decide (i = 0%nat)) as [->|Hne].
      * subst m l. rewrite take_0, drop_0. split; [reflexivity | apply Join_Split].
      * subst m l. rewrite Join_take_drop by lia. apply Join_Split.
  - apply Hp.
Qed.

(** X19. With GITHUB_WORKSPACE set, [sourcecode] never looks for a go.mod: every
    probe tests the workspace directory itself. If that exists, the module
    is the path without its last segment and the lambda that last segment;
    if it does not, [sourcecode] panics. *)
Theorem sourcecode_in_workspace (name : string) :
  Getenv "GITHUB_WORKSPACE" <> "" ->
  let path := Builder.TrimSuffix name (Builder.Ext name) in
  let segs := Builder.Split path in
  let n := (length segs - 1)%nat in
  sourcecode (Some name)
  = if Stat (Getenv "GITHUB_WORKSPACE")
    then Builder.Returns (Builder.Join (take n segs), Builder.Join (drop n segs))
    else Builder.Panics ("failed to go.mod for function " +:+ path).
Proof.
  intros Hw. cbv zeta. unfold Builder.sourcecode.
  set (path := Builder.TrimSuffix name (Builder.Ext name)).
  assert (Hroot : forall m, rootSourceCode m = Getenv "GITHUB_WORKSPACE").
  { intros m. unfold Builder.rootSourceCode.
    apply String.eqb_neq in Hw. now rewrite Hw. }
  pose proof (Split_length path) as Hlen.
  destruct (length (Builder.Split path)) as [|k] eqn:Hk; [lia|].
  simpl. rewrite Hroot, Nat.sub_0_r.
  destruct (Stat (Getenv "GITHUB_WORKSPACE")) eqn:Hs; [reflexivity|].
  clear Hk Hlen. induction k as [|k IH]; [reflexivity|].
  simpl. rewrite Hroot, Hs. exact IH.
Qed.

End SourceCodeFacts.

(** ** Worked instances of the later facts *)

Lemma empty_method_reaches_handler_as_GET_witness :
  let req := Sample.event "" "" false [] [] in
  (Gateway.HTTPMethod req = ""
   /\ Fixture.url_Parse (Gateway.Path req)
      = Ok {| Http.Scheme := ""; Http.UHost := ""; Http.Path := "/mcp";
              Http.RawQuery := "" |}
   /\ Gateway.Body req = "")
  /\ exists input,
       Gateway.handler_calls string
         (trace (Gateway.Serve string Fixture.DecodeMessage Fixture.url_Parse
                   Fixture.url_ParseQuery Fixture.url_Encode (Gateway.New Fixture.echo) req))
       = [input]
       /\ Http.Method input = "GET".
Proof.
  cbv zeta. split; [repeat split|].
  destruct (empty_method_reaches_handler_as_GET string Fixture.DecodeMessage
              Fixture.url_Parse Fixture.url_ParseQuery Fixture.url_Encode
              (Gateway.New Fixture.echo) (Sample.event "" "" false [] [])
              _ eq_refl eq_refl (or_introl eq_refl)) as (input & Hcalls & Hm & _).
  exists input. split; assumption.
Defined.

Lemma request_headers_last_write_wins_witness :
  let req := Sample.event "POST" "" false
               [("content-type", "text/plain"); ("Content-Type", "application/json")] [] in
  exists input,
    Gateway.NewHttpRequest Fixture.url_Parse Fixture.url_ParseQuery Fixture.url_Encode req
    = Ok input
    /\ Http.Hdr input !! "Content-Type" = Some ["application/json"]
    /\ Http.Get (Http.Hdr input) "CONTENT-TYPE" = "application/json"
    /\ Http.Hdr input !! "content-type" = None.
Proof.
  cbv zeta.
  destruct (Gateway.NewHttpRequest Fixture.url_Parse Fixture.url_ParseQuery
              Fixture.url_Encode
              (Sample.event "POST" "" false
                 [("content-type", "text/plain"); ("Content-Type", "application/json")] []))
    as [input|e] eqn:Hin; [|discriminate Hin].
  exists input. split; [reflexivity|].
  destruct (request_headers_last_write_wins Fixture.url_Parse Fixture.url_ParseQuery
              Fixture.url_Encode _ input Hin) as [Hl Hg].
  split; [exact (Hl "Content-Type")|]. split; [exact (Hg "CONTENT-TYPE")|].
  exact (Hl "content-type").
Defined.

Lemma request_header_keys_canonical_witness :
  let req := Sample.event "POST" "" false [("x-request-id", "7")] [] in
  exists input,
    Gateway.NewHttpRequest Fixture.url_Parse Fixture.url_ParseQuery Fixture.url_Encode req
    = Ok input
    /\ Http.Hdr input !! "X-Request-Id" = Some ["7"]
    /\ Http.CanonicalMIMEHeaderKey "X-Request-Id" = "X-Request-Id".
Proof.
  cbv zeta.
  destruct (Gateway.NewHttpRequest Fixture.url_Parse Fixture.url_ParseQuery
              Fixture.url_Encode (Sample.event "POST" "" false [("x-request-id", "7")] []))
    as [input|e] eqn:Hin; [|discriminate Hin].
  exists input. split; [reflexivity|].
  assert (Hk : Http.Hdr input !! "X-Request-Id" = Some ["7"]).
  { injection Hin as <-. apply lookup_insert_eq. }
  split; [exact Hk|].
  exact (proj1 (request_header_keys_canonical Fixture.url_Parse Fixture.url_ParseQuery
                  Fixture.url_Encode _ input "X-Request-Id" ["7"] Hin Hk)).
Defined.

Lemma request_query_appends_witness :
  let req := Sample.event "POST" "" false [] [("cursor", "abc"); ("limit", "10")] in
  exists input u q,
    Gateway.NewHttpRequest Fixture.url_Parse Fixture.url_ParseQuery Fixture.url_Encode req
    = Ok input
    /\ Fixture.url_Parse (Gateway.Path req) = Ok u
    /\ Http.RawQuery (Http.Url input) = Fixture.url_Encode q
    /\ default [] (q !! "cursor") = ["abc"]
    /\ default [] (q !! "limit") = ["10"]
    /\ default [] (q !! "other") = [].
Proof.
  cbv zeta.
  destruct (Gateway.NewHttpRequest Fixture.url_Parse Fixture.url_ParseQuery
              Fixture.url_Encode
              (Sample.event "POST" "" false [] [("cursor", "abc"); ("limit", "10")]))
    as [input|e] eqn:Hin; [|discriminate Hin].
  destruct (request_query_appends Fixture.url_Parse Fixture.url_ParseQuery
              Fixture.url_Encode _ input Hin) as (u & q & Hu & Hq & Hv).
  exists input, u, q. split; [reflexivity|]. split; [exact Hu|]. split; [exact Hq|].
  split; [exact (Hv "cursor")|]. split; [exact (Hv "limit") | exact (Hv "other")].
Defined.

Lemma base64_body_ignores_line_breaks_witness :
  let req := Sample.event "POST" Sample.wrapped_hello true [] [] in
  Gateway.IsBase64Encoded req = true
  /\ filter (fun c => negb (IO.is_newline c)) (bytes_of_string (Gateway.Body req))
     = Base64.Encode true (bytes_of_string "Hello")
  /\ IO.ReadAll (Gateway.requestBody req) = (bytes_of_string "Hello", None).
Proof.
  cbv zeta.
  assert (Hf : filter (fun c => negb (IO.is_newline c))
                 (bytes_of_string (Gateway.Body
                                     (Sample.event "POST" Sample.wrapped_hello true [] [])))
               = Base64.Encode true (bytes_of_string "Hello")) by reflexivity.
  split; [reflexivity|]. split; [exact Hf|].
  exact (base64_body_ignores_line_breaks (bytes_of_string "Hello")
           (Sample.event "POST" Sample.wrapped_hello true [] []) eq_refl Hf).
Defined.

Lemma base64_body_truncated_is_error_witness :
  let req := Sample.event "POST" "SGVsbG8" true [] [] in
  (Gateway.IsBase64Encoded req = true
   /\ (length (filter (fun c => negb (IO.is_newline c))
                 (bytes_of_string (Gateway.Body req))) mod 4 <> 0)%nat)
  /\ exists e, snd (IO.ReadAll (Gateway.requestBody req)) = Some e.
Proof.
  cbv zeta.
  assert (Hl : (length (filter (fun c => negb (IO.is_newline c))
                          (bytes_of_string (Gateway.Body
                                              (Sample.event "POST" "SGVsbG8" true [] []))))
                mod 4 <> 0)%nat) by discriminate.
  split; [split; [reflexivity | exact Hl]|].
  exact (base64_body_truncated_is_error (Sample.event "POST" "SGVsbG8" true [] [])
           eq_refl Hl).
Defined.

Lemma apikey_digest_unpadded_witness :
  let spec := Sample.apikey "access" "secret" None in
  Auth.ConfigApiKey.Url spec <> ""
  /\ exists t digest n,
       Auth.NewTransportApiKey spec = Ok t
       /\ Observed.digest_of t = Some digest
       /\ Forall (fun c => Base64.in_alphabet c = true) (bytes_of_string digest)
       /\ (Base64.StdPadding ∉ bytes_of_string digest)
       /\ (n <= 2)%nat /\ ((length (bytes_of_string "access:secret") + n) mod 3 = 0)%nat
       /\ Base64.Encode true (bytes_of_string "access:secret")
          = bytes_of_string digest ++ repeat Base64.StdPadding n
       /\ Base64.Decode (bytes_of_string digest ++ repeat Base64.StdPadding n)
          = (bytes_of_string "access:secret", None).
Proof.
  cbv zeta.
  assert (Hurl : Auth.ConfigApiKey.Url (Sample.apikey "access" "secret" None) <> "")
    by discriminate.
  split; [exact Hurl|].
  exact (apikey_digest_unpadded (Sample.apikey "access" "secret" None) Hurl).
Defined.

Lemma apikey_digest_injective_witness :
  let t1 := {| Shared.Endpoint := "https://example.com/mcp"; Shared.HTTPClient := 0%nat |} in
  let h1 := [Sample.first_client] in
  Shared.NewTransportApiKey (Sample.shared "access" "secret" None) [] = (Ok t1, h1)
  /\ Shared.digest_at h1 t1 = Some "YWNjZXNzOnNlY3JldA"
  /\ (exists t2 h2,
        Shared.NewTransportApiKey (Sample.shared "other" "key" None) h1 = (Ok t2, h2)
        /\ Shared.HTTPClient t2 <> Shared.HTTPClient t1
        /\ Shared.digest_at h2 t2 = Some "b3RoZXI6a2V5"
        /\ Shared.digest_at h2 t1 = Some "YWNjZXNzOnNlY3JldA")
  /\ (exists t2 h2,
        Shared.NewTransportApiKey (Sample.shared "other" "key" (Some (Shared.HTTPClient t1))) h1
        = (Ok t2, h2)
        /\ Shared.HTTPClient t2 = Shared.HTTPClient t1
        /\ Shared.digest_at h2 t2 = Some "b3RoZXI6a2V5"
        /\ Shared.digest_at h2 t1 = Some "b3RoZXI6a2V5").
Proof.
  cbv zeta. split; [reflexivity|]. split; [reflexivity|]. split.
  - eexists _, _. split; [reflexivity|].
    destruct (apikey_digest_injective
                (Sample.shared "access" "secret" None) (Sample.shared "other" "key" None)
                [] [Sample.first_client] _ _ _
                ltac:(discriminate) ltac:(discriminate) eq_refl eq_refl)
      as (d1 & d2 & Hd1 & Hd2 & _ & _ & Hne & Hkeep).
    injection Hd1 as <-. injection Hd2 as <-.
    split; [exact Hne|]. split; [reflexivity | exact Hkeep].
  - eexists _, _. split; [reflexivity|].
    destruct (apikey_digest_injective
                (Sample.shared "access" "secret" None) (Sample.shared "other" "key" (Some 0%nat))
                [] [Sample.first_client] _ _ _
                ltac:(discriminate)
                ltac:(intros p [= <-]; eexists; reflexivity) eq_refl eq_refl)
      as (d1 & d2 & Hd1 & Hd2 & _ & _ & Heq & Hnow).
    injection Hd2 as <-.
    split; [exact Heq|]. split; [reflexivity | exact Hnow].
Defined.

Lemma apikey_transports_stack_witness :
  let spec1 := Sample.apikey "access" "secret" None in
  exists t1 t2 fwd1 fwd2,
    Auth.NewTransportApiKey spec1 = Ok t1
    /\ Auth.NewTransportApiKey (Sample.apikey "other" "key" (Auth.HTTPClient t1)) = Ok t2
    /\ Observed.round_tripper_of t2
       = Some (Auth.apikeyTransport "b3RoZXI6a2V5"
                 (Auth.apikeyTransport "YWNjZXNzOnNlY3JldA" Auth.DefaultTransport))
    /\ Auth.socket_calls
         (trace (Auth.RoundTrip Fixture.Retrieve Fixture.SignHTTP 0 Fixture.send
                   (Auth.apikeyTransport "b3RoZXI6a2V5"
                      (Auth.apikeyTransport "YWNjZXNzOnNlY3JldA" Auth.DefaultTransport))
                   (Fixture.outbound None ∅)))
       = [(Auth.apikeyTransport "YWNjZXNzOnNlY3JldA" Auth.DefaultTransport, fwd1);
          (Auth.DefaultTransport, fwd2)]
    /\ Http.Hdr fwd2 !! "Authorization"
       = Some ["Basic b3RoZXI6a2V5"; "Basic YWNjZXNzOnNlY3JldA"].
Proof.
  cbv zeta.
  destruct (apikey_transports_stack Fixture.Retrieve Fixture.SignHTTP 0 Fixture.send
              (Sample.apikey "access" "secret" None)
              (Sample.apikey "other" "key"
                 (Some {| Auth.Transport :=
                            Some (Auth.apikeyTransport "YWNjZXNzOnNlY3JldA"
                                    Auth.DefaultTransport);
                          Auth.Timeout := 0 |}))
              _ (Fixture.outbound None ∅) eq_refl eq_refl)
    as (t2 & d1 & d2 & fwd1 & fwd2 & Hnew & Hd1 & Hrt & Hrun & Hhdr);
    [discriminate|].
  injection Hd1 as <-.
  assert (Hd2 : d2 = "b3RoZXI6a2V5").
  { pose proof Hnew as Hnew'. vm_compute in Hnew'. injection Hnew' as <-.
    vm_compute in Hrt. now injection Hrt as <-. }
  subst d2.
  eexists _, t2, fwd1, fwd2. split; [reflexivity|]. split; [exact Hnew|].
  split; [exact Hrt|]. split.
  - exact (f_equal (fun m => Auth.socket_calls (trace m)) Hrun).
  - exact Hhdr.
Defined.

Lemma iam_external_id_needs_role_witness :
  Auth.ConfigIAM.Role (Sample.iam "" "" None) = ""
  /\ Auth.NewTransportIAM Fixture.LoadDefaultConfig (Sample.iam "" "" None)
     = Auth.NewTransportIAM Fixture.LoadDefaultConfig (Sample.iam "" "tenant-1" None).
Proof.
  split; [reflexivity|].
  exact (iam_external_id_needs_role Fixture.LoadDefaultConfig (Sample.iam "" "" None)
           "tenant-1" eq_refl).
Defined.

Lemma iam_role_assumed_once_witness :
  let spec := Sample.iam "arn:aws:iam::000000000000:role/mcp" "tenant-1" None in
  let run := Auth.NewTransportIAM Fixture.LoadDefaultConfig spec in
  let base := Auth.mkConfig "eu-west-1" (Auth.Ambient "default") in
  let p := Auth.AssumeRoleCache base "arn:aws:iam::000000000000:role/mcp" (Some "tenant-1") in
  exists t,
    value run = Ok t
    /\ Observed.assume_role_loads (trace run) = [p]
    /\ Observed.config_of t = Some (Auth.mkConfig "eu-west-1" p).
Proof.
  cbv zeta. eexists. split; [reflexivity|].
  destruct (iam_role_assumed_once Fixture.LoadDefaultConfig
              (Sample.iam "arn:aws:iam::000000000000:role/mcp" "tenant-1" None) _ eq_refl)
    as (base & Hbase & conf & Hloads & Hl & Hconf).
  simpl in Hbase. injection Hbase as <-.
  split; [exact Hloads|]. vm_compute in Hl. injection Hl as <-. exact Hconf.
Defined.

Lemma sourcecode_in_workspace_witness :
  Sample.Getenv "GITHUB_WORKSPACE" <> ""
  /\ Builder.sourcecode Sample.Getenv Sample.Stat Builder.Join (Some Sample.factory)
     = Builder.Returns
         ("github.com/fogfish/cloudmcp/examples/helloworld", "server").
Proof.
  assert (Hw : Sample.Getenv "GITHUB_WORKSPACE" <> "") by discriminate.
  split; [exact Hw|].
  exact (sourcecode_in_workspace Sample.Getenv Sample.Stat Builder.Join Sample.factory Hw).
Defined.

Lemma iam_body_close_witness :
  let config := Auth.mkConfig "eu-west-1" (Auth.Ambient "default") in
  let body := IO.bytes_Reader (bytes_of_string "ping") in
  let failing := IO.RErr ErrUnexpectedEOF in
  let run b := Auth.RoundTrip Fixture.Retrieve Fixture.SignHTTP 0 Fixture.send
                 (Auth.iamTransport config Auth.DefaultTransport)
                 (Fixture.outbound (Some b) ∅) in
  (value (run failing) = Err ErrUnexpectedEOF
   /\ Observed.body_closes (trace (run failing)) = 0%nat)
  /\ exists signer_call rest,
       trace (run body)
       = Auth.EvRetrieve (Auth.Credentials config) :: Auth.EvBodyClose :: signer_call :: rest
       /\ Auth.signed_hashes [signer_call]
          = [Hex.EncodeToString (SHA256.Sum256 (bytes_of_string "ping"))].
Proof.
  cbv zeta. split.
  - exact (proj1 (proj2 (iam_body_close Fixture.Retrieve Fixture.SignHTTP 0 Fixture.send
                           (Auth.mkConfig "eu-west-1" (Auth.Ambient "default"))
                           Auth.DefaultTransport
                           (Fixture.outbound (Some (IO.RErr ErrUnexpectedEOF)) ∅)))
             Fixture.creds (IO.RErr ErrUnexpectedEOF) ErrUnexpectedEOF
             eq_refl eq_refl eq_refl).
  - exact (proj2 (proj2 (iam_body_close Fixture.Retrieve Fixture.SignHTTP 0 Fixture.send
                           (Auth.mkConfig "eu-west-1" (Auth.Ambient "default"))
                           Auth.DefaultTransport
                           (Fixture.outbound
                              (Some (IO.bytes_Reader (bytes_of_string "ping"))) ∅)))
             Fixture.creds (IO.bytes_Reader (bytes_of_string "ping"))
             (bytes_of_string "ping") eq_refl eq_refl eq_refl).
Defined.
